(** * The TiDB CDC consumer: a shallow embedding of [processCDCMessage]

    The repository ships three versions of the Kafka consumer:

    - [src/consumer/index.js]: Canal-JSON arrays and a fallback branch
      (module [Canal] below);
    - [src/unnamed/part_000]: the simple-protocol branch of
      [part_001] in front of the loop of [index.js], with the table name
      of the key as fallback and a [protocol] field in the log record
      (module [Combined] below);
    - [src/unnamed/part_001]: the simple protocol, the WATERMARK/BOOTSTRAP
      control tags and the DELETE+INSERT correlation through
      [this.recentDeletes], a [setTimeout] of 500 ms per tracked DELETE and
      a [setInterval] of 30 s (module [Split] below). It has no loop over
      a [data] array.

    JavaScript values that come out of [JSON.parse] are modelled by
    [jsval]; the Prometheus counters, the histogram timer and the winston
    logger are modelled by the list of [effect]s they receive, in program
    order; exceptions are modelled by the [None] result of the monad [M],
    with the effects performed before the throw kept, as in JavaScript. *)

From Stdlib Require Import Ascii String ZArith.
From stdpp Require Import gmap strings list fin_maps pretty.

Set Warnings "-register-all".
Open Scope string_scope.
Open Scope list_scope.
Open Scope Z_scope.

(** ** JavaScript values *)

(** Numbers are the parsed numbers; the model covers the integers below
    2^53 in magnitude, which [JSON.parse] reads exactly and which a
    template literal prints in plain decimal digits (nothing here does
    arithmetic on them: only [===], truthiness and that rendering are
    used). Strings are sequences of bytes. *)
Inductive jsval : Type :=
| JUndefined
| JNull
| JBool (b : bool)
| JNum (n : Z)
| JStr (s : string)
| JArr (items : list jsval)
| JObj (props : list (string * jsval)).

(** ToBoolean. *)
Definition truthy (v : jsval) : bool :=
  match v with
  | JUndefined | JNull => false
  | JBool b => b
  | JNum n => negb (n =? 0)
  | JStr s => negb (String.eqb s "")
  | JArr _ | JObj _ => true
  end.

(** [a || b]. *)
Definition js_or (a b : jsval) : jsval := if truthy a then a else b.

(** Own property of an object literal; [JSON.parse] keeps the last of
    several bindings of one name. *)
Fixpoint field (k : string) (l : list (string * jsval)) : option jsval :=
  match l with
  | [] => None
  | (k', v) :: r =>
      match field k r with
      | Some w => Some w
      | None => if String.eqb k' k then Some v else None
      end
  end.

(** [v.k] for a [v] that is neither [null] nor [undefined], and for the
    property names the consumer reads (none of them is inherited from
    [Object.prototype], [Array.prototype] or a primitive wrapper). *)
Definition prop (v : jsval) (k : string) : jsval :=
  match v with
  | JObj l => default JUndefined (field k l)
  | _ => JUndefined
  end.

Definition nullish (v : jsval) : bool :=
  match v with JUndefined | JNull => true | _ => false end.

(** [a === b]. Primitives compare by value; two objects or two arrays
    are equal only when they are the same reference, which the caller
    states through [same_ref]. *)
Definition strict_equals (same_ref : bool) (a b : jsval) : bool :=
  match a, b with
  | JUndefined, JUndefined => true
  | JNull, JNull => true
  | JBool x, JBool y => Bool.eqb x y
  | JNum x, JNum y => x =? y
  | JStr x, JStr y => String.eqb x y
  | JArr _, JArr _ => same_ref
  | JObj _, JObj _ => same_ref
  | _, _ => false
  end.

(** Comparison with a string or number literal of the source. *)
Definition is_str (v : jsval) (lit : string) : bool := strict_equals false v (JStr lit).
Definition is_num (v : jsval) (lit : Z) : bool := strict_equals false v (JNum lit).

(** [String.prototype.includes]. *)
Fixpoint includes (s pat : string) : bool :=
  String.prefix pat s ||
  match s with
  | EmptyString => false
  | String _ s' => includes s' pat
  end.

(** [String.prototype.toLowerCase] on strings of ASCII characters: the
    letters A to Z are lowered, every other byte is kept. JavaScript
    also lowers letters outside ASCII; a statement that depends on the
    lower-casing of a string taken from a payload is made for
    [ascii_only] strings. *)
Definition ascii_only (s : string) : bool :=
  forallb (fun c => (nat_of_ascii c <? 128)%nat) (list_ascii_of_string s).

Definition lower_ascii (c : ascii) : ascii :=
  let n := nat_of_ascii c in
  if ((65 <=? n) && (n <=? 90))%nat then ascii_of_nat (n + 32) else c.

Fixpoint toLowerCase (s : string) : string :=
  match s with
  | EmptyString => EmptyString
  | String c s' => String (lower_ascii c) (toLowerCase s')
  end.

(** ToString, as a template literal applies it. An object parsed from
    JSON prints as [[object Object]] through [Object.prototype.toString];
    when it has an own property [toString] (never callable, coming from
    JSON) the conversion falls back on [valueOf], which yields no
    primitive, and a TypeError is thrown: [None]. An array prints its
    elements joined by commas, [null] elements as the empty string. *)
Definition join_with (sep : string) (parts : list string) : string :=
  match parts with
  | [] => ""
  | p :: ps => fold_left (fun acc q => String.append acc (String.append sep q)) ps p
  end.

Fixpoint toString (v : jsval) : option string :=
  match v with
  | JUndefined => Some "undefined"
  | JNull => Some "null"
  | JBool true => Some "true"
  | JBool false => Some "false"
  | JNum n => Some (pretty n)
  | JStr s => Some s
  | JArr items =>
      let fix elems (l : list jsval) : option (list string) :=
        match l with
        | [] => Some []
        | x :: r =>
            match (if nullish x then Some "" else toString x), elems r with
            | Some sx, Some sr => Some (sx :: sr)
            | _, _ => None
            end
        end in
      match elems items with
      | Some parts => Some (join_with "," parts)
      | None => None
      end
  | JObj l =>
      match field "toString" l with
      | Some _ => None
      | None => Some "[object Object]"
      end
  end.


(** ** Observable effects, consumer state and the monad of the handlers *)

(** What the module-level collaborators receive: the two labelled
    metrics, the two plain counters and the winston logger. The [meta]
    of a log call is the object literal passed to it. The text of a
    caught error ([e.message]) and the ISO rendering of the clock are
    not modelled: a [timestamp] field carries the clock reading. *)
Inductive effect : Type :=
| cdcEventsCounter_inc (table_name operation_type : jsval)
| cdcProcessingDuration_observe (table_name operation_type : jsval)
| kafkaMessagesTotal_inc
| kafkaErrorsTotal_inc
| logger_info (msg : string) (meta : jsval)
| logger_warn (msg : string) (meta : jsval)
| logger_error (msg : string).

(** A value of [this.recentDeletes]: [{ commitTs, timestamp, data }].
    [armed] is ghost: it is the handle of the timeout that the same
    delivery armed, whose closure captured the very [commitTs] stored
    here, so that [===] on objects and arrays can be decided. *)
Record pending : Type := {
  commitTs : jsval;
  timestamp : Z;
  data : jsval;
  armed : nat
}.

(** The closure handed to [setTimeout] by a tracked DELETE, with the
    variables it captures, and the time at which it becomes due. *)
Record finalize : Type := {
  f_deleteKey : string;
  f_commitTs : jsval;
  f_handle : nat;
  f_tableName : jsval;
  f_payload : jsval;
  f_offset : jsval;
  f_messageKey : jsval;
  f_due : Z
}.

(** The consumer instance together with the part of the Node runtime it
    relies on: pending timeouts, the due time of the interval, the clock
    read by [Date.now()], and the effects performed so far. *)
Record consumer : Type := {
  recentDeletes : gmap string pending;
  timeouts : gmap nat finalize;
  next_handle : nat;
  interval_due : Z;
  clock : Z;
  out : list effect
}.

Definition with_recentDeletes (f : gmap string pending -> gmap string pending)
    (s : consumer) : consumer :=
  {| recentDeletes := f (recentDeletes s); timeouts := timeouts s;
     next_handle := next_handle s; interval_due := interval_due s;
     clock := clock s; out := out s |}.

Definition with_out (f : list effect -> list effect) (s : consumer) : consumer :=
  {| recentDeletes := recentDeletes s; timeouts := timeouts s;
     next_handle := next_handle s; interval_due := interval_due s;
     clock := clock s; out := f (out s) |}.

(** A computation over the consumer that may throw: [None] is a thrown
    exception; the state reached at the throw is kept. *)
Definition M (A : Type) : Type := consumer -> consumer * option A.

#[global] Instance M_ret : MRet M := fun A a s => (s, Some a).
#[global] Instance M_bind : MBind M := fun A B f m s =>
  match m s with
  | (s', Some a) => f a s'
  | (s', None) => (s', None)
  end.

Definition throw {A : Type} : M A := fun s => (s, None).

(** [try { body } catch (e) { handler }]. *)
Definition try_catch {A : Type} (body handler : M A) : M A := fun s =>
  match body s with
  | (s', Some a) => (s', Some a)
  | (s', None) => handler s'
  end.

Definition emit (e : effect) : M unit := fun s => (with_out (fun o => o ++ [e]) s, Some tt).

(** A value that has a string conversion. *)
Definition writable (v : jsval) : bool :=
  match toString v with Some _ => true | None => false end.

(** [cdcEventsCounter.inc(labels)] and the [timer(labels)] returned by
    [cdcProcessingDuration.startTimer()]: prom-client renders every label
    value in a template literal before it records anything, so the call
    throws a TypeError, and records nothing, when a label value has no
    string conversion. *)
Definition counter_inc (table_name operation_type : jsval) : M unit :=
  if writable table_name && writable operation_type
  then emit (cdcEventsCounter_inc table_name operation_type)
  else throw.

Definition timer (table_name operation_type : jsval) : M unit :=
  if writable table_name && writable operation_type
  then emit (cdcProcessingDuration_observe table_name operation_type)
  else throw.

(** [logger.info(msg, meta)]: when [meta.message] is truthy winston
    appends it to the message in a template literal, which throws when
    it has no string conversion; nothing is logged then. *)
Definition log_info (msg : string) (meta : jsval) : M unit :=
  if truthy (prop meta "message") && negb (writable (prop meta "message"))
  then throw
  else emit (logger_info msg meta).
Definition Date_now : M Z := fun s => (s, Some (clock s)).
Definition next_timeout : M nat := fun s => (s, Some (next_handle s)).

(** [v.k]: a TypeError on [null] and [undefined]. *)
Definition get (v : jsval) (k : string) : M jsval :=
  if nullish v then throw else mret (prop v k).

(** A template literal over the given parts: the concatenation of their
    string conversions, a TypeError when one of them has none. *)
Definition interpolate (parts : list jsval) : option string :=
  foldr (fun p acc => sp ← toString p; sa ← acc; Some (String.append sp sa))
    (Some "") parts.

Definition template (parts : list jsval) : M string := fun s => (s, interpolate parts).

(** [x.toLowerCase()]: a TypeError unless [x] is a string. *)
Definition call_toLowerCase (x : jsval) : M jsval :=
  match x with
  | JStr s => mret (JStr (toLowerCase s))
  | _ => throw
  end.

(** [x.includes(lit)] for a string literal [lit]: the substring test on
    a string, membership on an array, a TypeError on anything else. *)
Definition call_includes (x : jsval) (lit : string) : M bool :=
  match x with
  | JStr s => mret (includes s lit)
  | JArr items => mret (existsb (fun v => is_str v lit) items)
  | _ => throw
  end.

(** ** Messages *)

(** A Kafka [Buffer] is represented by its text and by the outcome of
    [JSON.parse] on that text ([None] when the library throws). *)
Record buffer : Type := { text : string; json : option jsval }.

Record message : Type := {
  key : option buffer;
  value : option buffer;
  partition : jsval;
  offset : jsval
}.

(** [JSON.parse(b.toString())]; a [null] buffer throws on [toString]. *)
Definition JSON_parse (b : option buffer) : M jsval :=
  match b with
  | Some {| json := Some v |} => mret v
  | _ => throw
  end.

(** The parsed value of a message, when [JSON.parse] returns one. *)
Definition payload_of (m : message) : option jsval :=
  match value m with Some b => json b | None => None end.

(** The emitted stream: the CDC Event records and the increments of
    [tidb_cdc_events_total]. *)
Definition cdc_events (o : list effect) : list jsval :=
  omap (fun e => match e with
                 | logger_info "CDC Event" meta => Some meta
                 | _ => None
                 end) o.

Definition counter_incs (o : list effect) : list (jsval * jsval) :=
  omap (fun e => match e with
                 | cdcEventsCounter_inc t op => Some (t, op)
                 | _ => None
                 end) o.

(** ** [src/unnamed/part_001]: simple protocol and DELETE+INSERT correlation *)

Module Split.

(** [this.recentDeletes.has/get], [.set], [.delete], and [setTimeout]. *)
Definition recentDeletes_get (k : string) : M (option pending) :=
  fun s => (s, Some (recentDeletes s !! k)).

Definition recentDeletes_set (k : string) (v : pending) : M unit :=
  fun s => (with_recentDeletes (fun m => <[k := v]> m) s, Some tt).

Definition recentDeletes_delete (k : string) : M unit :=
  fun s => (with_recentDeletes (fun m => delete k m) s, Some tt).

Definition setTimeout (callback : finalize) : M unit := fun s =>
  ({| recentDeletes := recentDeletes s;
      timeouts := <[next_handle s := callback]> (timeouts s);
      next_handle := S (next_handle s); interval_due := interval_due s;
      clock := clock s; out := out s |}, Some tt).

Definition correlation_window : Z := 500.
Definition sweep_period : Z := 30000.
Definition staleness_threshold : Z := 5000.

(** [extractRecordId(data)]: id, then username, then email. *)
Definition extractRecordId (data : jsval) : jsval :=
  if truthy data && negb (strict_equals false (prop data "id") JUndefined)
  then prop data "id"
  else if truthy data && truthy (prop data "username") then prop data "username"
  else if truthy data && truthy (prop data "email") then prop data "email"
  else JNull.

(** The first block of [processCDCMessage]: [messageKey], [tableName]
    and [rowId] as they stand once the key has been looked at. *)
Definition parseKey (message : message) : M (jsval * jsval * jsval) :=
  match key message with
  | Some b =>
      if (0 <? String.length (text b))%nat then
        try_catch
          (messageKey ← JSON_parse (Some b);
           tbl ← get messageKey "tbl";
           table ← get messageKey "table";
           rid ← get messageKey "rid";
           rowid ← get messageKey "rowid";
           mret (messageKey,
                 js_or tbl (js_or table (JStr "unknown")),
                 js_or rid (js_or rowid JNull)))
          (mret (JStr (text b), JStr "unknown", JNull))
      else mret (JNull, JStr "unknown", JNull)
  | None => mret (JNull, JStr "unknown", JNull)
  end.

(** The second block: parse the value and test for the simple protocol;
    the [catch] logs, counts the message and returns ([None]). *)
Definition parseValue (message : message) : M (option (jsval * bool)) :=
  try_catch
    (payload ← JSON_parse (value message);
     schema ← get payload "schema";
     if truthy schema then
       table ← get payload "table";
       if truthy table then
         type ← get payload "type";
         mret (Some (payload, negb (strict_equals false type JUndefined)))
       else mret (Some (payload, false))
     else mret (Some (payload, false)))
    (emit (logger_warn "Received non-JSON message"
             (JObj [("keyPresent", JBool (bool_decide (is_Some (key message))));
                    ("partition", partition message);
                    ("offset", offset message)]));;
     emit kafkaMessagesTotal_inc;;
     timer (JStr "unknown") (JStr "parse_error");;
     mret None).

(** The two statements after the [if (isSimpleProtocol) ... else ...]. *)
Definition finish (tableName payload_type : jsval) : M unit :=
  emit kafkaMessagesTotal_inc;;
  timer tableName (js_or payload_type (JStr "unknown")).

(** [type] 0, 1, 2 of the simple protocol. *)
Definition simple_operation (type : jsval) : string :=
  if is_num type 0 then "INSERT"
  else if is_num type 1 then "UPDATE"
  else if is_num type 2 then "DELETE"
  else "unknown".

(** The email heuristic of the simple-protocol branch. *)
Definition demo_reclassify (operationType : string) (data : jsval) : M string :=
  if String.eqb operationType "INSERT" then
    email ← get data "email";
    if truthy email then
      u ← call_includes email "updated_";
      if (u : bool) then mret "UPDATE"
      else
        m ← call_includes email "mass_update_";
        if (m : bool) then mret "UPDATE" else mret operationType
    else mret operationType
  else mret operationType.

Definition simpleProtocol (message : message) (messageKey tableName0 rowId payload : jsval)
    : M unit :=
  p_table ← get payload "table";
  let tableName := js_or p_table tableName0 in
  p_schema ← get payload "schema";
  let schemaName := js_or p_schema (JStr "unknown") in
  p_type ← get payload "type";
  let operationType := simple_operation p_type in
  p_data ← get payload "data";
  let data :=
    if String.eqb operationType "INSERT" && truthy p_data then p_data
    else if String.eqb operationType "UPDATE" && truthy p_data then p_data
    else if String.eqb operationType "DELETE" && truthy p_data then p_data
    else JObj [] in
  operationType ← demo_reclassify operationType data;
  counter_inc tableName (JStr (toLowerCase operationType));;
  now ← Date_now;
  p_old ← get payload "old";
  log_info "CDC Event"
    (JObj [("timestamp", JNum now);
           ("schema_name", schemaName);
           ("table_name", tableName);
           ("operation_type", JStr operationType);
           ("data", data);
           ("old_data", js_or p_old JNull);
           ("row_id", rowId);
           ("partition", partition message);
           ("offset", offset message);
           ("key", messageKey);
           ("protocol", JStr "simple")]);;
  finish tableName p_type.

(** WATERMARK and BOOTSTRAP. *)
Definition control (message : message) (messageKey payload p_type : jsval) : M unit :=
  label ← call_toLowerCase p_type;
  counter_inc (JStr "unknown") label;;
  now ← Date_now;
  log_info "CDC Event"
    (JObj [("timestamp", JNum now);
           ("table_name", JStr "unknown");
           ("operation_type", p_type);
           ("data", payload);
           ("offset", offset message);
           ("key", messageKey)]);;
  emit kafkaMessagesTotal_inc;;
  label' ← call_toLowerCase p_type;
  timer (JStr "unknown") label'.

(** A DELETE with an old image and a record id: remember it, arm the
    timeout, return without a CDC Event. *)
Definition trackDelete (message : message)
    (messageKey tableName payload commitTs p_old recordId : jsval) : M unit :=
  deleteKey ← template [tableName; JStr "_"; recordId];
  now ← Date_now;
  h ← next_timeout;
  recentDeletes_set deleteKey
    {| commitTs := commitTs; timestamp := now; data := p_old; armed := h |};;
  log_info "Tracking DELETE for potential UPDATE detection"
    (JObj [("table", tableName); ("recordId", recordId); ("commitTs", commitTs)]);;
  setTimeout {| f_deleteKey := deleteKey; f_commitTs := commitTs; f_handle := h;
                f_tableName := tableName; f_payload := payload;
                f_offset := offset message; f_messageKey := messageKey;
                f_due := now + correlation_window |};;
  emit kafkaMessagesTotal_inc;;
  timer tableName (JStr "delete").

(** The lookup an INSERT makes: the pending delete of the same key whose
    [commitTs] is [===] to the INSERT's, if any. The INSERT's value was
    parsed by this delivery, the stored one by an earlier one: they are
    never the same reference. *)
Definition matchingDelete (tableName commitTs recordId : jsval)
    : M (option (string * pending)) :=
  if negb (strict_equals false recordId JNull) then
    deleteKey ← template [tableName; JStr "_"; recordId];
    found ← recentDeletes_get deleteKey;
    match found with
    | Some ({| commitTs := stored |} as deleteInfo) =>
        if strict_equals false stored commitTs
        then mret (Some (deleteKey, deleteInfo))
        else mret None
    | None => mret None
    end
  else mret None.

Definition handleInsert (message : message)
    (messageKey tableName commitTs p_data : jsval) : M unit :=
  let recordId := extractRecordId p_data in
  matched ← matchingDelete tableName commitTs recordId;
  match matched with
  | Some (deleteKey, deleteInfo) =>
      recentDeletes_delete deleteKey;;
      log_info "Detected UPDATE operation"
        (JObj [("table", tableName); ("recordId", recordId);
               ("commitTs", commitTs);
               ("oldData", data deleteInfo); ("newData", p_data)]);;
      counter_inc tableName (JStr "update");;
      now ← Date_now;
      log_info "CDC Event"
        (JObj [("timestamp", JNum now);
               ("table_name", tableName);
               ("operation_type", JStr "UPDATE");
               ("oldData", data deleteInfo);
               ("newData", p_data);
               ("offset", offset message);
               ("key", messageKey)]);;
      emit kafkaMessagesTotal_inc;;
      timer tableName (JStr "update")
  | None =>
      counter_inc tableName (JStr "insert");;
      now ← Date_now;
      log_info "CDC Event"
        (JObj [("timestamp", JNum now);
               ("table_name", tableName);
               ("operation_type", JStr "INSERT");
               ("data", p_data);
               ("offset", offset message);
               ("key", messageKey)]);;
      emit kafkaMessagesTotal_inc;;
      timer tableName (JStr "insert")
  end.

(** "Handle other operations". *)
Definition handleOther (message : message)
    (messageKey tableName operationType payload p_type : jsval) : M unit :=
  label ← call_toLowerCase operationType;
  counter_inc tableName label;;
  now ← Date_now;
  log_info "CDC Event"
    (JObj [("timestamp", JNum now);
           ("table_name", tableName);
           ("operation_type", operationType);
           ("data", payload);
           ("partition", partition message);
           ("offset", offset message);
           ("key", messageKey)]);;
  finish tableName p_type.

(** The [else] branch of [if (isSimpleProtocol)]. *)
Definition splitUpdate (message : message) (messageKey tableName0 payload : jsval)
    : M unit :=
  p_type ← get payload "type";
  if is_str p_type "WATERMARK" || is_str p_type "BOOTSTRAP" then
    control message messageKey payload p_type
  else
    p_table ← get payload "table";
    let tableName := js_or p_table tableName0 in
    let operationType := js_or p_type (JStr "unknown") in
    commitTs ← get payload "commitTs";
    p_old ← get payload "old";
    if is_str operationType "DELETE" && truthy p_old
       && negb (strict_equals false (extractRecordId p_old) JNull)
    then trackDelete message messageKey tableName payload commitTs p_old
           (extractRecordId p_old)
    else
      p_data ← get payload "data";
      if is_str operationType "INSERT" && truthy p_data
      then handleInsert message messageKey tableName commitTs p_data
      else handleOther message messageKey tableName operationType payload p_type.

Definition processCDCMessage (message : message) : M unit :=
  try_catch
    ('(messageKey, tableName, rowId) ← parseKey message;
     parsed ← parseValue message;
     match parsed with
     | None => mret tt
     | Some (payload, isSimpleProtocol) =>
         if (isSimpleProtocol : bool)
         then simpleProtocol message messageKey tableName rowId payload
         else splitUpdate message messageKey tableName payload
     end)
    (emit (logger_error "Error processing CDC message:");;
     emit kafkaErrorsTotal_inc;;
     timer (JStr "error") (JStr "error")).

(** The callback of the [setTimeout] armed by [trackDelete]. The stored
    [commitTs] is the very object the closure captured exactly when the
    entry was written by the delivery that armed this timeout. *)
Definition finalize_callback (t : finalize) : M unit :=
  found ← recentDeletes_get (f_deleteKey t);
  match found with
  | Some deleteInfo =>
      if strict_equals (Nat.eqb (armed deleteInfo) (f_handle t))
           (commitTs deleteInfo) (f_commitTs t)
      then
        counter_inc (f_tableName t) (JStr "delete");;
        now ← Date_now;
        log_info "CDC Event"
          (JObj [("timestamp", JNum now);
                 ("table_name", f_tableName t);
                 ("operation_type", JStr "DELETE");
                 ("data", f_payload t);
                 ("offset", f_offset t);
                 ("key", f_messageKey t)]);;
        recentDeletes_delete (f_deleteKey t)
      else mret tt
  | None => mret tt
  end.

(** The callback of the [setInterval] of the constructor: the loop over
    [this.recentDeletes.entries()]. *)
Definition sweep_entry (now : Z) (kv : string * pending)
    (m : gmap string pending) : gmap string pending :=
  if now - timestamp kv.2 >? staleness_threshold then delete kv.1 m else m.

Definition sweep : M unit := fun s =>
  let now := clock s in
  (with_recentDeletes
     (fun m => foldr (sweep_entry now) m (map_to_list m)) s, Some tt).

(** *** The event loop *)

(** What the Node event loop can run next: the [eachMessage] handler on
    a delivered message, a due timeout, the due interval; and time can
    pass. Each runs to completion ([processCDCMessage] has no [await]).
    A timer never runs before it is due; it may run late. An exception
    that leaves the callback of a timeout is caught by nobody: the
    process dies, and there is no next state. *)
Inductive label : Type :=
| Deliver (m : message)
| Timeout (handle : nat)
| Interval
| Elapse (dt : Z).

Definition run {A : Type} (c : M A) (s : consumer) : consumer := (c s).1.

Definition deliver (m : message) (s : consumer) : consumer :=
  run (processCDCMessage m) s.

Definition fire (handle : nat) (t : finalize) (s : consumer) : option consumer :=
  match finalize_callback t
          {| recentDeletes := recentDeletes s; timeouts := delete handle (timeouts s);
             next_handle := next_handle s; interval_due := interval_due s;
             clock := clock s; out := out s |} with
  | (s', Some _) => Some s'
  | (_, None) => None
  end.

Definition tick (s : consumer) : consumer :=
  run sweep
    {| recentDeletes := recentDeletes s; timeouts := timeouts s;
       next_handle := next_handle s; interval_due := clock s + sweep_period;
       clock := clock s; out := out s |}.

Definition elapsed (dt : Z) (s : consumer) : consumer :=
  {| recentDeletes := recentDeletes s; timeouts := timeouts s;
     next_handle := next_handle s; interval_due := interval_due s;
     clock := clock s + dt; out := out s |}.

Definition step (l : label) (s : consumer) : option consumer :=
  match l with
  | Deliver m => Some (deliver m s)
  | Timeout handle =>
      match timeouts s !! handle with
      | Some t => if f_due t <=? clock s then fire handle t s else None
      | None => None
      end
  | Interval => if interval_due s <=? clock s then Some (tick s) else None
  | Elapse dt => if 0 <=? dt then Some (elapsed dt s) else None
  end.

Fixpoint steps (ls : list label) (s : consumer) : option consumer :=
  match ls with
  | [] => Some s
  | l :: ls' => match step l s with Some s' => steps ls' s' | None => None end
  end.

(** [new TiDBCDCConsumer()] at time [now]. *)
Definition constructor (now : Z) : consumer :=
  {| recentDeletes := ∅; timeouts := ∅; next_handle := 0%nat;
     interval_due := now + sweep_period; clock := now; out := [] |}.

(** *** Pure readings of the first two blocks, used in the statements *)

(** What [parseKey] leaves in [messageKey], [tableName] and [rowId]. *)
Definition keyInfo (m : message) : jsval * jsval * jsval :=
  match key m with
  | Some b =>
      if (0 <? String.length (text b))%nat then
        match json b with
        | Some mk =>
            if nullish mk then (JStr (text b), JStr "unknown", JNull)
            else (mk, js_or (prop mk "tbl") (js_or (prop mk "table") (JStr "unknown")),
                  js_or (prop mk "rid") (js_or (prop mk "rowid") JNull))
        | None => (JStr (text b), JStr "unknown", JNull)
        end
      else (JNull, JStr "unknown", JNull)
  | None => (JNull, JStr "unknown", JNull)
  end.

Definition messageKey_of (m : message) : jsval := (keyInfo m).1.1.
Definition key_tableName (m : message) : jsval := (keyInfo m).1.2.
Definition key_rowId (m : message) : jsval := (keyInfo m).2.

(** The test [payload.schema && payload.table && payload.type !== undefined]. *)
Definition isSimple (p : jsval) : bool :=
  truthy (prop p "schema") && truthy (prop p "table")
  && negb (strict_equals false (prop p "type") JUndefined).

(** [payload.table || tableName]. *)
Definition tableName_of (m : message) (p : jsval) : jsval :=
  js_or (prop p "table") (key_tableName m).

(** The key of [this.recentDeletes]: the template [tableName_recordId]. *)
Definition deleteKey_of (tableName recordId : jsval) : option string :=
  interpolate [tableName; JStr "_"; recordId].

(** The [data] of the simple-protocol branch: [payload.data] when the
    operation is one of the three and the field is truthy, else [{}]. *)
Definition simple_data (p : jsval) : jsval :=
  let operationType := simple_operation (prop p "type") in
  if String.eqb operationType "INSERT" && truthy (prop p "data") then prop p "data"
  else if String.eqb operationType "UPDATE" && truthy (prop p "data") then prop p "data"
  else if String.eqb operationType "DELETE" && truthy (prop p "data") then prop p "data"
  else JObj [].

(** What [x.includes(lit)] returns, [None] when the call throws. *)
Definition includes_result (x : jsval) (lit : string) : option bool :=
  match x with
  | JStr s => Some (includes s lit)
  | JArr items => Some (existsb (fun v => is_str v lit) items)
  | _ => None
  end.

(** The operation after the email heuristic, [None] when the test
    throws (a truthy [email] that is neither a string nor an array). *)
Definition reclassified (operationType : string) (data : jsval) : option string :=
  if String.eqb operationType "INSERT" then
    if truthy (prop data "email") then
      match includes_result (prop data "email") "updated_",
            includes_result (prop data "email") "mass_update_" with
      | Some u, Some m => Some (if u || m then "UPDATE" else operationType)
      | _, _ => None
      end
    else Some operationType
  else Some operationType.

(** The CDC Event record of the simple-protocol branch. *)
Definition simple_event (now : Z) (m : message) (p : jsval) (operationType : string)
    : jsval :=
  JObj [("timestamp", JNum now);
        ("schema_name", js_or (prop p "schema") (JStr "unknown"));
        ("table_name", tableName_of m p);
        ("operation_type", JStr operationType);
        ("data", simple_data p);
        ("old_data", js_or (prop p "old") JNull);
        ("row_id", key_rowId m);
        ("partition", partition m);
        ("offset", offset m);
        ("key", messageKey_of m);
        ("protocol", JStr "simple")].

(** The CDC Event records of the correlation branch. *)
Definition update_event (now : Z) (tableName oldData newData offset key : jsval) : jsval :=
  JObj [("timestamp", JNum now); ("table_name", tableName);
        ("operation_type", JStr "UPDATE"); ("oldData", oldData);
        ("newData", newData); ("offset", offset); ("key", key)].

Definition insert_event (now : Z) (tableName data offset key : jsval) : jsval :=
  JObj [("timestamp", JNum now); ("table_name", tableName);
        ("operation_type", JStr "INSERT"); ("data", data);
        ("offset", offset); ("key", key)].

Definition delete_event (now : Z) (t : finalize) : jsval :=
  JObj [("timestamp", JNum now); ("table_name", f_tableName t);
        ("operation_type", JStr "DELETE"); ("data", f_payload t);
        ("offset", f_offset t); ("key", f_messageKey t)].

Definition other_event (now : Z) (m : message) (tableName operationType payload : jsval)
    : jsval :=
  JObj [("timestamp", JNum now); ("table_name", tableName);
        ("operation_type", operationType); ("data", payload);
        ("partition", partition m); ("offset", offset m);
        ("key", messageKey_of m)].

(** The entry and the closure a tracked DELETE leaves behind. *)
Definition pending_of (s : consumer) (p : jsval) : pending :=
  {| commitTs := prop p "commitTs"; timestamp := clock s;
     data := prop p "old"; armed := next_handle s |}.

Definition finalize_of (s : consumer) (m : message) (p : jsval) (k : string) : finalize :=
  {| f_deleteKey := k; f_commitTs := prop p "commitTs";
     f_handle := next_handle s; f_tableName := tableName_of m p;
     f_payload := p; f_offset := offset m;
     f_messageKey := messageKey_of m;
     f_due := clock s + correlation_window |}.

(** A DELETE of the correlation branch that gets tracked under key [k]:
    not simple protocol, [type] DELETE, an old image, a record id that is
    not [null], and a key that can be written. *)
Definition tracked_delete (m : message) (p : jsval) (k : string) : Prop :=
  payload_of m = Some p /\
  isSimple p = false /\
  prop p "type" = JStr "DELETE" /\
  truthy (prop p "old") = true /\
  strict_equals false (extractRecordId (prop p "old")) JNull = false /\
  deleteKey_of (tableName_of m p) (extractRecordId (prop p "old")) = Some k.

(** An INSERT of the correlation branch with a row image. *)
Definition split_insert (m : message) (p : jsval) : Prop :=
  payload_of m = Some p /\
  isSimple p = false /\
  prop p "type" = JStr "INSERT" /\
  truthy (prop p "data") = true.

(** An INSERT that finds no pending delete to claim: no record id, or no
    entry under its key, or an entry whose [commitTs] differs. *)
Definition unmatched (s : consumer) (tableName recordId ts : jsval) : Prop :=
  strict_equals false recordId JNull = true \/
  exists k, deleteKey_of tableName recordId = Some k /\
    match recentDeletes s !! k with
    | Some e => strict_equals false (commitTs e) ts = false
    | None => True
    end.

(** The entry under the key of a finalize task is gone, or carries a
    [commitTs] that is not [===] to the one the task captured. *)
Definition lost (s : consumer) (t : finalize) : Prop :=
  match recentDeletes s !! f_deleteKey t with
  | Some e =>
      strict_equals (Nat.eqb (armed e) (f_handle t)) (commitTs e) (f_commitTs t) = false
  | None => True
  end.

(** The warning, the message count and the duration observation of the
    [catch] around [JSON.parse]. *)
Definition parse_failure_effects (m : message) : list effect :=
  [logger_warn "Received non-JSON message"
     (JObj [("keyPresent", JBool (bool_decide (is_Some (key m))));
            ("partition", partition m); ("offset", offset m)]);
   kafkaMessagesTotal_inc;
   cdcProcessingDuration_observe (JStr "unknown") (JStr "parse_error")].

(** The effects of the outer [catch]. *)
Definition error_effects : list effect :=
  [logger_error "Error processing CDC message:";
   kafkaErrorsTotal_inc;
   cdcProcessingDuration_observe (JStr "error") (JStr "error")].

(** Steps other than deliveries and other than the timeout [h]. *)
Definition quiet (h : nat) (l : label) : bool :=
  match l with
  | Deliver _ => false
  | Timeout h' => negb (Nat.eqb h' h)
  | Interval => true
  | Elapse _ => true
  end.

End Split.

(** What the two statements that end the [try] add, in each of the
    consumers: the consumed count and the duration; or, when a label of
    the duration has no string conversion, the consumed count and then,
    the timer having thrown, the effects of the [catch]. *)
Definition closing (tableName payload_type : jsval) : list effect :=
  if writable tableName && writable (js_or payload_type (JStr "unknown"))
  then [kafkaMessagesTotal_inc;
        cdcProcessingDuration_observe tableName (js_or payload_type (JStr "unknown"))]
  else kafkaMessagesTotal_inc :: Split.error_effects.

(** ** [src/consumer/index.js]: Canal-JSON arrays *)

Module Canal.

(** The email heuristic of the loop body:
    [row.email && (row.email.includes(..) || row.email.includes(..))]. *)
Definition demo_reclassify (operationType row : jsval) : M jsval :=
  if is_str operationType "INSERT" then
    email ← get row "email";
    if truthy email then
      u ← call_includes email "updated_";
      if (u : bool) then mret (JStr "UPDATE")
      else
        m ← call_includes email "mass_update_";
        if (m : bool) then mret (JStr "UPDATE") else mret operationType
    else mret operationType
  else mret operationType.

Definition message_key (message : message) : jsval :=
  match key message with
  | Some b => JStr (text b)
  | None => JNull
  end.

(** The body of [for (const row of payload.data)]. *)
Definition canalRow (message : message) (payload row : jsval) : M unit :=
  p_table ← get payload "table";
  let tableName := js_or p_table (JStr "unknown") in
  p_type ← get payload "type";
  operationType ← demo_reclassify (js_or p_type (JStr "unknown")) row;
  label ← call_toLowerCase operationType;
  counter_inc tableName label;;
  now ← Date_now;
  log_info "CDC Event"
    (JObj [("timestamp", JNum now);
           ("table_name", tableName);
           ("operation_type", operationType);
           ("data", row);
           ("partition", partition message);
           ("offset", offset message);
           ("key", message_key message)]).

Fixpoint for_of {A : Type} (body : A -> M unit) (l : list A) : M unit :=
  match l with
  | [] => mret tt
  | x :: r => body x;; for_of body r
  end.

(** "Handle other message formats". *)
Definition otherFormat (message : message) (payload : jsval) : M unit :=
  p_table ← get payload "table";
  let tableName := js_or p_table (JStr "unknown") in
  p_type ← get payload "type";
  p_op ← get payload "op";
  let operationType := js_or p_type (js_or p_op (JStr "unknown")) in
  label ← call_toLowerCase operationType;
  counter_inc tableName label;;
  now ← Date_now;
  log_info "CDC Event"
    (JObj [("timestamp", JNum now);
           ("table_name", tableName);
           ("operation_type", operationType);
           ("data", payload);
           ("partition", partition message);
           ("offset", offset message);
           ("key", message_key message)]).

Definition processCDCMessage (message : message) : M unit :=
  try_catch
    (payload ← JSON_parse (value message);
     log_info "Processing CDC message:" payload;;
     p_data ← get payload "data";
     (* payload.data && Array.isArray(payload.data): an array is truthy *)
     match p_data with
     | JArr rows => for_of (canalRow message payload) rows
     | _ => otherFormat message payload
     end;;
     emit kafkaMessagesTotal_inc;;
     p_table ← get payload "table";
     p_type ← get payload "type";
     timer (js_or p_table (JStr "unknown")) (js_or p_type (JStr "unknown")))
    (emit (logger_error "Error processing CDC message:");;
     emit kafkaErrorsTotal_inc;;
     timer (JStr "error") (JStr "error")).

Definition deliver (m : message) (s : consumer) : consumer :=
  (processCDCMessage m s).1.

(** *** Pure readings of the loop, used in the statements *)

(** The operation of one row: [payload.type || 'unknown'], turned into
    UPDATE by the email heuristic; [None] when the loop body throws on
    this row: a [null] row or an [email] without [includes] under an
    INSERT, or an operation that is not a string. *)
Definition row_operation (p row : jsval) : option string :=
  let operationType := js_or (prop p "type") (JStr "unknown") in
  match operationType with
  | JStr op =>
      if String.eqb op "INSERT" then
        if nullish row then None
        else if truthy (prop row "email") then
          match Split.includes_result (prop row "email") "updated_",
                Split.includes_result (prop row "email") "mass_update_" with
          | Some u, Some m => Some (if u || m then "UPDATE" else op)
          | _, _ => None
          end
        else Some op
      else Some op
  | _ => None
  end.

Definition row_event (now : Z) (m : message) (p : jsval) (op : string) (row : jsval)
    : jsval :=
  JObj [("timestamp", JNum now);
        ("table_name", js_or (prop p "table") (JStr "unknown"));
        ("operation_type", JStr op);
        ("data", row);
        ("partition", partition m);
        ("offset", offset m);
        ("key", message_key m)].

Definition row_effects (now : Z) (m : message) (p : jsval) (op : string) (row : jsval)
    : list effect :=
  [cdcEventsCounter_inc (js_or (prop p "table") (JStr "unknown")) (JStr (toLowerCase op));
   logger_info "CDC Event" (row_event now m p op row)].

(** The effects of the loop, and whether it ran to its end: it stops at
    the first row whose operation cannot be computed, and at the first
    row at all when the table has no string conversion (the counter
    throws). *)
Fixpoint loop_effects (now : Z) (m : message) (p : jsval) (rows : list jsval)
    : list effect * bool :=
  match rows with
  | [] => ([], true)
  | row :: rest =>
      match row_operation p row with
      | Some op =>
          if writable (js_or (prop p "table") (JStr "unknown")) then
            let '(es, completed) := loop_effects now m p rest in
            (row_effects now m p op row ++ es, completed)
          else ([], false)
      | None => ([], false)
      end
  end.

(** The CDC Event records of the loop. *)
Fixpoint loop_events (now : Z) (m : message) (p : jsval) (rows : list jsval)
    : list jsval :=
  match rows with
  | [] => []
  | row :: rest =>
      match row_operation p row with
      | Some op =>
          if writable (js_or (prop p "table") (JStr "unknown"))
          then row_event now m p op row :: loop_events now m p rest
          else []
      | None => []
      end
  end.

End Canal.

(** ** [src/unnamed/part_000]: the simple protocol in front of the loop *)

Module Combined.

(** The body of [for (const row of payload.data)]. [tableName] is the
    variable of the enclosing function, assigned again at every turn;
    the turn returns its new value. *)
Definition canalRow (message : message) (messageKey payload : jsval)
    (tableName row : jsval) : M jsval :=
  p_table ← get payload "table";
  let tableName := js_or p_table tableName in
  p_type ← get payload "type";
  operationType ← Canal.demo_reclassify (js_or p_type (JStr "unknown")) row;
  label ← call_toLowerCase operationType;
  counter_inc tableName label;;
  now ← Date_now;
  log_info "CDC Event"
    (JObj [("timestamp", JNum now);
           ("table_name", tableName);
           ("operation_type", operationType);
           ("data", row);
           ("partition", partition message);
           ("offset", offset message);
           ("key", messageKey);
           ("protocol", JStr "canal-json")]);;
  mret tableName.

Fixpoint for_of (body : jsval -> jsval -> M jsval) (tableName : jsval)
    (rows : list jsval) : M jsval :=
  match rows with
  | [] => mret tableName
  | row :: rest => tableName' ← body tableName row; for_of body tableName' rest
  end.

(** "Handle other message formats". *)
Definition otherFormat (message : message) (messageKey payload tableName : jsval)
    : M jsval :=
  p_table ← get payload "table";
  let tableName := js_or p_table tableName in
  p_type ← get payload "type";
  p_op ← get payload "op";
  let operationType := js_or p_type (js_or p_op (JStr "unknown")) in
  label ← call_toLowerCase operationType;
  counter_inc tableName label;;
  now ← Date_now;
  log_info "CDC Event"
    (JObj [("timestamp", JNum now);
           ("table_name", tableName);
           ("operation_type", operationType);
           ("data", payload);
           ("partition", partition message);
           ("offset", offset message);
           ("key", messageKey);
           ("protocol", JStr "unknown")]);;
  mret tableName.

(** The [else] branch of [if (isSimpleProtocol)], and the two statements
    that follow it. *)
Definition canalJson (message : message) (messageKey tableName payload : jsval)
    : M unit :=
  p_data ← get payload "data";
  (* payload.data && Array.isArray(payload.data): an array is truthy *)
  tableName ← match p_data with
              | JArr rows => for_of (canalRow message messageKey payload) tableName rows
              | _ => otherFormat message messageKey payload tableName
              end;
  p_type ← get payload "type";
  Split.finish tableName p_type.

(** The first two blocks and the simple-protocol branch are, to the
    letter, those of [part_001]. *)
Definition processCDCMessage (message : message) : M unit :=
  try_catch
    ('(messageKey, tableName, rowId) ← Split.parseKey message;
     parsed ← Split.parseValue message;
     match parsed with
     | None => mret tt
     | Some (payload, isSimpleProtocol) =>
         if (isSimpleProtocol : bool)
         then Split.simpleProtocol message messageKey tableName rowId payload
         else canalJson message messageKey tableName payload
     end)
    (emit (logger_error "Error processing CDC message:");;
     emit kafkaErrorsTotal_inc;;
     timer (JStr "error") (JStr "error")).

Definition deliver (m : message) (s : consumer) : consumer :=
  (processCDCMessage m s).1.

(** *** Pure readings of the loop, used in the statements *)

Definition row_event (now : Z) (m : message) (p : jsval) (op : string) (row : jsval)
    : jsval :=
  JObj [("timestamp", JNum now);
        ("table_name", Split.tableName_of m p);
        ("operation_type", JStr op);
        ("data", row);
        ("partition", partition m);
        ("offset", offset m);
        ("key", Split.messageKey_of m);
        ("protocol", JStr "canal-json")].

Definition row_effects (now : Z) (m : message) (p : jsval) (op : string) (row : jsval)
    : list effect :=
  [cdcEventsCounter_inc (Split.tableName_of m p) (JStr (toLowerCase op));
   logger_info "CDC Event" (row_event now m p op row)].

(** The effects of the loop, and whether it ran to its end. *)
Fixpoint loop_effects (now : Z) (m : message) (p : jsval) (rows : list jsval)
    : list effect * bool :=
  match rows with
  | [] => ([], true)
  | row :: rest =>
      match Canal.row_operation p row with
      | Some op =>
          if writable (Split.tableName_of m p) then
            let '(es, completed) := loop_effects now m p rest in
            (row_effects now m p op row ++ es, completed)
          else ([], false)
      | None => ([], false)
      end
  end.

(** The CDC Event records of the loop. *)
Fixpoint loop_events (now : Z) (m : message) (p : jsval) (rows : list jsval)
    : list jsval :=
  match rows with
  | [] => []
  | row :: rest =>
      match Canal.row_operation p row with
      | Some op =>
          if writable (Split.tableName_of m p)
          then row_event now m p op row :: loop_events now m p rest
          else []
      | None => []
      end
  end.

End Combined.

(** ** One event per row *)



(** ** Framing *)

(** The pending deletes of [s'] are among those of [s], unchanged. *)
Definition shrinks (s s' : consumer) : Prop :=
  forall k e, recentDeletes s' !! k = Some e -> recentDeletes s !! k = Some e.

(** The same consumer with earlier effects [pre] in front of its own. *)
Definition prepend (pre : list effect) (s : consumer) : consumer :=
  with_out (fun o => pre ++ o) s.

(** A computation that never looks at the effects performed so far. *)
Definition oblivious {A : Type} (c : M A) : Prop :=
  forall pre s, c (prepend pre s) = (prepend pre (c s).1, (c s).2).

(** The effects of delivering [m] to [s], on their own. *)
Definition produced (m : message) (s : consumer) : list effect :=
  out (Split.deliver m (with_out (fun _ => []) s)).

(** ** Counting claims *)

(** The CDC Event record written when an INSERT claims a pending
    delete: the only one with a [newData] field. *)
Definition is_collapse (e : effect) : bool :=
  match e with
  | logger_info "CDC Event" (JObj l) => bool_decide (is_Some (field "newData" l))
  | _ => false
  end.

Fixpoint collapsed (o : list effect) : nat :=
  match o with
  | [] => 0%nat
  | e :: r => ((if is_collapse e then 1 else 0) + collapsed r)%nat
  end.


(** From [s] to [s']: every claim written in between, and every entry
    still pending, is paid for by a timeout armed in between or by an
    entry that was pending in [s]. *)
Definition paid (s s' : consumer) : Prop :=
  (next_handle s <= next_handle s')%nat /\
  (collapsed (out s') + size (recentDeletes s') + next_handle s
   <= collapsed (out s) + size (recentDeletes s) + next_handle s')%nat.

Definition respects {A : Type} (c : M A) : Prop := forall s, paid s (c s).1.

(** ** Concrete messages *)

Module Examples.

Definition buf (txt : string) (v : jsval) : option buffer :=
  Some {| text := txt; json := Some v |}.

(** The key [{tbl: users, rid: 7}] of the concrete scenario. *)
Definition users_key : option buffer :=
  buf "{tbl:users,rid:7}" (JObj [("tbl", JStr "users"); ("rid", JStr "7")]).

Definition old_image : jsval := JObj [("id", JNum 7); ("email", JStr "a@x.com")].
Definition new_image : jsval := JObj [("id", JNum 7); ("email", JStr "b@x.com")].

Definition delete_payload (ts : Z) : jsval :=
  JObj [("table", JStr "users"); ("type", JStr "DELETE");
        ("old", old_image); ("commitTs", JNum ts)].

Definition insert_payload (ts : Z) : jsval :=
  JObj [("table", JStr "users"); ("type", JStr "INSERT");
        ("data", new_image); ("commitTs", JNum ts)].

Definition msg (p : jsval) (off : Z) : message :=
  {| key := users_key; value := buf "{...}" p; partition := JNum 0; offset := JNum off |}.

Definition delete_7 : message := msg (delete_payload 100) 1.

Definition row_plain : jsval := JObj [("id", JNum 2); ("email", JStr "a@x.com")].



(** Simple-protocol messages. *)
Definition simple_payload (schema : jsval) (type : jsval) (row : jsval) : jsval :=
  JObj [("schema", schema); ("table", JStr "users"); ("type", type); ("data", row)].

Definition simple_marked : message :=
  msg (simple_payload (JStr "testdb") (JNum 0)
         (JObj [("id", JNum 42); ("email", JStr "updated_42@x.com")])) 5.

Definition simple_update : message :=
  msg (simple_payload (JStr "testdb") (JNum 1) row_plain) 6.

Definition empty_schema : message :=
  msg (simple_payload (JStr "") (JNum 0) row_plain) 7.

(** A payload of the correlation branch whose tag is a number, and one
    whose tag is an unknown string. *)
Definition numeric_tag : message :=
  msg (JObj [("table", JStr "users"); ("type", JNum 5)]) 8.

Definition truncate_tag : message :=
  msg (JObj [("table", JStr "users"); ("type", JStr "TRUNCATE")]) 8.

(** A value that is not JSON. *)
Definition malformed : message :=
  {| key := None; value := Some {| text := "{not json"; json := None |};
     partition := JNum 0; offset := JNum 9 |}.

(** A consumer holding one entry captured at time 0 and one at 26000,
    looked at when the interval is due at 30000. *)
Definition entry_at (t : Z) : pending :=
  {| commitTs := JNum t; timestamp := t; data := old_image; armed := 0%nat |}.

Definition at_sweep : consumer :=
  {| recentDeletes := <["users_7" := entry_at 0]> (<["users_8" := entry_at 26000]> ∅);
     timeouts := ∅; next_handle := 2%nat; interval_due := 30000;
     clock := 30000; out := [] |}.

End Examples.

(** * More of the consumers *)

(** ** The ways a delivery to [part_001] can go *)

(** The CDC Event record of a WATERMARK or BOOTSTRAP message. *)
Definition control_event (now : Z) (m : message) (p : jsval) : jsval :=
  JObj [("timestamp", JNum now); ("table_name", JStr "unknown");
        ("operation_type", prop p "type"); ("data", p);
        ("offset", offset m); ("key", Split.messageKey_of m)].

(** The test in front of the DELETE block, and the one in front of the
    INSERT block, on [operationType = payload.type || 'unknown']. *)
Definition delete_candidate (p : jsval) : bool :=
  is_str (js_or (prop p "type") (JStr "unknown")) "DELETE"
  && truthy (prop p "old")
  && negb (strict_equals false (Split.extractRecordId (prop p "old")) JNull).

Definition insert_candidate (p : jsval) : bool :=
  is_str (js_or (prop p "type") (JStr "unknown")) "INSERT" && truthy (prop p "data").

Definition is_control (p : jsval) : bool :=
  is_str (prop p "type") "WATERMARK" || is_str (prop p "type") "BOOTSTRAP".






(** One delivery to [part_001]: the state it leads to, branch by
    branch. [delivered_failed] lists the ways an exception reaches the
    outer [catch] before anything was written: the email test of the
    simple protocol throws, the key of a DELETE or of an INSERT cannot
    be written, an operation tag without [toLowerCase] reaches the last
    branch, or the events counter is given a table without a string
    conversion. In [delivered_simple] the timer can still throw, on a
    [type] without a string conversion, after the event was written:
    see [closing]. *)
Inductive delivered (m : message) (s : consumer) : consumer -> Prop :=
| delivered_unparsable :
    (payload_of m = None \/ exists p, payload_of m = Some p /\ nullish p = true) ->
    delivered m s (with_out (fun o => o ++ Split.parse_failure_effects m) s)
| delivered_failed p :
    payload_of m = Some p -> nullish p = false ->
    (Split.isSimple p = true /\
     (Split.reclassified (Split.simple_operation (prop p "type")) (Split.simple_data p) = None
      \/ writable (Split.tableName_of m p) = false))
    \/ (Split.isSimple p = false /\ is_control p = false /\ delete_candidate p = true /\
        Split.deleteKey_of (Split.tableName_of m p)
          (Split.extractRecordId (prop p "old")) = None)
    \/ (Split.isSimple p = false /\ is_control p = false /\ delete_candidate p = false /\
        insert_candidate p = true /\
        (writable (Split.tableName_of m p) = false \/
         (strict_equals false (Split.extractRecordId (prop p "data")) JNull = false /\
          Split.deleteKey_of (Split.tableName_of m p)
            (Split.extractRecordId (prop p "data")) = None)))
    \/ (Split.isSimple p = false /\ is_control p = false /\ delete_candidate p = false /\
        insert_candidate p = false /\
        ((forall tag, js_or (prop p "type") (JStr "unknown") <> JStr tag) \/
         writable (Split.tableName_of m p) = false)) ->
    delivered m s (with_out (fun o => o ++ Split.error_effects) s)
| delivered_simple p op :
    payload_of m = Some p -> Split.isSimple p = true ->
    Split.reclassified (Split.simple_operation (prop p "type")) (Split.simple_data p)
      = Some op ->
    writable (Split.tableName_of m p) = true ->
    delivered m s
      (with_out (fun o => o ++
         [cdcEventsCounter_inc (Split.tableName_of m p) (JStr (toLowerCase op));
          logger_info "CDC Event" (Split.simple_event (clock s) m p op)] ++
         closing (Split.tableName_of m p) (prop p "type")) s)
| delivered_control p tag :
    payload_of m = Some p -> Split.isSimple p = false ->
    prop p "type" = JStr tag -> tag = "WATERMARK" \/ tag = "BOOTSTRAP" ->
    delivered m s
      (with_out (fun o => o ++
         [cdcEventsCounter_inc (JStr "unknown") (JStr (toLowerCase tag));
          logger_info "CDC Event" (control_event (clock s) m p);
          kafkaMessagesTotal_inc;
          cdcProcessingDuration_observe (JStr "unknown") (JStr (toLowerCase tag))]) s)
| delivered_tracked p k :
    Split.tracked_delete m p k ->
    delivered m s
      {| recentDeletes := <[k := Split.pending_of s p]> (recentDeletes s);
         timeouts := <[next_handle s := Split.finalize_of s m p k]> (timeouts s);
         next_handle := S (next_handle s);
         interval_due := interval_due s;
         clock := clock s;
         out := out s ++
           [logger_info "Tracking DELETE for potential UPDATE detection"
              (JObj [("table", Split.tableName_of m p);
                     ("recordId", Split.extractRecordId (prop p "old"));
                     ("commitTs", prop p "commitTs")]);
            kafkaMessagesTotal_inc;
            cdcProcessingDuration_observe (Split.tableName_of m p) (JStr "delete")] |}
| delivered_update p k e :
    Split.split_insert m p ->
    strict_equals false (Split.extractRecordId (prop p "data")) JNull = false ->
    Split.deleteKey_of (Split.tableName_of m p) (Split.extractRecordId (prop p "data"))
      = Some k ->
    recentDeletes s !! k = Some e ->
    strict_equals false (commitTs e) (prop p "commitTs") = true ->
    delivered m s
      {| recentDeletes := delete k (recentDeletes s);
         timeouts := timeouts s;
         next_handle := next_handle s;
         interval_due := interval_due s;
         clock := clock s;
         out := out s ++
           [logger_info "Detected UPDATE operation"
              (JObj [("table", Split.tableName_of m p);
                     ("recordId", Split.extractRecordId (prop p "data"));
                     ("commitTs", prop p "commitTs");
                     ("oldData", data e); ("newData", prop p "data")]);
            cdcEventsCounter_inc (Split.tableName_of m p) (JStr "update");
            logger_info "CDC Event"
              (Split.update_event (clock s) (Split.tableName_of m p) (data e)
                 (prop p "data") (offset m) (Split.messageKey_of m));
            kafkaMessagesTotal_inc;
            cdcProcessingDuration_observe (Split.tableName_of m p) (JStr "update")] |}
| delivered_insert p :
    Split.split_insert m p ->
    Split.unmatched s (Split.tableName_of m p) (Split.extractRecordId (prop p "data"))
      (prop p "commitTs") ->
    writable (Split.tableName_of m p) = true ->
    delivered m s
      (with_out (fun o => o ++
         [cdcEventsCounter_inc (Split.tableName_of m p) (JStr "insert");
          logger_info "CDC Event"
            (Split.insert_event (clock s) (Split.tableName_of m p) (prop p "data")
               (offset m) (Split.messageKey_of m));
          kafkaMessagesTotal_inc;
          cdcProcessingDuration_observe (Split.tableName_of m p) (JStr "insert")]) s)
| delivered_other p tag :
    payload_of m = Some p -> nullish p = false -> Split.isSimple p = false ->
    is_control p = false -> delete_candidate p = false -> insert_candidate p = false ->
    js_or (prop p "type") (JStr "unknown") = JStr tag ->
    writable (Split.tableName_of m p) = true ->
    delivered m s
      (with_out (fun o => o ++
         [cdcEventsCounter_inc (Split.tableName_of m p) (JStr (toLowerCase tag));
          logger_info "CDC Event"
            (Split.other_event (clock s) m (Split.tableName_of m p) (JStr tag) p);
          kafkaMessagesTotal_inc;
          cdcProcessingDuration_observe (Split.tableName_of m p) (JStr tag)]) s).

(** ** Accounting *)

(** How many duration observations, increments of
    [kafka_messages_consumed_total] and increments of
    [kafka_errors_total] a list of effects holds. *)
Definition is_observation (e : effect) : bool :=
  match e with cdcProcessingDuration_observe _ _ => true | _ => false end.

Definition is_consumed (e : effect) : bool :=
  match e with kafkaMessagesTotal_inc => true | _ => false end.

Definition is_error (e : effect) : bool :=
  match e with kafkaErrorsTotal_inc => true | _ => false end.

Definition count (f : effect -> bool) (o : list effect) : nat :=
  length (List.filter f o).

(** The number of deliveries of a run. *)
Fixpoint deliveries (ls : list Split.label) : nat :=
  match ls with
  | [] => 0%nat
  | Split.Deliver _ :: r => S (deliveries r)
  | _ :: r => deliveries r
  end.

(** A message that is counted as consumed and then as an error too: a
    simple-protocol message whose event is written and whose [type] has
    no string conversion, so that the timer that ends the [try] throws
    after [kafkaMessagesTotal.inc()]. *)
Definition counted_twice (m : message) : bool :=
  match payload_of m with
  | Some p =>
      Split.isSimple p
      && match Split.reclassified (Split.simple_operation (prop p "type"))
                 (Split.simple_data p) with
         | Some _ => true
         | None => false
         end
      && writable (Split.tableName_of m p)
      && negb (writable (js_or (prop p "type") (JStr "unknown")))
  | None => false
  end.

Fixpoint twice (ls : list Split.label) : nat :=
  match ls with
  | [] => 0%nat
  | Split.Deliver m :: r => ((if counted_twice m then 1 else 0) + twice r)%nat
  | _ :: r => twice r
  end.


(** ** Entries and their timeouts *)

(** Every pending delete is backed by the timeout armed with it, still
    pending under the entry's handle, for the entry's key, [commitTs] and
    old image, due 500 ms after the entry's timestamp, and for a table
    with a string conversion (the key was written from it); and no
    timeout is pending under a handle not yet given out. *)
Definition backed (s : consumer) : Prop :=
  (forall k e, recentDeletes s !! k = Some e ->
     exists t, timeouts s !! armed e = Some t /\
               f_deleteKey t = k /\ f_handle t = armed e /\ f_commitTs t = commitTs e /\
               f_due t = timestamp e + Split.correlation_window /\
               data e = prop (f_payload t) "old" /\
               writable (f_tableName t) = true) /\
  (forall h t, timeouts s !! h = Some t -> (h < next_handle s)%nat).

(** Steps that only let time pass or run the sweep. *)
Definition idle (l : Split.label) : bool :=
  match l with
  | Split.Interval | Split.Elapse _ => true
  | _ => false
  end.

(** ** The shape of the emitted records *)

(** A CDC Event record with a truthy table name and a non-empty string
    as operation. *)
Definition well_formed (ev : jsval) : Prop :=
  truthy (prop ev "table_name") = true /\
  exists op, prop ev "operation_type" = JStr op /\ op <> "".

(** The records written so far are well formed, and so will be the
    record of every pending timeout. *)
Definition sound (s : consumer) : Prop :=
  Forall well_formed (cdc_events (out s)) /\
  forall h t, timeouts s !! h = Some t -> truthy (f_tableName t) = true.

(** ** The other two consumers *)

(** [payload.type || payload.op || 'unknown'], the operation of the
    branch for other formats in [index.js] and [part_000]. *)
Definition other_tag (p : jsval) : jsval :=
  js_or (prop p "type") (js_or (prop p "op") (JStr "unknown")).

Definition is_array (v : jsval) : bool :=
  match v with JArr _ => true | _ => false end.


(** The same in [part_000]. *)
Definition combined_other_event (now : Z) (m : message) (p : jsval) : jsval :=
  JObj [("timestamp", JNum now);
        ("table_name", Split.tableName_of m p);
        ("operation_type", other_tag p);
        ("data", p);
        ("partition", partition m);
        ("offset", offset m);
        ("key", Split.messageKey_of m);
        ("protocol", JStr "unknown")].




(** An increment of the events counter stands for a CDC Event record:
    it has the record's table and, where the record's operation is an
    ASCII string, that operation in lower case. *)
Definition counted (inc : jsval * jsval) (ev : jsval) : Prop :=
  inc.1 = prop ev "table_name" /\
  forall op, prop ev "operation_type" = JStr op -> ascii_only op = true ->
    inc.2 = JStr (toLowerCase op).

Definition tallied (o : list effect) : Prop :=
  Forall2 counted (counter_incs o) (cdc_events o).



(** ** Starting and stopping: [connectToDatabase], [start], [stop], [main] *)

(** These functions are the same text in [index.js], [part_000] and
    [part_001]. Every [await] is on a call into a library; whether the
    promise resolves or rejects is given by the [world]. What the
    program does is recorded in order in a trace. *)
Module Lifecycle.

Inductive outcome : Type := resolves | rejects.

Record world : Type := {
  mysql_createConnection : outcome;
  consumer_connect : outcome;
  consumer_subscribe : outcome;
  consumer_run : outcome;
  consumer_disconnect : outcome;
  dbConnection_end : outcome
}.

Inductive action : Type :=
| call (name : string)
| info (msg : string)
| error (msg : string)
| kafkaErrorsTotal_inc
| process_exit (code : Z).

(** [this.dbConnection] (present or [null]), [this.isRunning], the exit
    code once [process.exit] has been called, and the trace. *)
Record app : Type := {
  dbConnection : bool;
  isRunning : bool;
  exited : option Z;
  trace : list action
}.

(** [None] is a rejected promise, a thrown exception. *)
Definition L (A : Type) : Type := app -> app * option A.

#[global] Instance L_ret : MRet L := fun A a s => (s, Some a).
#[global] Instance L_bind : MBind L := fun A B f m s =>
  match m s with
  | (s', Some a) => f a s'
  | (s', None) => (s', None)
  end.

Definition reject {A : Type} : L A := fun s => (s, None).

Definition try_catch {A : Type} (body handler : L A) : L A := fun s =>
  match body s with
  | (s', Some a) => (s', Some a)
  | (s', None) => handler s'
  end.

Definition act (x : action) : L unit := fun s =>
  ({| dbConnection := dbConnection s; isRunning := isRunning s; exited := exited s;
      trace := trace s ++ [x] |}, Some tt).

Definition await (name : string) (o : outcome) : L unit :=
  act (call name);;
  match o with resolves => mret tt | rejects => reject end.

Definition set_dbConnection (b : bool) : L unit := fun s =>
  ({| dbConnection := b; isRunning := isRunning s; exited := exited s;
      trace := trace s |}, Some tt).

Definition set_isRunning (b : bool) : L unit := fun s =>
  ({| dbConnection := dbConnection s; isRunning := b; exited := exited s;
      trace := trace s |}, Some tt).

Definition get_dbConnection : L bool := fun s => (s, Some (dbConnection s)).

Definition exit (code : Z) : L unit := fun s =>
  ({| dbConnection := dbConnection s; isRunning := isRunning s; exited := Some code;
      trace := trace s ++ [process_exit code] |}, Some tt).

Definition connectToDatabase (w : world) : L bool :=
  try_catch
    (await "mysql.createConnection" (mysql_createConnection w);;
     set_dbConnection true;;
     act (info "Connected to TiDB database");;
     mret true)
    (act (error "Failed to connect to TiDB:");;
     mret false).

Definition start (w : world) : L unit :=
  try_catch
    (dbConnected ← connectToDatabase w;
     (if (dbConnected : bool) then mret tt else reject);;
     await "consumer.connect" (consumer_connect w);;
     act (info "Connected to Kafka");;
     await "consumer.subscribe" (consumer_subscribe w);;
     set_isRunning true;;
     await "consumer.run" (consumer_run w);;
     act (info "CDC Consumer started, listening to topic: tidb-cdc-events"))
    (act (error "Failed to start CDC consumer:");;
     act kafkaErrorsTotal_inc;;
     exit 1).

(** [this.consumer] is set by the constructor and is always truthy. *)
Definition stop (w : world) : L unit :=
  act (info "Stopping CDC Consumer...");;
  set_isRunning false;;
  await "consumer.disconnect" (consumer_disconnect w);;
  db ← get_dbConnection;
  (if (db : bool) then await "dbConnection.end" (dbConnection_end w) else mret tt);;
  act (info "CDC Consumer stopped").

(** The listener of SIGTERM and of SIGINT. *)
Definition on_signal (name : string) (w : world) : L unit :=
  act (info (String.append name " received, shutting down gracefully"));;
  stop w;;
  exit 0.

(** The listener of [unhandledRejection]. *)
Definition on_unhandledRejection : L unit :=
  act (error "Unhandled Rejection at:");;
  act kafkaErrorsTotal_inc.

(** A signal arrives: the listener is an async function nobody awaits,
    so a rejection of its promise goes to the [unhandledRejection]
    listener. *)
Definition signal (name : string) (w : world) (s : app) : app :=
  (try_catch (on_signal name w) on_unhandledRejection s).1.

(** A new [TiDBCDCConsumer]. *)
Definition created : app :=
  {| dbConnection := false; isRunning := false; exited := None; trace := [] |}.

Definition started (w : world) : app := (start w created).1.

Definition all_resolve (w : world) : bool :=
  match mysql_createConnection w, consumer_connect w, consumer_subscribe w, consumer_run w with
  | resolves, resolves, resolves, resolves => true
  | _, _, _, _ => false
  end.

Definition called (name : string) (s : app) : bool :=
  existsb (fun x => match x with call n => String.eqb n name | _ => false end) (trace s).

Definition errors_counted (s : app) : nat :=
  length (List.filter (fun x => match x with kafkaErrorsTotal_inc => true | _ => false end)
            (trace s)).

(** Worlds of the examples. *)
Definition calm : world :=
  {| mysql_createConnection := resolves; consumer_connect := resolves;
     consumer_subscribe := resolves; consumer_run := resolves;
     consumer_disconnect := resolves; dbConnection_end := resolves |}.

Definition no_database : world :=
  {| mysql_createConnection := rejects; consumer_connect := resolves;
     consumer_subscribe := resolves; consumer_run := resolves;
     consumer_disconnect := resolves; dbConnection_end := resolves |}.

Definition no_kafka : world :=
  {| mysql_createConnection := resolves; consumer_connect := rejects;
     consumer_subscribe := resolves; consumer_run := resolves;
     consumer_disconnect := rejects; dbConnection_end := resolves |}.

End Lifecycle.


(** ** More concrete messages *)

Module Cases.

(** A WATERMARK that names a table. *)
Definition watermark : message :=
  Examples.msg (JObj [("table", JStr "users"); ("type", JStr "WATERMARK");
                      ("ts", JNum 1)]) 10.

(** A DELETE whose old image has no id, username or email; one whose id
    is [null]; an INSERT whose [data] is [null]. *)
Definition anonymous_delete : message :=
  Examples.msg (JObj [("table", JStr "users"); ("type", JStr "DELETE");
                      ("old", JObj [("name", JStr "x")]); ("commitTs", JNum 1)]) 11.

Definition null_id_delete : message :=
  Examples.msg (JObj [("table", JStr "users"); ("type", JStr "DELETE");
                      ("old", JObj [("id", JNull); ("username", JStr "bob")]);
                      ("commitTs", JNum 1)]) 12.

Definition empty_insert : message :=
  Examples.msg (JObj [("table", JStr "users"); ("type", JStr "INSERT");
                      ("data", JNull); ("commitTs", JNum 1)]) 13.

(** A DELETE whose id is an object with a [toString] field. *)
Definition unwritable_payload (type image : string) : jsval :=
  JObj [("table", JStr "users"); ("type", JStr type);
        (image, JObj [("id", JObj [("toString", JNum 0)])]); ("commitTs", JNum 1)].

Definition unwritable_delete : message := Examples.msg (unwritable_payload "DELETE" "old") 14.
Definition unwritable_insert : message := Examples.msg (unwritable_payload "INSERT" "data") 15.




(** The INSERT of record 7 under another [commitTs]. *)
Definition insert_7_other_ts : message := Examples.msg (Examples.insert_payload 101) 18.

(** A simple-protocol INSERT whose email is a number. *)
Definition simple_numeric_email : message :=
  Examples.msg (Examples.simple_payload (JStr "testdb") (JNum 0)
                  (JObj [("id", JNum 1); ("email", JNum 5)])) 19.

(** A simple-protocol DELETE (type 2). *)
Definition simple_delete : message :=
  Examples.msg (Examples.simple_payload (JStr "testdb") (JNum 2) Examples.old_image) 20.

(** A message whose key names the table under [table] and the row under
    [rowid], with a payload that names no table; and one whose key is
    plain text. *)
Definition keyed : message :=
  {| key := Examples.buf "{table:orders,rowid:3}"
              (JObj [("table", JStr "orders"); ("rowid", JNum 3)]);
     value := Examples.buf "{...}" (JObj [("type", JStr "TRUNCATE")]);
     partition := JNum 0; offset := JNum 21 |}.

Definition text_keyed : message :=
  {| key := Some {| text := "orders-3"; json := None |};
     value := Examples.buf "{...}" (JObj [("type", JStr "TRUNCATE")]);
     partition := JNum 0; offset := JNum 22 |}.




Definition null_value : message :=
  {| key := None; value := Examples.buf "null" JNull; partition := JNum 0; offset := JNum 26 |}.


(** Messages that name a table without a string conversion: an object
    with a [toString] field of its own that is not a function. *)
Definition no_string : jsval := JObj [("toString", JNum 0)].

(** A simple-protocol message whose [type] has no string conversion. *)
Definition simple_untyped : message :=
  Examples.msg (Examples.simple_payload (JStr "testdb") no_string
                  (JObj [("id", JNum 1)])) 29.



End Cases.

(** * Facts about the JavaScript layer *)

Example toString_num : toString (JNum 42) = Some "42".
Proof. reflexivity. Qed.

Example toString_arr :
  toString (JArr [JNum 1; JNull; JStr "a"; JArr [JBool true; JNum 2]]) = Some "1,,a,true,2".
Proof. reflexivity. Qed.

Example toString_shadowed : toString (JObj [("toString", JNum 0)]) = None.
Proof. reflexivity. Qed.

Example includes_ex : includes "updated_42@x.com" "updated_" = true
                      /\ includes "a@x.com" "updated_" = false.
Proof. split; reflexivity. Qed.

Example toLowerCase_ex : toLowerCase "INSERT" = "insert".
Proof. reflexivity. Qed.


(** * Facts about the consumers *)

(** ** Evaluating the handlers *)

Ltac munfold :=
  repeat (progress
    (unfold mbind, mret, M_bind, M_ret, try_catch, throw, get, emit, Date_now,
       next_timeout, JSON_parse, template, call_toLowerCase,
       Split.recentDeletes_get, Split.recentDeletes_set,
       Split.recentDeletes_delete, Split.setTimeout, Split.finish;
     cbn beta iota zeta)).

Ltac out_norm :=
  unfold with_out, with_recentDeletes; cbn; rewrite <- ?app_assoc; cbn.

(** The calls into prom-client and winston, where they do not throw and
    where they do. *)
#[global] Arguments counter_inc : simpl never.
#[global] Arguments timer : simpl never.
#[global] Arguments log_info : simpl never.
#[global] Arguments writable : simpl never.

Lemma counter_inc_ok t op :
  writable t = true -> writable op = true ->
  counter_inc t op = emit (cdcEventsCounter_inc t op).
Proof. intros Ht Hop. unfold counter_inc. rewrite Ht, Hop. reflexivity. Qed.

Lemma counter_inc_fail t op : writable t = false -> counter_inc t op = throw.
Proof. intros Ht. unfold counter_inc. rewrite Ht. reflexivity. Qed.

Lemma timer_ok t op :
  writable t = true -> writable op = true ->
  timer t op = emit (cdcProcessingDuration_observe t op).
Proof. intros Ht Hop. unfold timer. rewrite Ht, Hop. reflexivity. Qed.

Lemma timer_fail t op :
  writable t = false \/ writable op = false -> timer t op = throw.
Proof.
  intros H. unfold timer. destruct H as [-> | ->]; [reflexivity|].
  rewrite andb_false_r. reflexivity.
Qed.


Lemma log_info_ok msg meta :
  writable (prop meta "message") = true -> log_info msg meta = emit (logger_info msg meta).
Proof. intros H. unfold log_info. rewrite H, andb_false_r. reflexivity. Qed.


Lemma writable_str s : writable (JStr s) = true.
Proof. reflexivity. Qed.

(** A key that can be written has a table that can be written. *)
Lemma deleteKey_writable t r k : Split.deleteKey_of t r = Some k -> writable t = true.
Proof.
  unfold Split.deleteKey_of, interpolate, writable. cbn [foldr].
  destruct (toString t); [reflexivity | discriminate].
Qed.

Ltac lib_ok :=
  rewrite ?counter_inc_ok, ?timer_ok, ?log_info_ok by (reflexivity || assumption).

Ltac mrun := repeat (munfold; progress lib_ok); munfold.

(** The end of the [try]: [finish] appends [closing]. *)
Lemma finish_run t ty s :
  (try_catch (Split.finish t ty)
     (emit (logger_error "Error processing CDC message:");;
      emit kafkaErrorsTotal_inc;;
      timer (JStr "error") (JStr "error")) s)
  = (with_out (fun o => o ++ closing t ty) s, Some tt).
Proof.
  unfold closing, Split.finish, try_catch.
  destruct (writable t && writable (js_or ty (JStr "unknown"))) eqn:Hw.
  - apply andb_prop in Hw as [Hw1 Hw2]. mrun. out_norm. reflexivity.
  - unfold mbind at 1, M_bind at 1. unfold emit at 1.
    unfold timer at 1. cbn [with_out]. rewrite Hw. mrun. out_norm. reflexivity.
Qed.

Lemma prop_nullish p k : prop p k <> JUndefined -> nullish p = false.
Proof. destruct p; cbn; congruence. Qed.

Lemma truthy_not_nullish v : truthy v = true -> nullish v = false.
Proof. destruct v; cbn; congruence. Qed.

Lemma parseKey_pure m s : Split.parseKey m s = (s, Some (Split.keyInfo m)).
Proof.
  unfold Split.parseKey, Split.keyInfo.
  destruct (key m) as [[t j]|]; [|reflexivity].
  cbn [text json]. destruct (0 <? String.length t)%nat; [|reflexivity].
  munfold. destruct j as [mk|]; [|reflexivity].
  destruct (nullish mk); reflexivity.
Qed.

Lemma parseValue_ok m s p :
  payload_of m = Some p -> nullish p = false ->
  Split.parseValue m s = (s, Some (Some (p, Split.isSimple p))).
Proof.
  unfold payload_of, Split.parseValue, Split.isSimple. intros Hp Hn.
  destruct (value m) as [[t [v|]]|]; try discriminate. injection Hp as ->.
  munfold. rewrite Hn. cbn.
  destruct (truthy (prop p "schema")); cbn; [|reflexivity].
  destruct (truthy (prop p "table")); reflexivity.
Qed.

Lemma parseValue_fail m s :
  payload_of m = None ->
  Split.parseValue m s =
    (with_out (fun o => o ++ Split.parse_failure_effects m) s, Some None).
Proof.
  intros H. unfold payload_of in H. unfold Split.parseValue. mrun.
  destruct (value m) as [[t [v|]]|]; try discriminate;
    out_norm; reflexivity.
Qed.

(** Entering [processCDCMessage] with a parsed, non-null payload. *)
Lemma processCDCMessage_parsed m s p :
  payload_of m = Some p -> nullish p = false ->
  Split.processCDCMessage m s =
    try_catch
      (if Split.isSimple p
       then Split.simpleProtocol m (Split.messageKey_of m) (Split.key_tableName m)
              (Split.key_rowId m) p
       else Split.splitUpdate m (Split.messageKey_of m) (Split.key_tableName m) p)
      (emit (logger_error "Error processing CDC message:");;
       emit kafkaErrorsTotal_inc;;
       timer (JStr "error") (JStr "error")) s.
Proof.
  intros Hp Hn. unfold Split.processCDCMessage, try_catch.
  unfold mbind at 1, M_bind at 1.
  rewrite parseKey_pure.
  unfold Split.messageKey_of, Split.key_tableName, Split.key_rowId.
  destruct (Split.keyInfo m) as [[mk tn] rid]. cbn [fst snd].
  unfold mbind at 1, M_bind at 1. rewrite (parseValue_ok _ _ p Hp Hn).
  reflexivity.
Qed.

Lemma deliver_tracked_delete m s p k :
  payload_of m = Some p ->
  Split.isSimple p = false ->
  prop p "type" = JStr "DELETE" ->
  truthy (prop p "old") = true ->
  strict_equals false (Split.extractRecordId (prop p "old")) JNull = false ->
  Split.deleteKey_of (Split.tableName_of m p) (Split.extractRecordId (prop p "old")) = Some k ->
  Split.deliver m s =
    {| recentDeletes := <[k := Split.pending_of s p]> (recentDeletes s);
       timeouts := <[next_handle s := Split.finalize_of s m p k]> (timeouts s);
       next_handle := S (next_handle s);
       interval_due := interval_due s;
       clock := clock s;
       out := out s ++
         [logger_info "Tracking DELETE for potential UPDATE detection"
            (JObj [("table", Split.tableName_of m p);
                   ("recordId", Split.extractRecordId (prop p "old"));
                   ("commitTs", prop p "commitTs")]);
          kafkaMessagesTotal_inc;
          cdcProcessingDuration_observe (Split.tableName_of m p) (JStr "delete")] |}.
Proof.
  intros Hp Hs Ht Hold Hrid Hk.
  assert (Hn : nullish p = false) by (apply (prop_nullish p "type"); rewrite Ht; discriminate).
  unfold Split.deliver, Split.run.
  rewrite (processCDCMessage_parsed _ _ p Hp Hn), Hs.
  unfold Split.splitUpdate. munfold. rewrite Hn. cbn.
  rewrite Ht. cbn.
  pose proof (deleteKey_writable _ _ _ Hk) as Hw.
  unfold Split.trackDelete. rewrite Hold, Hrid. cbn. munfold.
  unfold Split.deleteKey_of, Split.tableName_of in Hk, Hw. rewrite Hk. cbn.
  mrun. out_norm. reflexivity.
Qed.

Lemma deliver_insert_matched m s p k e :
  payload_of m = Some p ->
  Split.isSimple p = false ->
  prop p "type" = JStr "INSERT" ->
  truthy (prop p "data") = true ->
  strict_equals false (Split.extractRecordId (prop p "data")) JNull = false ->
  Split.deleteKey_of (Split.tableName_of m p) (Split.extractRecordId (prop p "data")) = Some k ->
  recentDeletes s !! k = Some e ->
  strict_equals false (commitTs e) (prop p "commitTs") = true ->
  Split.deliver m s =
    {| recentDeletes := delete k (recentDeletes s);
       timeouts := timeouts s;
       next_handle := next_handle s;
       interval_due := interval_due s;
       clock := clock s;
       out := out s ++
         [logger_info "Detected UPDATE operation"
            (JObj [("table", Split.tableName_of m p);
                   ("recordId", Split.extractRecordId (prop p "data"));
                   ("commitTs", prop p "commitTs");
                   ("oldData", data e); ("newData", prop p "data")]);
          cdcEventsCounter_inc (Split.tableName_of m p) (JStr "update");
          logger_info "CDC Event"
            (Split.update_event (clock s) (Split.tableName_of m p) (data e)
               (prop p "data") (offset m) (Split.messageKey_of m));
          kafkaMessagesTotal_inc;
          cdcProcessingDuration_observe (Split.tableName_of m p) (JStr "update")] |}.
Proof.
  intros Hp Hs Ht Hdata Hrid Hk He Hts.
  assert (Hn : nullish p = false) by (apply (prop_nullish p "type"); rewrite Ht; discriminate).
  unfold Split.deliver, Split.run.
  rewrite (processCDCMessage_parsed _ _ p Hp Hn), Hs.
  unfold Split.splitUpdate. munfold. rewrite Hn. cbn.
  rewrite Ht. cbn. rewrite Hdata. cbn.
  pose proof (deleteKey_writable _ _ _ Hk) as Hw.
  unfold Split.handleInsert, Split.matchingDelete. rewrite Hrid. cbn. munfold.
  unfold Split.deleteKey_of, Split.tableName_of in Hk, Hw. rewrite Hk. cbn.
  rewrite He. destruct e as [ts tm d a]. cbn in Hts |- *. rewrite Hts. cbn.
  mrun. out_norm. reflexivity.
Qed.

Lemma deliver_insert_unmatched m s p :
  payload_of m = Some p ->
  Split.isSimple p = false ->
  prop p "type" = JStr "INSERT" ->
  truthy (prop p "data") = true ->
  Split.unmatched s (Split.tableName_of m p) (Split.extractRecordId (prop p "data"))
    (prop p "commitTs") ->
  writable (Split.tableName_of m p) = true ->
  Split.deliver m s =
    with_out (fun o => o ++
      [cdcEventsCounter_inc (Split.tableName_of m p) (JStr "insert");
       logger_info "CDC Event"
         (Split.insert_event (clock s) (Split.tableName_of m p) (prop p "data")
            (offset m) (Split.messageKey_of m));
       kafkaMessagesTotal_inc;
       cdcProcessingDuration_observe (Split.tableName_of m p) (JStr "insert")]) s.
Proof.
  intros Hp Hs Ht Hdata Hu Hw.
  assert (Hn : nullish p = false) by (apply (prop_nullish p "type"); rewrite Ht; discriminate).
  unfold Split.deliver, Split.run.
  rewrite (processCDCMessage_parsed _ _ p Hp Hn), Hs.
  unfold Split.splitUpdate. munfold. rewrite Hn. cbn.
  rewrite Ht. cbn. rewrite Hdata. cbn.
  unfold Split.handleInsert, Split.matchingDelete. unfold Split.tableName_of in Hw.
  destruct Hu as [Hnull | (k & Hk & He)].
  - rewrite Hnull. cbn. mrun. out_norm. reflexivity.
  - destruct (strict_equals false _ JNull); cbn; munfold.
    + mrun. out_norm. reflexivity.
    + unfold Split.deleteKey_of, Split.tableName_of in Hk. rewrite Hk. cbn.
      destruct (recentDeletes s !! k) as [[ts tm d a]|]; cbn in He |- *.
      * rewrite He. cbn. mrun. out_norm. reflexivity.
      * mrun. out_norm. reflexivity.
Qed.

(** An INSERT for a table without a string conversion: the key template
    or the counter throws, and the [catch] reports it. *)
Lemma deliver_insert_unwritable m s p :
  payload_of m = Some p ->
  Split.isSimple p = false ->
  prop p "type" = JStr "INSERT" ->
  truthy (prop p "data") = true ->
  writable (Split.tableName_of m p) = false ->
  Split.deliver m s = with_out (fun o => o ++ Split.error_effects) s.
Proof.
  intros Hp Hs Ht Hdata Hw.
  assert (Hn : nullish p = false) by (apply (prop_nullish p "type"); rewrite Ht; discriminate).
  unfold Split.deliver, Split.run.
  rewrite (processCDCMessage_parsed _ _ p Hp Hn), Hs.
  unfold Split.splitUpdate. munfold. rewrite Hn. cbn.
  rewrite Ht. cbn. rewrite Hdata. cbn.
  unfold Split.handleInsert, Split.matchingDelete. unfold Split.tableName_of in Hw.
  destruct (strict_equals false _ JNull); cbn; munfold.
  - rewrite (counter_inc_fail _ _ Hw). mrun. out_norm. reflexivity.
  - unfold interpolate, writable in *. cbn [foldr].
    destruct (toString _); [discriminate|]. cbn. mrun. out_norm. reflexivity.
Qed.

(** ** The timeout and the interval *)

Lemma fire_claims s h t e :
  timeouts s !! h = Some t ->
  f_due t <= clock s ->
  recentDeletes s !! f_deleteKey t = Some e ->
  strict_equals (Nat.eqb (armed e) (f_handle t)) (commitTs e) (f_commitTs t) = true ->
  writable (f_tableName t) = true ->
  Split.step (Split.Timeout h) s =
    Some {| recentDeletes := delete (f_deleteKey t) (recentDeletes s);
            timeouts := delete h (timeouts s);
            next_handle := next_handle s;
            interval_due := interval_due s;
            clock := clock s;
            out := out s ++
              [cdcEventsCounter_inc (f_tableName t) (JStr "delete");
               logger_info "CDC Event" (Split.delete_event (clock s) t)] |}.
Proof.
  intros Ht Hdue He Hts Hw. cbn. rewrite Ht.
  destruct (Z.leb_spec (f_due t) (clock s)); [|lia].
  unfold Split.fire, Split.finalize_callback. munfold. cbn.
  rewrite He, Hts. mrun. out_norm. reflexivity.
Qed.

(** A timeout that finds its entry but whose table has no string
    conversion throws out of its callback. *)
Lemma fire_throws s h t e :
  timeouts s !! h = Some t ->
  recentDeletes s !! f_deleteKey t = Some e ->
  strict_equals (Nat.eqb (armed e) (f_handle t)) (commitTs e) (f_commitTs t) = true ->
  writable (f_tableName t) = false ->
  Split.step (Split.Timeout h) s = None.
Proof.
  intros Ht He Hts Hw. cbn. rewrite Ht.
  destruct (f_due t <=? clock s); [|reflexivity].
  unfold Split.fire, Split.finalize_callback. munfold. cbn.
  rewrite He, Hts. rewrite (counter_inc_fail _ _ Hw). reflexivity.
Qed.

Lemma fire_noop s h t :
  timeouts s !! h = Some t ->
  f_due t <= clock s ->
  Split.lost s t ->
  Split.step (Split.Timeout h) s =
    Some {| recentDeletes := recentDeletes s;
            timeouts := delete h (timeouts s);
            next_handle := next_handle s;
            interval_due := interval_due s;
            clock := clock s;
            out := out s |}.
Proof.
  intros Ht Hdue Hl. cbn. rewrite Ht.
  destruct (Z.leb_spec (f_due t) (clock s)); [|lia].
  unfold Split.fire, Split.finalize_callback. munfold. cbn.
  unfold Split.lost in Hl. destruct (recentDeletes s !! f_deleteKey t); [|reflexivity].
  rewrite Hl. reflexivity.
Qed.

Lemma sweep_loop_lookup now (l : list (string * pending)) (m : gmap string pending) k :
  foldr (Split.sweep_entry now) m l !! k =
    if existsb (fun kv => bool_decide (kv.1 = k)
                          && (now - timestamp kv.2 >? Split.staleness_threshold)) l
    then None else m !! k.
Proof.
  induction l as [|[k' e] l IH]; [reflexivity|].
  cbn [foldr existsb fst snd]. unfold Split.sweep_entry at 1. cbn [fst snd].
  destruct (now - timestamp e >? Split.staleness_threshold) eqn:Hst.
  - destruct (decide (k' = k)) as [->|Hne].
    + rewrite lookup_delete_eq, bool_decide_eq_true_2 by reflexivity. reflexivity.
    + rewrite lookup_delete_ne, bool_decide_eq_false_2 by assumption. apply IH.
  - rewrite andb_false_r. apply IH.
Qed.

Lemma sweep_lookup now (m : gmap string pending) k :
  foldr (Split.sweep_entry now) m (map_to_list m) !! k =
    match m !! k with
    | Some e => if now - timestamp e >? Split.staleness_threshold then None else Some e
    | None => None
    end.
Proof.
  rewrite sweep_loop_lookup.
  destruct (existsb _ _) eqn:Hex.
  - apply existsb_exists in Hex as ([k' e] & Hin & Hc). cbn in Hc.
    apply andb_prop in Hc as [Hk Hst]. apply bool_decide_eq_true in Hk. subst k'.
    apply list_elem_of_In, elem_of_map_to_list in Hin. rewrite Hin, Hst. reflexivity.
  - destruct (m !! k) as [e|] eqn:He; [|reflexivity].
    destruct (now - timestamp e >? Split.staleness_threshold) eqn:Hst; [|reflexivity].
    exfalso. apply not_true_iff_false in Hex. apply Hex.
    apply existsb_exists. exists (k, e). split.
    + apply list_elem_of_In, elem_of_map_to_list. exact He.
    + cbn. rewrite Hst, bool_decide_eq_true_2; reflexivity.
Qed.

Lemma step_interval s :
  interval_due s <= clock s ->
  Split.step Split.Interval s =
    Some {| recentDeletes :=
              foldr (Split.sweep_entry (clock s)) (recentDeletes s)
                (map_to_list (recentDeletes s));
            timeouts := timeouts s;
            next_handle := next_handle s;
            interval_due := clock s + Split.sweep_period;
            clock := clock s;
            out := out s |}.
Proof.
  intros Hdue. cbn. destruct (Z.leb_spec (interval_due s) (clock s)); [|lia].
  reflexivity.
Qed.

Lemma step_interval_inv s s' :
  Split.step Split.Interval s = Some s' ->
  interval_due s <= clock s /\
  s' = {| recentDeletes :=
            foldr (Split.sweep_entry (clock s)) (recentDeletes s)
              (map_to_list (recentDeletes s));
          timeouts := timeouts s;
          next_handle := next_handle s;
          interval_due := clock s + Split.sweep_period;
          clock := clock s;
          out := out s |}.
Proof.
  intros Hstep.
  assert (Hdue : interval_due s <= clock s).
  { cbn in Hstep. destruct (Z.leb_spec (interval_due s) (clock s)); [assumption|discriminate]. }
  rewrite (step_interval s Hdue) in Hstep. injection Hstep as <-. split; [assumption|reflexivity].
Qed.

Lemma sweep_silent s s' : Split.step Split.Interval s = Some s' -> out s' = out s.
Proof. intros H. apply step_interval_inv in H as [_ ->]. reflexivity. Qed.

Lemma steps_cons l ls s :
  Split.steps (l :: ls) s =
    match Split.step l s with Some s' => Split.steps ls s' | None => None end.
Proof. reflexivity. Qed.

Lemma step_deliver m s : Split.step (Split.Deliver m) s = Some (Split.deliver m s).
Proof. reflexivity. Qed.

Lemma step_elapse dt s :
  0 <= dt -> Split.step (Split.Elapse dt) s = Some (Split.elapsed dt s).
Proof. intros H. cbn. destruct (Z.leb_spec 0 dt); [reflexivity|lia]. Qed.

Lemma strict_equals_refl v : strict_equals true v v = true.
Proof.
  destruct v as [| |b|n|x|l|l]; cbn; try reflexivity.
  - destruct b; reflexivity.
  - apply Z.eqb_refl.
  - apply String.eqb_refl.
Qed.

Lemma cdc_events_app o1 o2 : cdc_events (o1 ++ o2) = cdc_events o1 ++ cdc_events o2.
Proof. unfold cdc_events. apply omap_app. Qed.

Lemma counter_incs_app o1 o2 : counter_incs (o1 ++ o2) = counter_incs o1 ++ counter_incs o2.
Proof. unfold counter_incs. apply omap_app. Qed.

(** ** The background sweep *)

(** C8. The callback of the 30 s interval removes exactly the entries
    captured more than 5000 ms ago, keeps every other entry as it is, and
    performs no effect at all: the log, the counters and the pending
    timeouts are those it found; it is due again 30000 ms later, and the
    first one is due 30000 ms after the constructor ran. *)
Theorem sweep_discards_stale_entries_silently (s s' : consumer) :
  Split.step Split.Interval s = Some s' ->
  interval_due s <= clock s /\
  interval_due s' = clock s + 30000 /\
  (forall now, interval_due (Split.constructor now) = now + 30000) /\
  (forall k e, recentDeletes s !! k = Some e -> clock s - timestamp e > 5000 ->
     recentDeletes s' !! k = None) /\
  (forall k e, recentDeletes s !! k = Some e -> clock s - timestamp e <= 5000 ->
     recentDeletes s' !! k = Some e) /\
  (forall k, recentDeletes s !! k = None -> recentDeletes s' !! k = None) /\
  out s' = out s /\
  cdc_events (out s') = cdc_events (out s) /\
  counter_incs (out s') = counter_incs (out s) /\
  timeouts s' = timeouts s /\ next_handle s' = next_handle s /\ clock s' = clock s.
Proof.
  intros Hstep. apply step_interval_inv in Hstep as [Hdue ->]. cbn.
  repeat split; try assumption.
  - intros k e He Hold. rewrite sweep_lookup, He.
    unfold Split.staleness_threshold. destruct (Z.gtb_spec (clock s - timestamp e) 5000); [reflexivity|lia].
  - intros k e He Hyoung. rewrite sweep_lookup, He.
    unfold Split.staleness_threshold. destruct (Z.gtb_spec (clock s - timestamp e) 5000); [lia|reflexivity].
  - intros k He. rewrite sweep_lookup, He. reflexivity.
Qed.

Lemma sweep_discards_stale_entries_silently_witness :
  exists s',
    Split.step Split.Interval Examples.at_sweep = Some s' /\
    recentDeletes s' !! "users_7" = None /\
    recentDeletes s' !! "users_8" = Some (Examples.entry_at 26000) /\
    out s' = [].
Proof.
  eexists. split; [reflexivity|].
  pose proof (sweep_discards_stale_entries_silently Examples.at_sweep _ eq_refl)
    as (_ & _ & _ & Hstale & Hyoung & _ & Hout & _).
  split; [|split].
  - apply (Hstale "users_7" (Examples.entry_at 0)); [reflexivity | vm_compute; reflexivity].
  - apply (Hyoung "users_8" (Examples.entry_at 26000)); [reflexivity | vm_compute; discriminate].
  - exact Hout.
Defined.

(** ** A tracked DELETE and its finalize task *)

Lemma tracked_delete_delivered m p k s :
  Split.tracked_delete m p k ->
  Split.deliver m s =
    {| recentDeletes := <[k := Split.pending_of s p]> (recentDeletes s);
       timeouts := <[next_handle s := Split.finalize_of s m p k]> (timeouts s);
       next_handle := S (next_handle s);
       interval_due := interval_due s;
       clock := clock s;
       out := out s ++
         [logger_info "Tracking DELETE for potential UPDATE detection"
            (JObj [("table", Split.tableName_of m p);
                   ("recordId", Split.extractRecordId (prop p "old"));
                   ("commitTs", prop p "commitTs")]);
          kafkaMessagesTotal_inc;
          cdcProcessingDuration_observe (Split.tableName_of m p) (JStr "delete")] |}.
Proof. intros (Hp & Hs & Ht & Ho & Hr & Hk). by apply deliver_tracked_delete. Qed.

(** C3. A tracked DELETE emits nothing when it is delivered: it stores
    its entry and arms a timeout due 500 ms later. The timeout cannot run
    earlier. When it runs and the entry under its key still carries the
    same [commitTs], exactly one DELETE event is emitted (one counter
    increment with label [delete], one CDC Event record carrying the
    DELETE's payload), the entry is removed and the timeout is spent; in
    particular this is what happens when nothing but 500 ms of time comes
    between the delivery and the timeout. No run of the sweep, then or
    later, emits anything. *)
Theorem unmatched_delete_finalized_once (m : message) (p : jsval) (k : string)
    (s0 : consumer) :
  Split.tracked_delete m p k ->
  let h := next_handle s0 in
  let t := Split.finalize_of s0 m p k in
  let s1 := Split.deliver m s0 in
  cdc_events (out s1) = cdc_events (out s0) /\
  counter_incs (out s1) = counter_incs (out s0) /\
  recentDeletes s1 !! k = Some (Split.pending_of s0 p) /\
  timeouts s1 !! h = Some t /\
  f_due t = clock s0 + 500 /\
  (forall s2, timeouts s2 !! h = Some t -> clock s2 < clock s0 + 500 ->
     Split.step (Split.Timeout h) s2 = None) /\
  (forall s2 e,
     timeouts s2 !! h = Some t -> clock s0 + 500 <= clock s2 ->
     recentDeletes s2 !! k = Some e ->
     strict_equals (Nat.eqb (armed e) h) (commitTs e) (prop p "commitTs") = true ->
     exists s3,
       Split.step (Split.Timeout h) s2 = Some s3 /\
       out s3 = out s2 ++
         [cdcEventsCounter_inc (Split.tableName_of m p) (JStr "delete");
          logger_info "CDC Event" (Split.delete_event (clock s2) t)] /\
       cdc_events (out s3) = cdc_events (out s2) ++ [Split.delete_event (clock s2) t] /\
       prop (Split.delete_event (clock s2) t) "operation_type" = JStr "DELETE" /\
       prop (Split.delete_event (clock s2) t) "data" = p /\
       recentDeletes s3 = delete k (recentDeletes s2) /\
       timeouts s3 !! h = None) /\
  (exists s3,
     Split.steps [Split.Deliver m; Split.Elapse 500; Split.Timeout h] s0 = Some s3 /\
     cdc_events (out s3) =
       cdc_events (out s0) ++ [Split.delete_event (clock s0 + 500) t] /\
     counter_incs (out s3) =
       counter_incs (out s0) ++ [(Split.tableName_of m p, JStr "delete")] /\
     recentDeletes s3 !! k = None) /\
  (forall s4 s5, Split.step Split.Interval s4 = Some s5 -> out s5 = out s4).
Proof.
  intros Htr h t s1. subst s1.
  pose proof (tracked_delete_delivered m p k s0 Htr) as Hd.
  assert (Hfire : forall s2 e,
     timeouts s2 !! h = Some t -> clock s0 + 500 <= clock s2 ->
     recentDeletes s2 !! k = Some e ->
     strict_equals (Nat.eqb (armed e) h) (commitTs e) (prop p "commitTs") = true ->
     Split.step (Split.Timeout h) s2 =
       Some {| recentDeletes := delete k (recentDeletes s2);
               timeouts := delete h (timeouts s2);
               next_handle := next_handle s2; interval_due := interval_due s2;
               clock := clock s2;
               out := out s2 ++
                 [cdcEventsCounter_inc (Split.tableName_of m p) (JStr "delete");
                  logger_info "CDC Event" (Split.delete_event (clock s2) t)] |}).
  { intros s2 e Ht Hdue He Hts. apply (fire_claims s2 h t e); try assumption.
    destruct Htr as (_ & _ & _ & _ & _ & Hk). exact (deleteKey_writable _ _ _ Hk). }
  split; [|split; [|split; [|split; [|split; [|split; [|split; [|split]]]]]]].
  - rewrite Hd. cbn. rewrite cdc_events_app. cbn. apply app_nil_r.
  - rewrite Hd. cbn. rewrite counter_incs_app. cbn. apply app_nil_r.
  - rewrite Hd. cbn. apply lookup_insert_eq.
  - rewrite Hd. cbn. apply lookup_insert_eq.
  - reflexivity.
  - intros s2 Ht Hearly. cbn. rewrite Ht. subst t. cbn.
    unfold Split.correlation_window.
    destruct (Z.leb_spec (clock s0 + 500) (clock s2)); [lia|reflexivity].
  - intros s2 e Ht Hdue He Hts. eexists. split; [apply (Hfire s2 e); assumption|].
    cbn. rewrite cdc_events_app, lookup_delete_eq. repeat split.
  - eexists. split.
    + rewrite steps_cons, step_deliver, steps_cons, step_elapse, steps_cons by lia.
      rewrite Hd.
      erewrite Hfire; [reflexivity| | | |]; cbn.
      * apply lookup_insert_eq.
      * lia.
      * apply lookup_insert_eq.
      * rewrite Nat.eqb_refl. apply strict_equals_refl.
    + cbn. rewrite !cdc_events_app, !counter_incs_app, lookup_delete_eq. cbn.
      rewrite !app_nil_r. repeat split.
  - intros s4 s5 Hs. exact (sweep_silent s4 s5 Hs).
Qed.

Lemma unmatched_delete_finalized_once_witness :
  Split.tracked_delete Examples.delete_7 (Examples.delete_payload 100) "users_7" /\
  exists s3,
    Split.steps [Split.Deliver Examples.delete_7; Split.Elapse 500; Split.Timeout 0]
      (Split.constructor 0) = Some s3 /\
    cdc_events (out s3) =
      [Split.delete_event 500
         (Split.finalize_of (Split.constructor 0) Examples.delete_7
            (Examples.delete_payload 100) "users_7")] /\
    recentDeletes s3 !! "users_7" = None.
Proof.
  assert (H : Split.tracked_delete Examples.delete_7 (Examples.delete_payload 100) "users_7")
    by (repeat split; reflexivity).
  split; [exact H|].
  pose proof (unmatched_delete_finalized_once Examples.delete_7
                (Examples.delete_payload 100) "users_7" (Split.constructor 0) H)
    as (_ & _ & _ & _ & _ & _ & _ & (s3 & Hrun & Hev & _ & Hgone) & _).
  exists s3. split; [exact Hrun|]. split; [exact Hev | exact Hgone].
Defined.

(** ** What a timeout step does, and the steps that keep a timeout *)

Lemma lost_shrinks s s' t : shrinks s s' -> Split.lost s t -> Split.lost s' t.
Proof.
  unfold shrinks, Split.lost. intros Hsh Hl.
  destruct (recentDeletes s' !! f_deleteKey t) as [e|] eqn:He; [|constructor].
  rewrite (Hsh _ _ He) in Hl. exact Hl.
Qed.

Lemma step_timeout_inv s s' h :
  Split.step (Split.Timeout h) s = Some s' ->
  exists t, timeouts s !! h = Some t /\ f_due t <= clock s /\
    timeouts s' = delete h (timeouts s) /\ clock s' = clock s /\
    next_handle s' = next_handle s /\ interval_due s' = interval_due s /\
    ((recentDeletes s' = recentDeletes s /\ out s' = out s /\ Split.lost s t) \/
     (exists e, recentDeletes s !! f_deleteKey t = Some e /\
        strict_equals (Nat.eqb (armed e) (f_handle t)) (commitTs e) (f_commitTs t) = true /\
        recentDeletes s' = delete (f_deleteKey t) (recentDeletes s) /\
        writable (f_tableName t) = true /\
        out s' = out s ++
          [cdcEventsCounter_inc (f_tableName t) (JStr "delete");
           logger_info "CDC Event" (Split.delete_event (clock s) t)])).
Proof.
  intros Hstep.
  destruct (timeouts s !! h) as [t|] eqn:Ht; [|cbn in Hstep; rewrite Ht in Hstep; discriminate].
  assert (Hdue : f_due t <= clock s).
  { cbn in Hstep. rewrite Ht in Hstep.
    destruct (Z.leb_spec (f_due t) (clock s)); [assumption|discriminate]. }
  exists t. split; [reflexivity|]. split; [assumption|].
  destruct (recentDeletes s !! f_deleteKey t) as [e|] eqn:He.
  - destruct (strict_equals (Nat.eqb (armed e) (f_handle t)) (commitTs e) (f_commitTs t))
      eqn:Hts.
    + destruct (writable (f_tableName t)) eqn:Hw.
      * rewrite (fire_claims s h t e Ht Hdue He Hts Hw) in Hstep. injection Hstep as <-.
        cbn. repeat split. right. exists e. repeat split; assumption.
      * rewrite (fire_throws s h t e Ht He Hts Hw) in Hstep. discriminate.
    + rewrite (fire_noop s h t Ht Hdue) in Hstep
        by (unfold Split.lost; rewrite He; exact Hts).
      injection Hstep as <-. cbn. repeat split. left. repeat split.
      unfold Split.lost. rewrite He. exact Hts.
  - rewrite (fire_noop s h t Ht Hdue) in Hstep
      by (unfold Split.lost; rewrite He; constructor).
    injection Hstep as <-. cbn. repeat split. left. repeat split.
    unfold Split.lost. rewrite He. constructor.
Qed.

Lemma quiet_step h t l s s' :
  Split.quiet h l = true -> Split.step l s = Some s' ->
  (timeouts s !! h = Some t -> timeouts s' !! h = Some t) /\
  shrinks s s' /\ clock s <= clock s'.
Proof.
  destruct l as [m|h'| |dt0]; cbn [Split.quiet]; intros Hq Hstep; try discriminate.
  - apply step_timeout_inv in Hstep as (t' & _ & _ & Hto & Hclk & _ & _ & Hcases).
    apply negb_true_iff, Nat.eqb_neq in Hq.
    split; [|split].
    + intros Ht. rewrite Hto, lookup_delete_ne by assumption. exact Ht.
    + intros k e. destruct Hcases as [(-> & _) | (e' & _ & _ & -> & _)]; [tauto|].
      rewrite lookup_delete_Some. tauto.
    + lia.
  - apply step_interval_inv in Hstep as [_ ->]. cbn. split; [tauto|]. split; [|lia].
    intros k e. cbn. rewrite sweep_lookup.
    destruct (recentDeletes s !! k) as [e0|]; [|discriminate].
    destruct (_ >? _); [discriminate|tauto].
  - cbn in Hstep. destruct (Z.leb_spec 0 dt0); [|discriminate].
    injection Hstep as <-. cbn. split; [tauto|]. split; [intros k e; tauto | lia].
Qed.

Lemma quiet_steps h t ls : forall s s',
  Forall (fun l => Split.quiet h l = true) ls -> Split.steps ls s = Some s' ->
  (timeouts s !! h = Some t -> timeouts s' !! h = Some t) /\
  shrinks s s' /\ clock s <= clock s'.
Proof.
  induction ls as [|l ls IH]; intros s s' Hall Hrun.
  - injection Hrun as <-. split; [tauto|]. split; [intros k e; tauto | lia].
  - apply Forall_cons in Hall as [Hq Hall]. rewrite steps_cons in Hrun.
    destruct (Split.step l s) as [s1|] eqn:Hstep; [|discriminate].
    destruct (quiet_step h t l s s1 Hq Hstep) as (Ht1 & Hsh1 & Hc1).
    destruct (IH s1 s' Hall Hrun) as (Ht2 & Hsh2 & Hc2).
    split; [tauto|]. split; [|lia].
    intros k e He. apply Hsh1, Hsh2, He.
Qed.


(** ** The handlers never read the effects performed so far *)

Lemma oblivious_ret {A} (a : A) : oblivious (mret a).
Proof. intros pre s. reflexivity. Qed.

Lemma oblivious_throw {A} : oblivious (@throw A).
Proof. intros pre s. reflexivity. Qed.

Lemma oblivious_bind {A B} (m : M A) (f : A -> M B) :
  oblivious m -> (forall a, oblivious (f a)) -> oblivious (m ≫= f).
Proof.
  intros Hm Hf pre s. unfold mbind, M_bind. rewrite Hm.
  destruct (m s) as [s1 [a|]]; cbn; [apply Hf | reflexivity].
Qed.

Lemma oblivious_try_catch {A} (body handler : M A) :
  oblivious body -> oblivious handler -> oblivious (try_catch body handler).
Proof.
  intros Hb Hh pre s. unfold try_catch. rewrite Hb.
  destruct (body s) as [s1 [a|]]; cbn; [reflexivity | apply Hh].
Qed.

Lemma oblivious_emit e : oblivious (emit e).
Proof.
  intros pre s. unfold emit, prepend, with_out. cbn. rewrite app_assoc. reflexivity.
Qed.

Lemma oblivious_pure {A} (f : consumer -> option A) :
  (forall pre s, f (prepend pre s) = f s) -> oblivious (fun s => (s, f s)).
Proof. intros Hf pre s. cbn. rewrite Hf. reflexivity. Qed.

Lemma oblivious_get v k : oblivious (get v k).
Proof. unfold get. destruct (nullish v); [apply oblivious_throw | apply oblivious_ret]. Qed.

Lemma oblivious_JSON_parse b : oblivious (JSON_parse b).
Proof.
  destruct b as [[t [v|]]|]; cbn; first [apply oblivious_ret | apply oblivious_throw].
Qed.

Lemma oblivious_call_toLowerCase x : oblivious (call_toLowerCase x).
Proof. destruct x; cbn; first [apply oblivious_ret | apply oblivious_throw]. Qed.

Lemma oblivious_call_includes x lit : oblivious (call_includes x lit).
Proof. destruct x; cbn; first [apply oblivious_ret | apply oblivious_throw]. Qed.

Lemma oblivious_template parts : oblivious (template parts).
Proof. intros pre s. reflexivity. Qed.

Lemma oblivious_Date_now : oblivious Date_now.
Proof. intros pre s. reflexivity. Qed.

Lemma oblivious_next_timeout : oblivious next_timeout.
Proof. intros pre s. reflexivity. Qed.

Lemma oblivious_recentDeletes_get k : oblivious (Split.recentDeletes_get k).
Proof. intros pre s. reflexivity. Qed.

Lemma oblivious_recentDeletes_set k v : oblivious (Split.recentDeletes_set k v).
Proof. intros pre s. reflexivity. Qed.

Lemma oblivious_recentDeletes_delete k : oblivious (Split.recentDeletes_delete k).
Proof. intros pre s. reflexivity. Qed.

Lemma oblivious_setTimeout t : oblivious (Split.setTimeout t).
Proof. intros pre s. reflexivity. Qed.

Lemma oblivious_counter_inc t op : oblivious (counter_inc t op).
Proof.
  unfold counter_inc.
  destruct (writable t && writable op); [apply oblivious_emit | apply oblivious_throw].
Qed.

Lemma oblivious_timer t op : oblivious (timer t op).
Proof.
  unfold timer.
  destruct (writable t && writable op); [apply oblivious_emit | apply oblivious_throw].
Qed.

Lemma oblivious_log_info msg meta : oblivious (log_info msg meta).
Proof.
  unfold log_info.
  destruct (truthy _ && negb _); [apply oblivious_throw | apply oblivious_emit].
Qed.

Create HintDb oblivious.
#[export] Hint Resolve oblivious_counter_inc oblivious_timer oblivious_log_info : oblivious.
#[export] Hint Resolve oblivious_ret oblivious_throw oblivious_emit oblivious_get
  oblivious_JSON_parse oblivious_call_toLowerCase oblivious_call_includes
  oblivious_template oblivious_Date_now oblivious_next_timeout
  oblivious_recentDeletes_get oblivious_recentDeletes_set
  oblivious_recentDeletes_delete oblivious_setTimeout : oblivious.

(** Walk down a handler: binds and [try]/[catch] compose, branches are
    taken apart, the primitives are in the hint database. *)
Ltac oblivious_step :=
  match goal with
  | |- oblivious (_ ≫= _) => apply oblivious_bind; [|intros]
  | |- oblivious (try_catch _ _) => apply oblivious_try_catch
  | |- oblivious (if ?b then _ else _) => destruct b
  | |- oblivious (match ?x with _ => _ end) => destruct x
  | |- oblivious (let _ := _ in _) => cbn zeta
  | |- oblivious _ => solve [auto with oblivious]
  end.

Ltac oblivious_auto := repeat oblivious_step.

Lemma oblivious_finish t ty : oblivious (Split.finish t ty).
Proof. unfold Split.finish. oblivious_auto. Qed.

Lemma oblivious_parseKey m : oblivious (Split.parseKey m).
Proof. unfold Split.parseKey. oblivious_auto. Qed.

Lemma oblivious_parseValue m : oblivious (Split.parseValue m).
Proof. unfold Split.parseValue. oblivious_auto. Qed.

Lemma oblivious_demo_reclassify op d : oblivious (Split.demo_reclassify op d).
Proof. unfold Split.demo_reclassify. oblivious_auto. Qed.

#[export] Hint Resolve oblivious_finish oblivious_parseKey oblivious_parseValue
  oblivious_demo_reclassify : oblivious.

Lemma oblivious_simpleProtocol m mk tn rid p :
  oblivious (Split.simpleProtocol m mk tn rid p).
Proof. unfold Split.simpleProtocol. oblivious_auto. Qed.

Lemma oblivious_control m mk p ty : oblivious (Split.control m mk p ty).
Proof. unfold Split.control. oblivious_auto. Qed.

Lemma oblivious_trackDelete m mk tn p ts old rid :
  oblivious (Split.trackDelete m mk tn p ts old rid).
Proof. unfold Split.trackDelete. oblivious_auto. Qed.

Lemma oblivious_matchingDelete tn ts rid : oblivious (Split.matchingDelete tn ts rid).
Proof. unfold Split.matchingDelete. oblivious_auto. Qed.

#[export] Hint Resolve oblivious_matchingDelete : oblivious.

Lemma oblivious_handleInsert m mk tn ts d : oblivious (Split.handleInsert m mk tn ts d).
Proof. unfold Split.handleInsert. oblivious_auto. Qed.

Lemma oblivious_handleOther m mk tn op p ty : oblivious (Split.handleOther m mk tn op p ty).
Proof. unfold Split.handleOther. oblivious_auto. Qed.

#[export] Hint Resolve oblivious_simpleProtocol oblivious_control oblivious_trackDelete
  oblivious_handleInsert oblivious_handleOther : oblivious.

Lemma oblivious_splitUpdate m mk tn p : oblivious (Split.splitUpdate m mk tn p).
Proof. unfold Split.splitUpdate. oblivious_auto. Qed.

#[export] Hint Resolve oblivious_splitUpdate : oblivious.

Lemma oblivious_processCDCMessage m : oblivious (Split.processCDCMessage m).
Proof. unfold Split.processCDCMessage. oblivious_auto. Qed.

Lemma prepend_clear s : prepend (out s) (with_out (fun _ => []) s) = s.
Proof. destruct s. unfold prepend, with_out. cbn. rewrite app_nil_r. reflexivity. Qed.

(** A delivery appends its own effects; the rest of the state it reaches
    does not depend on the effects performed before. *)
Lemma deliver_frame m s :
  Split.deliver m s = prepend (out s) (Split.deliver m (with_out (fun _ => []) s)).
Proof.
  unfold Split.deliver, Split.run.
  rewrite <- (prepend_clear s) at 1. rewrite oblivious_processCDCMessage. reflexivity.
Qed.

Lemma deliver_out m s : out (Split.deliver m s) = out s ++ produced m s.
Proof. rewrite deliver_frame. reflexivity. Qed.

Lemma deliver_with_out m s f :
  Split.deliver m (with_out f s) =
    with_out (fun _ => f (out s) ++ produced m s) (Split.deliver m s).
Proof.
  rewrite (deliver_frame m (with_out f s)), (deliver_frame m s). unfold produced.
  destruct s; reflexivity.
Qed.

(** ** A value that is not JSON *)

Lemma deliver_unparsable m s :
  payload_of m = None ->
  Split.deliver m s = with_out (fun o => o ++ Split.parse_failure_effects m) s.
Proof.
  intros Hp. unfold Split.deliver, Split.run, Split.processCDCMessage, try_catch.
  unfold mbind at 1, M_bind at 1. rewrite parseKey_pure.
  destruct (Split.keyInfo m) as [[mk tn] rid].
  unfold mbind at 1, M_bind at 1. rewrite (parseValue_fail _ _ Hp). reflexivity.
Qed.

(** The [try]/[catch] around the whole body: no exception leaves
    [processCDCMessage], whatever the message. *)
Lemma processCDCMessage_returns m s : (Split.processCDCMessage m s).2 = Some tt.
Proof.
  unfold Split.processCDCMessage, try_catch.
  match goal with |- (match ?body s with _ => _ end).2 = _ => destruct (body s) as [s' [[]|]] end;
    reflexivity.
Qed.

(** A value that parses to [null] takes the same way out: reading
    [payload.schema] throws inside the inner [try]. *)
Lemma null_payload_is_reported_as_non_json m s :
  payload_of m = Some JNull ->
  Split.deliver m s = with_out (fun o => o ++ Split.parse_failure_effects m) s.
Proof.
  intros Hp. unfold Split.deliver, Split.run, Split.processCDCMessage, try_catch.
  unfold mbind at 1, M_bind at 1. rewrite parseKey_pure.
  destruct (Split.keyInfo m) as [[mk tn] rid].
  unfold mbind at 1, M_bind at 1.
  unfold payload_of in Hp. unfold Split.parseValue. mrun.
  destruct (value m) as [[t [v|]]|]; try discriminate. injection Hp as ->.
  out_norm. reflexivity.
Qed.

(** C5, as stated, fails: a message whose value is not JSON produces no
    CDC Event record and no increment of the events counter, so there is
    no PARSE_ERROR event with its counter increment. *)
Lemma malformed_value_emits_no_event :
  payload_of Examples.malformed = None /\
  let s := Split.deliver Examples.malformed (Split.constructor 0) in
  ~ (exists ev, In ev (cdc_events (out s))) /\
  ~ (exists inc, In inc (counter_incs (out s))).
Proof.
  split; [reflexivity|]. cbn zeta.
  rewrite (deliver_unparsable Examples.malformed _ eq_refl).
  split; intros [x Hx]; exact Hx.
Qed.

(** C5, amended. A message whose value is not JSON is logged and
    skipped: one warning record, one increment of the consumed-messages
    counter and one duration observation labelled [unknown] and
    [parse_error]; the events counter is not incremented and no CDC Event
    record is written. The delivery returns normally, no entry and no
    timeout is touched, and the next message produces the effects and
    reaches the store it would have without the malformed one. *)
Theorem malformed_value_is_logged_and_skipped (m : message) (s : consumer) :
  payload_of m = None ->
  let s' := Split.deliver m s in
  Split.processCDCMessage m s = (s', Some tt) /\
  Split.step (Split.Deliver m) s = Some s' /\
  out s' = out s ++
    [logger_warn "Received non-JSON message"
       (JObj [("keyPresent", JBool (bool_decide (is_Some (key m))));
              ("partition", partition m); ("offset", offset m)]);
     kafkaMessagesTotal_inc;
     cdcProcessingDuration_observe (JStr "unknown") (JStr "parse_error")] /\
  cdc_events (out s') = cdc_events (out s) /\
  counter_incs (out s') = counter_incs (out s) /\
  recentDeletes s' = recentDeletes s /\
  timeouts s' = timeouts s /\
  next_handle s' = next_handle s /\
  forall m',
    produced m' s' = produced m' s /\
    out (Split.deliver m' s') = out s' ++ produced m' s /\
    recentDeletes (Split.deliver m' s') = recentDeletes (Split.deliver m' s) /\
    timeouts (Split.deliver m' s') = timeouts (Split.deliver m' s).
Proof.
  intros Hp s'. subst s'.
  split.
  { pose proof (processCDCMessage_returns m s) as Hr. unfold Split.deliver, Split.run.
    destruct (Split.processCDCMessage m s) as [s1 r]. cbn in *. rewrite Hr. reflexivity. }
  rewrite (deliver_unparsable m s Hp).
  split; [rewrite step_deliver, (deliver_unparsable m s Hp); reflexivity|].
  split; [reflexivity|].
  split; [cbn; rewrite cdc_events_app; cbn; apply app_nil_r|].
  split; [cbn; rewrite counter_incs_app; cbn; apply app_nil_r|].
  split; [reflexivity|]. split; [reflexivity|]. split; [reflexivity|].
  intros m'.
  assert (Hprod : produced m' (with_out (fun o => o ++ Split.parse_failure_effects m) s)
                  = produced m' s) by (unfold produced; destruct s; reflexivity).
  split; [exact Hprod|].
  split; [rewrite deliver_out, Hprod; reflexivity|].
  rewrite deliver_with_out. split; reflexivity.
Qed.

Lemma malformed_value_is_logged_and_skipped_witness :
  payload_of Examples.malformed = None /\
  exists s',
    Split.steps [Split.Deliver Examples.malformed; Split.Deliver Examples.delete_7]
      (Split.constructor 0) = Some s' /\
    recentDeletes s' =
      recentDeletes (Split.deliver Examples.delete_7 (Split.constructor 0)) /\
    cdc_events (out (Split.deliver Examples.malformed (Split.constructor 0))) = [].
Proof.
  split; [reflexivity|].
  pose proof (malformed_value_is_logged_and_skipped Examples.malformed
                (Split.constructor 0) eq_refl) as (_ & _ & _ & Hev & _ & _ & _ & _ & Hnext).
  destruct (Hnext Examples.delete_7) as (_ & _ & Hstore & _).
  eexists. split; [reflexivity|]. split; [exact Hstore | exact Hev].
Defined.

(** ** The simple protocol *)

Lemma call_includes_result x lit s :
  call_includes x lit s = (s, Split.includes_result x lit).
Proof. destruct x; reflexivity. Qed.

Lemma demo_reclassify_pure op d s :
  nullish d = false ->
  Split.demo_reclassify op d s = (s, Split.reclassified op d).
Proof.
  intros Hn. unfold Split.demo_reclassify, Split.reclassified.
  destruct (String.eqb op "INSERT"); [|reflexivity].
  mrun. rewrite Hn. cbn.
  destruct (truthy (prop d "email")); [|reflexivity].
  rewrite !call_includes_result.
  destruct (prop d "email"); cbn; try reflexivity.
  - destruct (includes s0 "updated_"); [reflexivity|].
    cbn. destruct (includes s0 "mass_update_"); reflexivity.
  - destruct (existsb _ items); [reflexivity|].
    cbn. destruct (existsb _ items); reflexivity.
Qed.

Lemma simple_data_not_nullish p : nullish (Split.simple_data p) = false.
Proof.
  unfold Split.simple_data. cbn zeta.
  destruct (truthy (prop p "data")) eqn:H.
  - repeat (destruct (String.eqb _ _); cbn [andb]);
      first [apply truthy_not_nullish, H | reflexivity].
  - rewrite !andb_false_r. reflexivity.
Qed.

Lemma isSimple_not_nullish p : Split.isSimple p = true -> nullish p = false.
Proof.
  unfold Split.isSimple. intros H. apply andb_prop in H as [H _].
  apply andb_prop in H as [H _]. destruct p; cbn in *; congruence.
Qed.

Lemma deliver_simple m s p :
  payload_of m = Some p ->
  Split.isSimple p = true ->
  Split.deliver m s =
    match Split.reclassified (Split.simple_operation (prop p "type")) (Split.simple_data p) with
    | Some op =>
        if writable (Split.tableName_of m p) then
          with_out (fun o => o ++
            [cdcEventsCounter_inc (Split.tableName_of m p) (JStr (toLowerCase op));
             logger_info "CDC Event" (Split.simple_event (clock s) m p op)] ++
            closing (Split.tableName_of m p) (prop p "type")) s
        else with_out (fun o => o ++ Split.error_effects) s
    | None => with_out (fun o => o ++ Split.error_effects) s
    end.
Proof.
  intros Hp Hs. pose proof (isSimple_not_nullish p Hs) as Hn.
  unfold Split.deliver, Split.run.
  rewrite (processCDCMessage_parsed _ _ p Hp Hn), Hs.
  unfold Split.simpleProtocol. unfold try_catch.
  do 4 (unfold mbind at 1, M_bind at 1; unfold get at 1; rewrite Hn;
        unfold mret at 1, M_ret at 1).
  unfold mbind at 1, M_bind at 1.
  fold (Split.simple_data p). rewrite (demo_reclassify_pure _ _ _ (simple_data_not_nullish p)).
  fold (Split.tableName_of m p).
  destruct (Split.reclassified _ _) as [op|]; [|mrun; out_norm; reflexivity].
  unfold closing.
  destruct (writable (Split.tableName_of m p)) eqn:Hw.
  - destruct (writable (js_or (prop p "type") (JStr "unknown"))) eqn:Hwt; cbn [andb].
    + mrun. rewrite Hn. mrun. out_norm. reflexivity.
    + mrun. rewrite Hn. mrun. rewrite (timer_fail _ _ (or_intror Hwt)). mrun.
      out_norm. reflexivity.
  - unfold mbind at 1, M_bind at 1. rewrite (counter_inc_fail _ _ Hw).
    mrun. out_norm. reflexivity.
Qed.

(** ** Canal-JSON arrays in [src/consumer/index.js] *)










Lemma closing_silent t ty : cdc_events (closing t ty) = [] /\ counter_incs (closing t ty) = [].
Proof. unfold closing. destruct (_ && _); split; reflexivity. Qed.






(** ** The same loop in [src/unnamed/part_000] *)













(** ** The email heuristic *)




(** C6, as stated, fails: the test is on truthiness. A payload whose
    [schema] is the empty string has the three fields, is not taken as
    simple protocol, and its type 0 is reported as [unknown] by the
    other branch instead of INSERT. *)
Lemma present_but_empty_schema_is_not_simple :
  exists p,
    payload_of Examples.empty_schema = Some p /\
    prop p "schema" = JStr "" /\ prop p "table" = JStr "users" /\
    prop p "type" = JNum 0 /\
    Split.isSimple p = false /\
    map (fun ev => (prop ev "operation_type", prop ev "protocol"))
      (cdc_events (out (Split.deliver Examples.empty_schema (Split.constructor 0))))
      = [(JStr "unknown", JUndefined)].
Proof. eexists. repeat split. Qed.

(** C6, amended. A payload whose [schema] and [table] are truthy and
    whose [type] is not undefined is taken as simple protocol; [type] 0,
    1, 2 give INSERT, UPDATE, DELETE and any other value gives
    [unknown]; when the email test of the heuristic does not throw and
    the table has a string conversion, so that the counter does not
    throw, exactly one event is produced, tagged [simple], with one
    counter increment, and its operation is the mapped one, or UPDATE in
    place of INSERT when the heuristic applies. The test does not throw
    when the mapped operation is not INSERT or the email is falsy or a
    string. When the test throws, or the table has no string conversion,
    no event is produced. *)
Theorem truthy_schema_and_table_select_the_simple_protocol (m : message) (p : jsval)
    (s : consumer) :
  payload_of m = Some p ->
  truthy (prop p "schema") = true ->
  truthy (prop p "table") = true ->
  prop p "type" <> JUndefined ->
  Split.isSimple p = true /\
  Split.simple_operation (JNum 0) = "INSERT" /\
  Split.simple_operation (JNum 1) = "UPDATE" /\
  Split.simple_operation (JNum 2) = "DELETE" /\
  (forall ty, ty <> JNum 0 -> ty <> JNum 1 -> ty <> JNum 2 ->
     Split.simple_operation ty = "unknown") /\
  Split.tableName_of m p = prop p "table" /\
  (forall op,
     Split.reclassified (Split.simple_operation (prop p "type")) (Split.simple_data p)
       = Some op ->
     writable (prop p "table") = true ->
     (op = Split.simple_operation (prop p "type") \/
      (Split.simple_operation (prop p "type") = "INSERT" /\ op = "UPDATE")) /\
     cdc_events (out (Split.deliver m s)) =
       cdc_events (out s) ++ [Split.simple_event (clock s) m p op] /\
     prop (Split.simple_event (clock s) m p op) "operation_type" = JStr op /\
     prop (Split.simple_event (clock s) m p op) "protocol" = JStr "simple" /\
     counter_incs (out (Split.deliver m s)) =
       counter_incs (out s) ++ [(Split.tableName_of m p, JStr (toLowerCase op))] /\
     recentDeletes (Split.deliver m s) = recentDeletes s /\
     timeouts (Split.deliver m s) = timeouts s) /\
  (Split.simple_operation (prop p "type") <> "INSERT" \/
   truthy (prop (Split.simple_data p) "email") = false \/
   (exists e, prop (Split.simple_data p) "email" = JStr e) ->
   exists op,
     Split.reclassified (Split.simple_operation (prop p "type")) (Split.simple_data p)
       = Some op) /\
  (Split.reclassified (Split.simple_operation (prop p "type")) (Split.simple_data p) = None
   \/ writable (prop p "table") = false ->
   cdc_events (out (Split.deliver m s)) = cdc_events (out s) /\
   counter_incs (out (Split.deliver m s)) = counter_incs (out s)).
Proof.
  intros Hp Hsc Htb Hty.
  assert (Hs : Split.isSimple p = true).
  { unfold Split.isSimple. rewrite Hsc, Htb. cbn.
    destruct (prop p "type"); try reflexivity. contradiction. }
  assert (Htab : Split.tableName_of m p = prop p "table").
  { unfold Split.tableName_of, js_or. rewrite Htb. reflexivity. }
  split; [exact Hs|]. do 3 (split; [reflexivity|]).
  split; [|split; [exact Htab|split; [|split]]].
  - intros ty H0 H1 H2. unfold Split.simple_operation, is_num.
    destruct ty as [| |b|n|x|l|l]; try reflexivity. cbn.
    destruct (Z.eqb_spec n 0) as [->|_]; [contradiction|].
    destruct (Z.eqb_spec n 1) as [->|_]; [contradiction|].
    destruct (Z.eqb_spec n 2) as [->|_]; [contradiction|]. reflexivity.
  - intros op Hre Hw. rewrite (deliver_simple m s p Hp Hs), Hre, Htab, Hw.
    cbn [out with_out].
    rewrite !cdc_events_app, !counter_incs_app.
    rewrite (proj1 (closing_silent _ _)), (proj2 (closing_silent _ _)).
    unfold Split.simple_event. rewrite Htab.
    split; [|repeat split].
    unfold Split.reclassified in Hre.
    destruct (String.eqb (Split.simple_operation (prop p "type")) "INSERT") eqn:Hi.
    + apply String.eqb_eq in Hi.
      destruct (truthy (prop (Split.simple_data p) "email"));
        [|injection Hre as <-; left; reflexivity].
      destruct (Split.includes_result _ "updated_") as [u|]; [|discriminate].
      destruct (Split.includes_result _ "mass_update_") as [mu|]; [|discriminate].
      destruct (u || mu); injection Hre as <-; [right; split; [exact Hi|reflexivity] | left; reflexivity].
    + injection Hre as <-. left. reflexivity.
  - intros Hok. unfold Split.reclassified.
    destruct (String.eqb (Split.simple_operation (prop p "type")) "INSERT") eqn:Hi;
      [|eexists; reflexivity].
    apply String.eqb_eq in Hi.
    destruct Hok as [Hne | [Hf | [e He]]]; [contradiction | |].
    + rewrite Hf. eexists; reflexivity.
    + rewrite He. destruct (truthy (JStr e)); eexists; reflexivity.
  - intros Hdrop. rewrite (deliver_simple m s p Hp Hs), Htab.
    assert (Hout : match Split.reclassified (Split.simple_operation (prop p "type"))
                           (Split.simple_data p) with
                   | Some op =>
                       if writable (prop p "table") then
                         with_out (fun o => o ++
                           [cdcEventsCounter_inc (prop p "table") (JStr (toLowerCase op));
                            logger_info "CDC Event" (Split.simple_event (clock s) m p op)] ++
                           closing (prop p "table") (prop p "type")) s
                       else with_out (fun o => o ++ Split.error_effects) s
                   | None => with_out (fun o => o ++ Split.error_effects) s
                   end = with_out (fun o => o ++ Split.error_effects) s).
    { destruct Hdrop as [-> | ->]; [reflexivity|].
      destruct (Split.reclassified _ _); reflexivity. }
    rewrite Hout. cbn [out with_out]. rewrite cdc_events_app, counter_incs_app. cbn.
    rewrite !app_nil_r. split; reflexivity.
Qed.

Lemma truthy_schema_and_table_select_the_simple_protocol_witness :
  exists p,
    payload_of Examples.simple_update = Some p /\
    truthy (prop p "schema") = true /\ truthy (prop p "table") = true /\
    prop p "type" <> JUndefined /\
    Split.isSimple p = true /\
    map (fun ev => prop ev "operation_type")
      (cdc_events (out (Split.deliver Examples.simple_update (Split.constructor 0))))
      = [JStr "UPDATE"].
Proof.
  eexists. split; [reflexivity|]. split; [reflexivity|]. split; [reflexivity|].
  split; [discriminate|].
  destruct (truthy_schema_and_table_select_the_simple_protocol Examples.simple_update _
              (Split.constructor 0) eq_refl eq_refl eq_refl ltac:(discriminate))
    as (Hs & _ & _ & _ & _ & _ & Hev & _).
  split; [exact Hs|].
  destruct (Hev "UPDATE" eq_refl eq_refl) as (_ & -> & _). reflexivity.
Defined.

(** ** Other operation tags of the correlation branch *)

Lemma deliver_other m s p :
  payload_of m = Some p ->
  nullish p = false ->
  Split.isSimple p = false ->
  is_str (prop p "type") "WATERMARK" = false ->
  is_str (prop p "type") "BOOTSTRAP" = false ->
  is_str (prop p "type") "DELETE" = false ->
  is_str (prop p "type") "INSERT" = false ->
  Split.deliver m s =
    match js_or (prop p "type") (JStr "unknown") with
    | JStr tag =>
        if writable (Split.tableName_of m p) then
          with_out (fun o => o ++
            [cdcEventsCounter_inc (Split.tableName_of m p) (JStr (toLowerCase tag));
             logger_info "CDC Event"
               (Split.other_event (clock s) m (Split.tableName_of m p) (JStr tag) p);
             kafkaMessagesTotal_inc;
             cdcProcessingDuration_observe (Split.tableName_of m p) (JStr tag)]) s
        else with_out (fun o => o ++ Split.error_effects) s
    | _ => with_out (fun o => o ++ Split.error_effects) s
    end.
Proof.
  intros Hp Hn Hs Hw Hb Hd Hi.
  unfold Split.deliver, Split.run.
  rewrite (processCDCMessage_parsed _ _ p Hp Hn), Hs.
  unfold Split.splitUpdate. unfold try_catch.
  unfold mbind at 1, M_bind at 1. unfold get at 1. rewrite Hn.
  unfold mret at 1, M_ret at 1. rewrite Hw, Hb. cbn [orb].
  do 3 (unfold mbind at 1, M_bind at 1; unfold get at 1; rewrite Hn;
        unfold mret at 1, M_ret at 1).
  assert (Hd' : is_str (js_or (prop p "type") (JStr "unknown")) "DELETE" = false).
  { unfold js_or. destruct (truthy _); [exact Hd | reflexivity]. }
  assert (Hi' : is_str (js_or (prop p "type") (JStr "unknown")) "INSERT" = false).
  { unfold js_or. destruct (truthy _); [exact Hi | reflexivity]. }
  rewrite Hd'. cbn [andb].
  unfold mbind at 1, M_bind at 1; unfold get at 1; rewrite Hn;
        unfold mret at 1, M_ret at 1.
  rewrite Hi'. cbn [andb].
  unfold Split.handleOther. fold (Split.tableName_of m p).
  destruct (js_or (prop p "type") (JStr "unknown")) eqn:Hop;
    try (mrun; out_norm; reflexivity).
  destruct (writable (Split.tableName_of m p)) eqn:Hwt.
  - mrun. rewrite Hop. mrun. out_norm. reflexivity.
  - mrun. rewrite (counter_inc_fail _ _ Hwt). mrun. out_norm. reflexivity.
Qed.

(** C9, as stated, fails for a tag that is not a string: with the
    number 5 as [type] no event is emitted at all; the error counter is
    incremented instead. *)
Lemma numeric_tag_emits_no_event :
  exists p,
    payload_of Examples.numeric_tag = Some p /\
    Split.isSimple p = false /\
    prop p "type" = JNum 5 /\
    let s := Split.deliver Examples.numeric_tag (Split.constructor 0) in
    cdc_events (out s) = [] /\ counter_incs (out s) = [] /\
    out s = Split.error_effects.
Proof. eexists. repeat split. Qed.

(** C9, amended. On the correlation branch, for a tag other than
    INSERT, DELETE, WATERMARK and BOOTSTRAP: when the tag is a string, or
    falsy, and the table has a string conversion, exactly one event is
    emitted, carrying the tag as it is, or [unknown] when it is falsy,
    with one counter increment under the table and, for an ASCII tag,
    the lower-cased tag; when the tag is truthy and not a string, or the
    table has no string conversion, no event is emitted and the failure
    is counted as an error. In every case the delivery returns normally,
    no entry and no timeout is touched, and the next message is
    processed as it would have been. *)
Theorem other_tags_pass_through (m : message) (p : jsval) (s : consumer) :
  payload_of m = Some p ->
  nullish p = false ->
  Split.isSimple p = false ->
  is_str (prop p "type") "WATERMARK" = false ->
  is_str (prop p "type") "BOOTSTRAP" = false ->
  is_str (prop p "type") "DELETE" = false ->
  is_str (prop p "type") "INSERT" = false ->
  let s' := Split.deliver m s in
  let operationType := js_or (prop p "type") (JStr "unknown") in
  Split.processCDCMessage m s = (s', Some tt) /\
  Split.step (Split.Deliver m) s = Some s' /\
  (forall tag, operationType = JStr tag ->
     writable (Split.tableName_of m p) = true ->
     cdc_events (out s') =
       cdc_events (out s) ++
       [Split.other_event (clock s) m (Split.tableName_of m p) (JStr tag) p] /\
     exists label,
       counter_incs (out s') =
         counter_incs (out s) ++ [(Split.tableName_of m p, JStr label)] /\
       (ascii_only tag = true -> label = toLowerCase tag)) /\
  ((forall tag, operationType <> JStr tag) \/ writable (Split.tableName_of m p) = false ->
     out s' = out s ++
       [logger_error "Error processing CDC message:";
        kafkaErrorsTotal_inc;
        cdcProcessingDuration_observe (JStr "error") (JStr "error")]) /\
  (truthy (prop p "type") = false -> operationType = JStr "unknown") /\
  (forall tag, prop p "type" = JStr tag -> tag <> "" -> operationType = JStr tag) /\
  recentDeletes s' = recentDeletes s /\
  timeouts s' = timeouts s /\
  next_handle s' = next_handle s /\
  forall m',
    produced m' s' = produced m' s /\
    recentDeletes (Split.deliver m' s') = recentDeletes (Split.deliver m' s) /\
    timeouts (Split.deliver m' s') = timeouts (Split.deliver m' s).
Proof.
  intros Hp Hn Hs Hw Hb Hd Hi s' operationType.
  pose proof (deliver_other m s p Hp Hn Hs Hw Hb Hd Hi) as Heq.
  fold s' in Heq. fold operationType in Heq.
  assert (Hshape : exists es, s' = with_out (fun o => o ++ es) s).
  { destruct operationType; try (eexists; exact Heq).
    destruct (writable (Split.tableName_of m p)); eexists; exact Heq. }
  destruct Hshape as [es Hes].
  split.
  { pose proof (processCDCMessage_returns m s) as Hr. subst s'.
    unfold Split.deliver, Split.run.
    destruct (Split.processCDCMessage m s) as [s1 r]. cbn in *. rewrite Hr. reflexivity. }
  split; [reflexivity|].
  split; [|split; [|split; [|split; [|split; [|split; [|split]]]]]].
  - intros tag Htag Hwt. rewrite Htag, Hwt in Heq. rewrite Heq. cbn [out with_out].
    rewrite cdc_events_app, counter_incs_app. split; [reflexivity|].
    exists (toLowerCase tag). split; [reflexivity | intros _; reflexivity].
  - intros Hns. rewrite Heq. destruct operationType; try reflexivity.
    destruct Hns as [Hns | ->]; [|reflexivity].
    exfalso. eapply Hns. reflexivity.
  - intros Hf. subst operationType. unfold js_or. rewrite Hf. reflexivity.
  - intros tag Htag Hne. subst operationType. unfold js_or. rewrite Htag. cbn.
    destruct (String.eqb_spec tag ""); [contradiction|reflexivity].
  - rewrite Hes. reflexivity.
  - rewrite Hes. reflexivity.
  - rewrite Hes. reflexivity.
  - intros m'. rewrite Hes.
    assert (Hprod : produced m' (with_out (fun o => o ++ es) s) = produced m' s)
      by (unfold produced; destruct s; reflexivity).
    split; [exact Hprod|]. rewrite deliver_with_out. split; reflexivity.
Qed.

Lemma other_tags_pass_through_witness :
  exists p,
    payload_of Examples.truncate_tag = Some p /\
    Split.isSimple p = false /\
    map (fun ev => prop ev "operation_type")
      (cdc_events (out (Split.deliver Examples.truncate_tag (Split.constructor 0))))
      = [JStr "TRUNCATE"] /\
    counter_incs (out (Split.deliver Examples.truncate_tag (Split.constructor 0)))
      = [(JStr "users", JStr "truncate")].
Proof.
  eexists. split; [reflexivity|]. split; [reflexivity|].
  destruct (other_tags_pass_through Examples.truncate_tag _ (Split.constructor 0)
              eq_refl eq_refl eq_refl eq_refl eq_refl eq_refl eq_refl)
    as (_ & _ & Hone & _).
  destruct (Hone "TRUNCATE" eq_refl eq_refl) as (-> & label & -> & Hlabel).
  rewrite (Hlabel eq_refl). split; reflexivity.
Defined.

(** ** At most one emission per pending delete *)

Lemma collapsed_app o1 o2 : collapsed (o1 ++ o2) = (collapsed o1 + collapsed o2)%nat.
Proof. induction o1 as [|e o1 IH]; cbn; [reflexivity|]. rewrite IH. lia. Qed.

Lemma paid_refl s : paid s s.
Proof. unfold paid. lia. Qed.

Lemma paid_trans s1 s2 s3 : paid s1 s2 -> paid s2 s3 -> paid s1 s3.
Proof. unfold paid. lia. Qed.

Lemma paid_emit e s : is_collapse e = false -> paid s (with_out (fun o => o ++ [e]) s).
Proof.
  intros He. unfold paid. cbn. rewrite collapsed_app. cbn. rewrite He. lia.
Qed.

Lemma respects_ret {A} (a : A) : respects (mret a).
Proof. intros s. apply paid_refl. Qed.

Lemma respects_throw {A} : respects (@throw A).
Proof. intros s. apply paid_refl. Qed.

Lemma respects_bind {A B} (m : M A) (f : A -> M B) :
  respects m -> (forall a, respects (f a)) -> respects (m ≫= f).
Proof.
  intros Hm Hf s. unfold mbind, M_bind. specialize (Hm s).
  destruct (m s) as [s1 [a|]]; cbn in *; [|exact Hm].
  eapply paid_trans; [exact Hm | apply Hf].
Qed.

Lemma respects_try_catch {A} (body handler : M A) :
  respects body -> respects handler -> respects (try_catch body handler).
Proof.
  intros Hb Hh s. unfold try_catch. specialize (Hb s).
  destruct (body s) as [s1 [a|]]; cbn in *; [exact Hb|].
  eapply paid_trans; [exact Hb | apply Hh].
Qed.

Lemma respects_emit e : is_collapse e = false -> respects (emit e).
Proof. intros He s. apply paid_emit, He. Qed.

Lemma respects_counter_inc t o : respects (counter_inc t o).
Proof.
  unfold counter_inc.
  destruct (_ && _); [apply respects_emit; reflexivity | apply respects_throw].
Qed.

Lemma respects_timer t o : respects (timer t o).
Proof.
  unfold timer.
  destruct (_ && _); [apply respects_emit; reflexivity | apply respects_throw].
Qed.

Lemma respects_log_info msg meta : is_collapse (logger_info msg meta) = false ->
  respects (log_info msg meta).
Proof.
  intros He. unfold log_info.
  destruct (_ && _); [apply respects_throw | apply respects_emit, He].
Qed.

Lemma interpolate_unwritable t rest : writable t = false -> interpolate (t :: rest) = None.
Proof.
  unfold interpolate, writable. cbn [foldr].
  destruct (toString t); [discriminate | reflexivity].
Qed.

Lemma respects_get v k : respects (get v k).
Proof. unfold get. destruct (nullish v); [apply respects_throw | apply respects_ret]. Qed.

Lemma respects_JSON_parse b : respects (JSON_parse b).
Proof.
  destruct b as [[t [v|]]|]; cbn; first [apply respects_ret | apply respects_throw].
Qed.

Lemma respects_call_toLowerCase x : respects (call_toLowerCase x).
Proof. destruct x; cbn; first [apply respects_ret | apply respects_throw]. Qed.

Lemma respects_call_includes x lit : respects (call_includes x lit).
Proof. destruct x; cbn; first [apply respects_ret | apply respects_throw]. Qed.

Lemma respects_Date_now : respects Date_now.
Proof. intros s. apply paid_refl. Qed.

Create HintDb respects.
#[export] Hint Resolve respects_ret respects_throw respects_get respects_JSON_parse
  respects_call_toLowerCase respects_call_includes respects_Date_now
  respects_counter_inc respects_timer : respects.

Ltac respects_step :=
  match goal with
  | |- respects (_ ≫= _) => apply respects_bind; [|intros]
  | |- respects (try_catch _ _) => apply respects_try_catch
  | |- respects (emit _) => apply respects_emit; reflexivity
  | |- respects (log_info _ _) => apply respects_log_info; reflexivity
  | |- respects (if ?b then _ else _) => destruct b
  | |- respects (match ?x with _ => _ end) => destruct x
  | |- respects (let _ := _ in _) => cbn zeta
  | |- respects _ => solve [auto with respects]
  end.

Ltac respects_auto := repeat respects_step.

Lemma respects_finish t ty : respects (Split.finish t ty).
Proof. unfold Split.finish. respects_auto. Qed.

Lemma respects_parseKey m : respects (Split.parseKey m).
Proof. unfold Split.parseKey. respects_auto. Qed.

Lemma respects_parseValue m : respects (Split.parseValue m).
Proof. unfold Split.parseValue. respects_auto. Qed.

Lemma respects_demo_reclassify op d : respects (Split.demo_reclassify op d).
Proof. unfold Split.demo_reclassify. respects_auto. Qed.

#[export] Hint Resolve respects_finish respects_parseKey respects_parseValue
  respects_demo_reclassify : respects.

Lemma respects_simpleProtocol m mk tn rid p :
  respects (Split.simpleProtocol m mk tn rid p).
Proof. unfold Split.simpleProtocol. respects_auto. Qed.

Lemma respects_control m mk p ty : respects (Split.control m mk p ty).
Proof. unfold Split.control. respects_auto. Qed.

Lemma respects_handleOther m mk tn op p ty : respects (Split.handleOther m mk tn op p ty).
Proof. unfold Split.handleOther. respects_auto. Qed.

(** The two blocks that touch the store: the entry a DELETE adds is paid
    for by the timeout it arms; the UPDATE an INSERT writes is paid for
    by the entry it removes. *)
Lemma respects_trackDelete m mk tn p ts old rid :
  respects (Split.trackDelete m mk tn p ts old rid).
Proof.
  intros s. unfold Split.trackDelete.
  destruct (writable tn) eqn:Hw;
    [|munfold; rewrite (interpolate_unwritable _ _ Hw); cbn; apply paid_refl].
  mrun.
  destruct (interpolate _) as [k|]; cbn; [|apply paid_refl].
  unfold paid. cbn. rewrite !collapsed_app. cbn.
  pose proof (map_size_insert k
    {| commitTs := ts; timestamp := clock s; data := old; armed := next_handle s |}
    (recentDeletes s)) as Hsz.
  destruct (recentDeletes s !! k); unfold id in Hsz; lia.
Qed.

Lemma respects_handleInsert m mk tn ts d : respects (Split.handleInsert m mk tn ts d).
Proof.
  intros s. unfold Split.handleInsert, Split.matchingDelete.
  destruct (writable tn) eqn:Hw.
  2:{ destruct (negb (strict_equals false (Split.extractRecordId d) JNull)).
      - munfold. rewrite (interpolate_unwritable _ _ Hw). cbn. apply paid_refl.
      - munfold. rewrite (counter_inc_fail _ _ Hw). cbn. apply paid_refl. }
  destruct (negb (strict_equals false (Split.extractRecordId d) JNull)).
  - mrun. destruct (interpolate _) as [k|]; cbn; [|apply paid_refl].
    destruct (recentDeletes s !! k) as [[ts' tm d' a]|] eqn:Hk; cbn.
    + destruct (strict_equals false ts' ts); cbn; mrun.
      * unfold paid. cbn. rewrite !collapsed_app. cbn.
        pose proof (map_size_delete k (recentDeletes s)) as Hsz. rewrite Hk in Hsz.
        assert (Hpos : size (recentDeletes s) <> 0%nat).
        { intros H0. apply map_size_empty_inv in H0. rewrite H0 in Hk. discriminate. }
        destruct (size (recentDeletes s)) as [|n]; [contradiction|].
        cbn in Hsz. lia.
      * unfold paid. cbn. rewrite !collapsed_app. cbn. lia.
    + mrun. unfold paid. cbn. rewrite !collapsed_app. cbn. lia.
  - mrun. cbn. unfold paid. cbn. rewrite !collapsed_app. cbn. lia.
Qed.

#[export] Hint Resolve respects_simpleProtocol respects_control respects_handleOther
  respects_trackDelete respects_handleInsert : respects.

Lemma respects_splitUpdate m mk tn p : respects (Split.splitUpdate m mk tn p).
Proof. unfold Split.splitUpdate. respects_auto. Qed.

#[export] Hint Resolve respects_splitUpdate : respects.










(** * More facts about [src/unnamed/part_001] *)

(** ** Every branch of a delivery *)

Lemma deliver_nullish m s p :
  payload_of m = Some p -> nullish p = true ->
  Split.deliver m s = with_out (fun o => o ++ Split.parse_failure_effects m) s.
Proof.
  intros Hp Hn. unfold Split.deliver, Split.run, Split.processCDCMessage, try_catch.
  unfold mbind at 1, M_bind at 1. rewrite parseKey_pure.
  destruct (Split.keyInfo m) as [[mk tn] rid].
  unfold mbind at 1, M_bind at 1.
  unfold payload_of in Hp. unfold Split.parseValue. munfold.
  destruct (value m) as [[t [v|]]|]; try discriminate. injection Hp as ->.
  rewrite Hn. mrun. out_norm. reflexivity.
Qed.

Lemma is_str_eq v lit : is_str v lit = true -> v = JStr lit.
Proof.
  unfold is_str. destruct v; cbn; try discriminate.
  intros H. apply String.eqb_eq in H. subst. reflexivity.
Qed.

Lemma is_control_tag p :
  is_control p = true ->
  exists tag, prop p "type" = JStr tag /\ (tag = "WATERMARK" \/ tag = "BOOTSTRAP").
Proof.
  unfold is_control. intros H. apply orb_prop in H as [H|H]; apply is_str_eq in H;
    eexists; (split; [exact H|]); [left|right]; reflexivity.
Qed.

Lemma deliver_control m s p tag :
  payload_of m = Some p ->
  Split.isSimple p = false ->
  prop p "type" = JStr tag -> tag = "WATERMARK" \/ tag = "BOOTSTRAP" ->
  Split.deliver m s =
    with_out (fun o => o ++
      [cdcEventsCounter_inc (JStr "unknown") (JStr (toLowerCase tag));
       logger_info "CDC Event" (control_event (clock s) m p);
       kafkaMessagesTotal_inc;
       cdcProcessingDuration_observe (JStr "unknown") (JStr (toLowerCase tag))]) s.
Proof.
  intros Hp Hs Hty Htag.
  assert (Hn : nullish p = false) by (apply (prop_nullish p "type"); rewrite Hty; discriminate).
  unfold Split.deliver, Split.run.
  rewrite (processCDCMessage_parsed _ _ p Hp Hn), Hs.
  unfold Split.splitUpdate, try_catch.
  unfold mbind at 1, M_bind at 1. unfold get at 1. rewrite Hn.
  unfold mret at 1, M_ret at 1. rewrite Hty.
  unfold control_event. rewrite Hty.
  destruct Htag as [-> | ->]; cbn; unfold Split.control; mrun; out_norm; reflexivity.
Qed.

(** Past the control tags, with the three reads done. *)
Lemma splitUpdate_past_control m s p :
  nullish p = false ->
  is_control p = false ->
  Split.splitUpdate m (Split.messageKey_of m) (Split.key_tableName m) p s =
    (if delete_candidate p
     then Split.trackDelete m (Split.messageKey_of m) (Split.tableName_of m p) p
            (prop p "commitTs") (prop p "old") (Split.extractRecordId (prop p "old"))
     else if insert_candidate p
     then Split.handleInsert m (Split.messageKey_of m) (Split.tableName_of m p)
            (prop p "commitTs") (prop p "data")
     else Split.handleOther m (Split.messageKey_of m) (Split.tableName_of m p)
            (js_or (prop p "type") (JStr "unknown")) p (prop p "type")) s.
Proof.
  intros Hn Hc. unfold Split.splitUpdate, is_control in *.
  unfold mbind at 1, M_bind at 1. unfold get at 1. rewrite Hn.
  unfold mret at 1, M_ret at 1. rewrite Hc.
  do 3 (unfold mbind at 1, M_bind at 1; unfold get at 1; rewrite Hn;
        unfold mret at 1, M_ret at 1).
  fold (delete_candidate p). fold (Split.tableName_of m p).
  destruct (delete_candidate p); [reflexivity|].
  unfold mbind at 1, M_bind at 1; unfold get at 1; rewrite Hn;
        unfold mret at 1, M_ret at 1.
  fold (insert_candidate p). reflexivity.
Qed.

Lemma deliver_past_control m s p :
  payload_of m = Some p -> nullish p = false ->
  Split.isSimple p = false -> is_control p = false ->
  Split.deliver m s =
    (try_catch
       (if delete_candidate p
        then Split.trackDelete m (Split.messageKey_of m) (Split.tableName_of m p) p
               (prop p "commitTs") (prop p "old") (Split.extractRecordId (prop p "old"))
        else if insert_candidate p
        then Split.handleInsert m (Split.messageKey_of m) (Split.tableName_of m p)
               (prop p "commitTs") (prop p "data")
        else Split.handleOther m (Split.messageKey_of m) (Split.tableName_of m p)
               (js_or (prop p "type") (JStr "unknown")) p (prop p "type"))
       (emit (logger_error "Error processing CDC message:");;
        emit kafkaErrorsTotal_inc;;
        timer (JStr "error") (JStr "error")) s).1.
Proof.
  intros Hp Hn Hs Hc. unfold Split.deliver, Split.run.
  rewrite (processCDCMessage_parsed _ _ p Hp Hn), Hs.
  unfold try_catch. rewrite (splitUpdate_past_control m s p Hn Hc). reflexivity.
Qed.

Lemma delete_candidate_tracked m p k :
  payload_of m = Some p -> Split.isSimple p = false -> delete_candidate p = true ->
  Split.deleteKey_of (Split.tableName_of m p) (Split.extractRecordId (prop p "old")) = Some k ->
  Split.tracked_delete m p k.
Proof.
  intros Hp Hs Hd Hk. unfold delete_candidate in Hd.
  apply andb_prop in Hd as [Hd Hrid]. apply andb_prop in Hd as [Hty Hold].
  apply negb_true_iff in Hrid. apply is_str_eq in Hty.
  assert (prop p "type" = JStr "DELETE").
  { unfold js_or in Hty. destruct (truthy (prop p "type")); [exact Hty|discriminate]. }
  repeat split; assumption.
Qed.

Lemma insert_candidate_split m p :
  payload_of m = Some p -> Split.isSimple p = false -> insert_candidate p = true ->
  Split.split_insert m p.
Proof.
  intros Hp Hs Hi. unfold insert_candidate in Hi.
  apply andb_prop in Hi as [Hty Hd]. apply is_str_eq in Hty.
  assert (prop p "type" = JStr "INSERT").
  { unfold js_or in Hty. destruct (truthy (prop p "type")); [exact Hty|discriminate]. }
  repeat split; assumption.
Qed.

(** A DELETE whose key cannot be written is dropped as an error. *)
Lemma deliver_delete_unwritable m s p :
  payload_of m = Some p -> nullish p = false ->
  Split.isSimple p = false -> is_control p = false ->
  delete_candidate p = true ->
  Split.deleteKey_of (Split.tableName_of m p) (Split.extractRecordId (prop p "old")) = None ->
  Split.deliver m s = with_out (fun o => o ++ Split.error_effects) s.
Proof.
  intros Hp Hn Hs Hc Hd Hk.
  rewrite (deliver_past_control m s p Hp Hn Hs Hc), Hd.
  unfold Split.trackDelete, try_catch. munfold.
  unfold Split.deleteKey_of in Hk. rewrite Hk. mrun. out_norm. reflexivity.
Qed.

Lemma deliver_insert_unwritable_key m s p :
  payload_of m = Some p -> nullish p = false ->
  Split.isSimple p = false -> is_control p = false ->
  delete_candidate p = false -> insert_candidate p = true ->
  strict_equals false (Split.extractRecordId (prop p "data")) JNull = false ->
  Split.deleteKey_of (Split.tableName_of m p) (Split.extractRecordId (prop p "data")) = None ->
  Split.deliver m s = with_out (fun o => o ++ Split.error_effects) s.
Proof.
  intros Hp Hn Hs Hc Hd Hi Hrid Hk.
  rewrite (deliver_past_control m s p Hp Hn Hs Hc), Hd, Hi.
  unfold Split.handleInsert, Split.matchingDelete, try_catch. rewrite Hrid.
  cbn [negb]. munfold.
  unfold Split.deleteKey_of in Hk. rewrite Hk. mrun. out_norm. reflexivity.
Qed.

Lemma deliver_other_branch m s p :
  payload_of m = Some p -> nullish p = false ->
  Split.isSimple p = false -> is_control p = false ->
  delete_candidate p = false -> insert_candidate p = false ->
  Split.deliver m s =
    match js_or (prop p "type") (JStr "unknown") with
    | JStr tag =>
        if writable (Split.tableName_of m p) then
          with_out (fun o => o ++
            [cdcEventsCounter_inc (Split.tableName_of m p) (JStr (toLowerCase tag));
             logger_info "CDC Event"
               (Split.other_event (clock s) m (Split.tableName_of m p) (JStr tag) p);
             kafkaMessagesTotal_inc;
             cdcProcessingDuration_observe (Split.tableName_of m p) (JStr tag)]) s
        else with_out (fun o => o ++ Split.error_effects) s
    | _ => with_out (fun o => o ++ Split.error_effects) s
    end.
Proof.
  intros Hp Hn Hs Hc Hd Hi.
  rewrite (deliver_past_control m s p Hp Hn Hs Hc), Hd, Hi.
  unfold Split.handleOther.
  destruct (js_or (prop p "type") (JStr "unknown")) eqn:Hop;
    try (mrun; out_norm; reflexivity).
  destruct (writable (Split.tableName_of m p)) eqn:Hwt.
  - mrun. rewrite Hop. mrun. out_norm. reflexivity.
  - mrun. rewrite (counter_inc_fail _ _ Hwt). mrun. out_norm. reflexivity.
Qed.

(** Whatever the message, the delivery goes one of the ways listed. *)
Lemma deliver_delivered m s : delivered m s (Split.deliver m s).
Proof.
  destruct (payload_of m) as [p|] eqn:Hp.
  2:{ rewrite (deliver_unparsable m s Hp). constructor. left. exact Hp. }
  destruct (nullish p) eqn:Hn.
  { rewrite (deliver_nullish m s p Hp Hn). constructor. right. eauto. }
  destruct (Split.isSimple p) eqn:Hs.
  { rewrite (deliver_simple m s p Hp Hs).
    destruct (Split.reclassified _ _) as [op|] eqn:Hre.
    - destruct (writable (Split.tableName_of m p)) eqn:Hw.
      + eapply delivered_simple; eassumption.
      + eapply delivered_failed; [eassumption..|]. left. split; [assumption|].
        right. exact Hw.
    - eapply delivered_failed; [eassumption..|]. left. split; [assumption|].
      left. exact Hre. }
  destruct (is_control p) eqn:Hc.
  { destruct (is_control_tag p Hc) as (tag & Hty & Htag).
    rewrite (deliver_control m s p tag Hp Hs Hty Htag).
    eapply delivered_control; eassumption. }
  destruct (delete_candidate p) eqn:Hd.
  { destruct (Split.deleteKey_of (Split.tableName_of m p)
                (Split.extractRecordId (prop p "old"))) as [k|] eqn:Hk.
    - pose proof (delete_candidate_tracked m p k Hp Hs Hd Hk) as Htr.
      rewrite (tracked_delete_delivered m p k s Htr). apply delivered_tracked, Htr.
    - rewrite (deliver_delete_unwritable m s p Hp Hn Hs Hc Hd Hk).
      eapply delivered_failed; [eassumption..|]. right. left. repeat split; assumption. }
  destruct (insert_candidate p) eqn:Hi.
  { pose proof (insert_candidate_split m p Hp Hs Hi) as Hsp.
    destruct Hsp as (_ & _ & Hty & Hdata).
    destruct (writable (Split.tableName_of m p)) eqn:Hw.
    2:{ rewrite (deliver_insert_unwritable m s p Hp Hs Hty Hdata Hw).
        eapply delivered_failed; [eassumption..|]. right. right. left.
        repeat split; try assumption. left. exact Hw. }
    destruct (strict_equals false (Split.extractRecordId (prop p "data")) JNull) eqn:Hrid.
    { rewrite (deliver_insert_unmatched m s p Hp Hs Hty Hdata) by (assumption || left; exact Hrid).
      apply delivered_insert; [repeat split; assumption | left; exact Hrid | exact Hw]. }
    destruct (Split.deleteKey_of (Split.tableName_of m p)
                (Split.extractRecordId (prop p "data"))) as [k|] eqn:Hk.
    2:{ rewrite (deliver_insert_unwritable_key m s p Hp Hn Hs Hc Hd Hi Hrid Hk).
        eapply delivered_failed; [eassumption..|]. right. right. left.
        repeat split; try assumption. right. split; assumption. }
    destruct (recentDeletes s !! k) as [e|] eqn:He.
    2:{ assert (Hu : Split.unmatched s (Split.tableName_of m p)
                       (Split.extractRecordId (prop p "data")) (prop p "commitTs")).
        { right. exists k. split; [exact Hk|]. rewrite He. constructor. }
        rewrite (deliver_insert_unmatched m s p Hp Hs Hty Hdata Hu Hw).
        apply delivered_insert; [repeat split; assumption | exact Hu | exact Hw]. }
    destruct (strict_equals false (commitTs e) (prop p "commitTs")) eqn:Hts.
    - rewrite (deliver_insert_matched m s p k e Hp Hs Hty Hdata Hrid Hk He Hts).
      eapply delivered_update; try eassumption. repeat split; assumption.
    - assert (Hu : Split.unmatched s (Split.tableName_of m p)
                     (Split.extractRecordId (prop p "data")) (prop p "commitTs")).
      { right. exists k. split; [exact Hk|]. rewrite He. exact Hts. }
      rewrite (deliver_insert_unmatched m s p Hp Hs Hty Hdata Hu Hw).
      apply delivered_insert; [repeat split; assumption | exact Hu | exact Hw]. }
  rewrite (deliver_other_branch m s p Hp Hn Hs Hc Hd Hi).
  destruct (js_or (prop p "type") (JStr "unknown")) eqn:Hop;
    try (eapply delivered_failed; [eassumption..|]; right; right; right;
         repeat split; try assumption; left; rewrite Hop; discriminate).
  destruct (writable (Split.tableName_of m p)) eqn:Hw.
  - eapply delivered_other; eassumption.
  - eapply delivered_failed; [eassumption..|]. right. right. right.
    repeat split; try assumption. right. exact Hw.
Qed.

(** ** What keeps a timeout pending, and what keeps it silent *)








(** ** DELETE followed by its INSERT *)




(** ** A DELETE superseded by a later DELETE *)




(** ** [extractRecordId] *)

(** X1. [extractRecordId] returns the [id] field whenever the image is
    truthy and has one, whatever its value: 0, the empty string and
    [false] are identities, and a [null] id is returned as it is, so that
    the record has no identity even when it has a username. Without an
    [id] it returns the username when truthy, else the email when truthy;
    it returns [null] in exactly the remaining cases. *)
Theorem extractRecordId_priority (d : jsval) :
  (truthy d = true -> prop d "id" <> JUndefined ->
     Split.extractRecordId d = prop d "id") /\
  (truthy d = true -> prop d "id" = JUndefined -> truthy (prop d "username") = true ->
     Split.extractRecordId d = prop d "username") /\
  (truthy d = true -> prop d "id" = JUndefined -> truthy (prop d "username") = false ->
     truthy (prop d "email") = true ->
     Split.extractRecordId d = prop d "email") /\
  (Split.extractRecordId d = JNull <->
     truthy d = false \/ prop d "id" = JNull \/
     (prop d "id" = JUndefined /\ truthy (prop d "username") = false /\
      truthy (prop d "email") = false)).
Proof.
  unfold Split.extractRecordId.
  split; [|split; [|split]].
  - intros Ht Hid. rewrite Ht. cbn.
    destruct (prop d "id"); try reflexivity. contradiction.
  - intros Ht Hid Hu. rewrite Ht, Hid, Hu. reflexivity.
  - intros Ht Hid Hu He. rewrite Ht, Hid, Hu, He. reflexivity.
  - destruct (truthy d) eqn:Ht; cbn [andb].
    2:{ split; [intros _; left; reflexivity | reflexivity]. }
    destruct (prop d "id") eqn:Hid; cbn [strict_equals negb].
    + destruct (truthy (prop d "username")) eqn:Hu.
      * split.
        -- intros H. rewrite H in Hu. discriminate.
        -- intros [H | [H | (_ & H & _)]]; discriminate.
      * destruct (truthy (prop d "email")) eqn:He.
        -- split.
           ++ intros H. rewrite H in He. discriminate.
           ++ intros [H | [H | (_ & _ & H)]]; discriminate.
        -- split; [intros _; right; right; repeat split | reflexivity].
    + split; [intros _; right; left; reflexivity | reflexivity].
    + split; [discriminate | intros [H | [H | (H & _)]]; discriminate].
    + split; [discriminate | intros [H | [H | (H & _)]]; discriminate].
    + split; [discriminate | intros [H | [H | (H & _)]]; discriminate].
    + split; [discriminate | intros [H | [H | (H & _)]]; discriminate].
    + split; [discriminate | intros [H | [H | (H & _)]]; discriminate].
Qed.

Lemma extractRecordId_priority_witness :
  Split.extractRecordId (JObj [("id", JNum 0); ("username", JStr "bob")]) = JNum 0 /\
  Split.extractRecordId (JObj [("id", JNull); ("username", JStr "bob")]) = JNull /\
  Split.extractRecordId (JObj [("username", JStr ""); ("email", JStr "b@x.com")])
    = JStr "b@x.com".
Proof.
  split; [|split].
  - exact (proj1 (extractRecordId_priority
                    (JObj [("id", JNum 0); ("username", JStr "bob")]))
             eq_refl ltac:(discriminate)).
  - apply (proj2 (proj2 (proj2 (extractRecordId_priority
                    (JObj [("id", JNull); ("username", JStr "bob")]))))).
    right. left. reflexivity.
  - exact (proj1 (proj2 (proj2 (extractRecordId_priority
                    (JObj [("username", JStr ""); ("email", JStr "b@x.com")]))))
             eq_refl eq_refl eq_refl eq_refl).
Defined.

(** ** Control tags *)

(** X2. A WATERMARK or BOOTSTRAP message outside the simple protocol
    yields exactly one event, whose operation is the tag, whose data is
    the whole payload and whose table is [unknown] whatever table the
    payload or the key names; it is counted under [unknown] and the
    lower-cased tag, and touches neither the pending deletes nor the
    timeouts. *)
Theorem control_tags_are_counted_under_unknown (m : message) (p : jsval) (tag : string)
    (s : consumer) :
  payload_of m = Some p ->
  Split.isSimple p = false ->
  prop p "type" = JStr tag ->
  tag = "WATERMARK" \/ tag = "BOOTSTRAP" ->
  let s' := Split.deliver m s in
  cdc_events (out s') = cdc_events (out s) ++ [control_event (clock s) m p] /\
  prop (control_event (clock s) m p) "table_name" = JStr "unknown" /\
  prop (control_event (clock s) m p) "operation_type" = JStr tag /\
  prop (control_event (clock s) m p) "data" = p /\
  counter_incs (out s') =
    counter_incs (out s) ++ [(JStr "unknown", JStr (toLowerCase tag))] /\
  recentDeletes s' = recentDeletes s /\
  timeouts s' = timeouts s.
Proof.
  intros Hp Hs Hty Htag s'. subst s'.
  rewrite (deliver_control m s p tag Hp Hs Hty Htag). cbn [out with_out recentDeletes timeouts].
  rewrite cdc_events_app, counter_incs_app. cbn. rewrite Hty. repeat split.
Qed.

Lemma control_tags_are_counted_under_unknown_witness :
  exists p,
    payload_of Cases.watermark = Some p /\ prop p "table" = JStr "users" /\
    map (fun ev => prop ev "table_name")
      (cdc_events (out (Split.deliver Cases.watermark (Split.constructor 0))))
      = [JStr "unknown"] /\
    counter_incs (out (Split.deliver Cases.watermark (Split.constructor 0)))
      = [(JStr "unknown", JStr "watermark")].
Proof.
  eexists. split; [reflexivity|]. split; [reflexivity|].
  destruct (control_tags_are_counted_under_unknown Cases.watermark _ "WATERMARK"
              (Split.constructor 0) eq_refl eq_refl eq_refl (or_introl eq_refl))
    as (-> & _ & _ & _ & -> & _).
  split; reflexivity.
Defined.

(** ** DELETE and INSERT messages that are not candidates *)

(** X3. A DELETE without an old image or without a record id, and an
    INSERT without a row image, go through the last branch, store no
    entry and arm no timeout. When the table has a string conversion
    they are emitted at once: one event under the message's own tag
    whose data is the whole payload (not a row image), and one counter
    increment. When it has none, the events counter throws: nothing is
    emitted and the message is counted as an error. *)
Theorem non_candidates_are_emitted_at_once (m : message) (p : jsval) (tag : string)
    (s : consumer) :
  payload_of m = Some p ->
  Split.isSimple p = false ->
  prop p "type" = JStr tag ->
  (tag = "DELETE" /\
   (truthy (prop p "old") = false \/ Split.extractRecordId (prop p "old") = JNull)) \/
  (tag = "INSERT" /\ truthy (prop p "data") = false) ->
  let s' := Split.deliver m s in
  let ev := Split.other_event (clock s) m (Split.tableName_of m p) (JStr tag) p in
  out s' = out s ++
    (if writable (Split.tableName_of m p) then
       [cdcEventsCounter_inc (Split.tableName_of m p) (JStr (toLowerCase tag));
        logger_info "CDC Event" ev;
        kafkaMessagesTotal_inc;
        cdcProcessingDuration_observe (Split.tableName_of m p) (JStr tag)]
     else Split.error_effects) /\
  prop ev "operation_type" = JStr tag /\
  prop ev "data" = p /\
  recentDeletes s' = recentDeletes s /\
  timeouts s' = timeouts s.
Proof.
  intros Hp Hs Hty Hcase s' ev. subst s' ev.
  assert (Hn : nullish p = false) by (apply (prop_nullish p "type"); rewrite Hty; discriminate).
  assert (Hop : js_or (prop p "type") (JStr "unknown") = JStr tag).
  { unfold js_or. rewrite Hty.
    destruct Hcase as [[-> _] | [-> _]]; reflexivity. }
  assert (Hc : is_control p = false).
  { unfold is_control. rewrite Hty. destruct Hcase as [[-> _] | [-> _]]; reflexivity. }
  assert (Hd : delete_candidate p = false).
  { unfold delete_candidate. rewrite Hop.
    destruct Hcase as [[-> [Hold | Hrid]] | [-> _]]; cbn.
    - rewrite Hold. reflexivity.
    - rewrite Hrid. cbn. apply andb_false_r.
    - reflexivity. }
  assert (Hi : insert_candidate p = false).
  { unfold insert_candidate. rewrite Hop.
    destruct Hcase as [[-> _] | [-> Hdata]]; cbn; [reflexivity | exact Hdata]. }
  rewrite (deliver_other_branch m s p Hp Hn Hs Hc Hd Hi), Hop.
  destruct (writable (Split.tableName_of m p)); repeat split.
Qed.

Lemma non_candidates_are_emitted_at_once_witness :
  map (fun ev => prop ev "operation_type")
    (cdc_events (out (Split.deliver Cases.anonymous_delete (Split.constructor 0))))
    = [JStr "DELETE"] /\
  map (fun ev => prop ev "operation_type")
    (cdc_events (out (Split.deliver Cases.null_id_delete (Split.constructor 0))))
    = [JStr "DELETE"] /\
  map (fun ev => prop ev "operation_type")
    (cdc_events (out (Split.deliver Cases.empty_insert (Split.constructor 0))))
    = [JStr "INSERT"].
Proof.
  split; [|split].
  - destruct (non_candidates_are_emitted_at_once Cases.anonymous_delete _ "DELETE"
                (Split.constructor 0) eq_refl eq_refl eq_refl
                (or_introl (conj eq_refl (or_intror eq_refl)))) as (-> & _).
    reflexivity.
  - destruct (non_candidates_are_emitted_at_once Cases.null_id_delete _ "DELETE"
                (Split.constructor 0) eq_refl eq_refl eq_refl
                (or_introl (conj eq_refl (or_intror eq_refl)))) as (-> & _).
    reflexivity.
  - destruct (non_candidates_are_emitted_at_once Cases.empty_insert _ "INSERT"
                (Split.constructor 0) eq_refl eq_refl eq_refl
                (or_intror (conj eq_refl eq_refl))) as (-> & _).
    reflexivity.
Defined.

(** ** The key of [recentDeletes] *)

Lemma append_empty_r (a : string) : String.append a "" = a.
Proof. induction a as [|c a IH]; [reflexivity | exact (f_equal (String c) IH)]. Qed.

Lemma deleteKey_of_spec t r :
  Split.deleteKey_of t r =
    match toString t, toString r with
    | Some a, Some b => Some (String.append a (String.append "_" b))
    | _, _ => None
    end.
Proof.
  unfold Split.deleteKey_of, interpolate. cbn [foldr].
  destruct (toString t) as [a|], (toString r) as [b|]; cbn; try reflexivity.
  pose proof (append_empty_r b) as Hb. cbn in Hb. rewrite Hb. reflexivity.
Qed.

(** X4. The key is the template [tableName_recordId]; it cannot be
    written exactly when the table name or the record id has no string
    conversion, as an object with a [toString] field of its own. A DELETE
    or an INSERT that gets as far as writing such a key is dropped as an
    error: no event, no counter increment, no entry, no timeout; the
    error is logged and counted. *)
Theorem unwritable_key_is_an_error (m : message) (p : jsval) (image : string)
    (s : consumer) :
  payload_of m = Some p ->
  Split.isSimple p = false ->
  (prop p "type" = JStr "DELETE" /\ image = "old") \/
  (prop p "type" = JStr "INSERT" /\ image = "data") ->
  truthy (prop p image) = true ->
  strict_equals false (Split.extractRecordId (prop p image)) JNull = false ->
  toString (Split.tableName_of m p) = None \/
  toString (Split.extractRecordId (prop p image)) = None ->
  let s' := Split.deliver m s in
  Split.deleteKey_of (Split.tableName_of m p) (Split.extractRecordId (prop p image)) = None /\
  out s' = out s ++
    [logger_error "Error processing CDC message:";
     kafkaErrorsTotal_inc;
     cdcProcessingDuration_observe (JStr "error") (JStr "error")] /\
  cdc_events (out s') = cdc_events (out s) /\
  counter_incs (out s') = counter_incs (out s) /\
  recentDeletes s' = recentDeletes s /\
  timeouts s' = timeouts s.
Proof.
  intros Hp Hs Hcase Him Hrid Hstr s'. subst s'.
  assert (Hk : Split.deleteKey_of (Split.tableName_of m p)
                 (Split.extractRecordId (prop p image)) = None).
  { rewrite deleteKey_of_spec. destruct Hstr as [-> | ->]; [reflexivity|].
    destruct (toString _); reflexivity. }
  assert (Hn : nullish p = false).
  { destruct Hcase as [[Hty _] | [Hty _]];
      apply (prop_nullish p "type"); rewrite Hty; discriminate. }
  assert (Heq : Split.deliver m s = with_out (fun o => o ++ Split.error_effects) s).
  { destruct Hcase as [[Hty ->] | [Hty ->]].
    - assert (Hc : is_control p = false) by (unfold is_control; rewrite Hty; reflexivity).
      assert (Hd : delete_candidate p = true).
      { unfold delete_candidate, js_or. rewrite Hty. cbn. rewrite Him, Hrid. reflexivity. }
      exact (deliver_delete_unwritable m s p Hp Hn Hs Hc Hd Hk).
    - assert (Hc : is_control p = false) by (unfold is_control; rewrite Hty; reflexivity).
      assert (Hd : delete_candidate p = false).
      { unfold delete_candidate, js_or. rewrite Hty. reflexivity. }
      assert (Hi : insert_candidate p = true).
      { unfold insert_candidate, js_or. rewrite Hty. cbn. exact Him. }
      exact (deliver_insert_unwritable_key m s p Hp Hn Hs Hc Hd Hi Hrid Hk). }
  split; [exact Hk|]. rewrite Heq. cbn [out with_out recentDeletes timeouts].
  rewrite cdc_events_app, counter_incs_app. cbn. rewrite !app_nil_r. repeat split.
Qed.

Lemma unwritable_key_is_an_error_witness :
  cdc_events (out (Split.deliver Cases.unwritable_delete (Split.constructor 0))) = [] /\
  recentDeletes (Split.deliver Cases.unwritable_delete (Split.constructor 0)) = ∅ /\
  cdc_events (out (Split.deliver Cases.unwritable_insert (Split.constructor 0))) = [].
Proof.
  destruct (unwritable_key_is_an_error Cases.unwritable_delete _ "old" (Split.constructor 0)
              eq_refl eq_refl (or_introl (conj eq_refl eq_refl)) eq_refl eq_refl
              (or_intror eq_refl)) as (_ & _ & Hev & _ & Hst & _).
  destruct (unwritable_key_is_an_error Cases.unwritable_insert _ "data" (Split.constructor 0)
              eq_refl eq_refl (or_intror (conj eq_refl eq_refl)) eq_refl eq_refl
              (or_intror eq_refl)) as (_ & _ & Hev' & _).
  split; [exact Hev|]. split; [exact Hst | exact Hev'].
Defined.

(** ** Accounting over a run *)

Lemma count_app f o1 o2 : count f (o1 ++ o2) = (count f o1 + count f o2)%nat.
Proof. unfold count. rewrite List.filter_app, length_app. reflexivity. Qed.

Lemma counted_twice_not_simple m p :
  payload_of m = Some p -> Split.isSimple p = false -> counted_twice m = false.
Proof. intros Hp Hs. unfold counted_twice. rewrite Hp, Hs. reflexivity. Qed.

Lemma nullish_not_simple p : nullish p = true -> Split.isSimple p = false.
Proof. destruct p; try discriminate; reflexivity. Qed.

Lemma closing_accounting t ty :
  count is_observation (closing t ty) = 1%nat /\
  (count is_consumed (closing t ty) + count is_error (closing t ty)
   = if writable t && writable (js_or ty (JStr "unknown")) then 1 else 2)%nat.
Proof. unfold closing. destruct (_ && _); split; reflexivity. Qed.

Lemma deliver_accounting m s :
  let s' := Split.deliver m s in
  count is_observation (out s') = S (count is_observation (out s)) /\
  (count is_consumed (out s') + count is_error (out s')
   = S (count is_consumed (out s) + count is_error (out s))
     + (if counted_twice m then 1 else 0))%nat.
Proof.
  cbn zeta.
  destruct (deliver_delivered m s)
    as [ [Hp | (p & Hp & Hn)] | p Hp Hn Hcase | p op Hp Hs Hre Hw
       | p tag Hp Hs Hty Htag | p k Htr | p k e Hsp Hrid Hk He Hts
       | p Hsp Hu Hw | p tag Hp Hn Hs Hc Hd Hi Hop Hw ];
    cbn [out with_out]; rewrite !count_app.
  - unfold counted_twice. rewrite Hp. cbn. lia.
  - rewrite (counted_twice_not_simple m p Hp (nullish_not_simple p Hn)). cbn. lia.
  - assert (Hct : counted_twice m = false).
    { destruct Hcase as [(Hs & [Hre | Hw]) | [(Hs & _) | [(Hs & _) | (Hs & _)]]];
        try exact (counted_twice_not_simple m p Hp Hs).
      - unfold counted_twice. rewrite Hp, Hs, Hre. reflexivity.
      - unfold counted_twice. rewrite Hp, Hs, Hw.
        destruct (Split.reclassified _ _); reflexivity. }
    rewrite Hct. cbn. lia.
  - destruct (closing_accounting (Split.tableName_of m p) (prop p "type")) as [Ho Hc].
    unfold counted_twice. rewrite Hp, Hs, Hre, Hw. rewrite Hw in Hc. cbn [andb] in Hc |- *.
    rewrite ?count_app.
    set (c := closing _ _) in *.
    destruct (writable (js_or (prop p "type") (JStr "unknown"))); cbn in *; lia.
  - rewrite (counted_twice_not_simple m p Hp Hs). cbn. lia.
  - destruct Htr as (Hp & Hs & _). rewrite (counted_twice_not_simple m p Hp Hs). cbn. lia.
  - destruct Hsp as (Hp & Hs & _). rewrite (counted_twice_not_simple m p Hp Hs). cbn. lia.
  - destruct Hsp as (Hp & Hs & _). rewrite (counted_twice_not_simple m p Hp Hs). cbn. lia.
  - rewrite (counted_twice_not_simple m p Hp Hs). cbn. lia.
Qed.

Lemma timer_accounting f s s' l :
  (forall t op, f (cdcEventsCounter_inc t op) = false) ->
  (forall msg ev, f (logger_info msg ev) = false) ->
  deliveries [l] = 0%nat ->
  Split.step l s = Some s' -> count f (out s') = count f (out s).
Proof.
  intros Hc Hl Hnd Hstep. destruct l as [m|h| |dt]; [discriminate| | |].
  - apply step_timeout_inv in Hstep as (t & _ & _ & _ & _ & _ & _ & Hcases).
    destruct Hcases as [(_ & -> & _) | (e & _ & _ & _ & _ & ->)]; [reflexivity|].
    rewrite count_app. unfold count at 2. cbn. rewrite Hc, Hl. cbn. lia.
  - apply sweep_silent in Hstep. rewrite Hstep. reflexivity.
  - cbn in Hstep. destruct (0 <=? dt); [|discriminate]. injection Hstep as <-. reflexivity.
Qed.

(** X5. Over any run of the event loop, every delivered message is
    timed exactly once, whatever branch it takes and whether or not it
    throws, and counted as consumed or as an error: once, except that a
    simple-protocol message whose event is written and whose [type] has
    no string conversion is counted as consumed and then, the timer
    throwing, as an error too. Timeouts and sweeps add no duration
    observation and touch neither counter. *)
Theorem every_delivery_is_timed_and_counted_once (ls : list Split.label)
    (s s' : consumer) :
  Split.steps ls s = Some s' ->
  count is_observation (out s') = (count is_observation (out s) + deliveries ls)%nat /\
  (count is_consumed (out s') + count is_error (out s')
   = count is_consumed (out s) + count is_error (out s) + deliveries ls + twice ls)%nat /\
  (twice ls <= deliveries ls)%nat.
Proof.
  revert s. induction ls as [|l ls IH]; intros s Hrun.
  - injection Hrun as <-. cbn. lia.
  - rewrite steps_cons in Hrun.
    destruct (Split.step l s) as [s1|] eqn:Hstep; [|discriminate].
    destruct (IH s1 Hrun) as (IHo & IHc & IHt). rewrite IHo, IHc.
    destruct (deliveries [l]) eqn:Hnd.
    + rewrite (timer_accounting is_observation s s1 l) by (reflexivity || assumption).
      rewrite (timer_accounting is_consumed s s1 l) by (reflexivity || assumption).
      rewrite (timer_accounting is_error s s1 l) by (reflexivity || assumption).
      destruct l; [discriminate| | |]; cbn [deliveries twice]; lia.
    + destruct l as [m| | |]; try discriminate.
      rewrite step_deliver in Hstep. injection Hstep as <-.
      destruct (deliver_accounting m s) as [-> ->]. cbn [deliveries twice].
      destruct (counted_twice m); lia.
Qed.

Lemma every_delivery_is_timed_and_counted_once_witness :
  exists s',
    Split.steps [Split.Deliver Examples.delete_7; Split.Deliver Examples.malformed;
                 Split.Deliver Cases.unwritable_insert; Split.Deliver Cases.simple_untyped;
                 Split.Elapse 500; Split.Timeout 0] (Split.constructor 0) = Some s' /\
    count is_observation (out s') = 4%nat /\
    (count is_consumed (out s') + count is_error (out s') = 5)%nat.
Proof.
  destruct (Split.steps [Split.Deliver Examples.delete_7; Split.Deliver Examples.malformed;
                         Split.Deliver Cases.unwritable_insert;
                         Split.Deliver Cases.simple_untyped; Split.Elapse 500;
                         Split.Timeout 0] (Split.constructor 0)) as [s'|] eqn:Hrun;
    [|vm_compute in Hrun; discriminate].
  exists s'. split; [reflexivity|].
  destruct (every_delivery_is_timed_and_counted_once _ _ _ Hrun) as (Ho & Hc & _).
  split; [exact Ho | exact Hc].
Defined.

(** ** The counter and the log *)





(** ** Pending deletes and their timeouts *)

Lemma backed_with_out f s : backed s -> backed (with_out f s).
Proof. destruct s. exact id. Qed.

Lemma backed_constructor now : backed (Split.constructor now).
Proof.
  split; cbn.
  - intros k e He. rewrite lookup_empty in He. discriminate.
  - intros h t Ht. rewrite lookup_empty in Ht. discriminate.
Qed.

Lemma deliver_backed m s : backed s -> backed (Split.deliver m s).
Proof.
  intros Hb.
  destruct (deliver_delivered m s) as [ | | | | p k Htr | p k e Hsp Hrid Hk He Hts | | ];
    try (apply backed_with_out; exact Hb).
  - destruct Hb as [Hent Hto]. split; cbn.
    + intros k' e' He'. destruct (decide (k' = k)) as [->|Hne].
      * rewrite lookup_insert_eq in He'. injection He' as <-. cbn.
        exists (Split.finalize_of s m p k). rewrite lookup_insert_eq. repeat split.
        destruct Htr as (_ & _ & _ & _ & _ & Hkey). exact (deleteKey_writable _ _ _ Hkey).
      * rewrite lookup_insert_ne in He' by congruence.
        destruct (Hent k' e' He') as (t & Ht & Hrest). exists t. split; [|exact Hrest].
        rewrite lookup_insert_ne; [exact Ht|]. apply Hto in Ht. lia.
    + intros h t Ht. destruct (decide (h = next_handle s)) as [->|Hne]; [lia|].
      rewrite lookup_insert_ne in Ht by congruence. apply Hto in Ht. lia.
  - destruct Hb as [Hent Hto]. split; cbn; [|exact Hto].
    intros k' e' He'. apply lookup_delete_Some in He' as [_ He']. exact (Hent k' e' He').
Qed.

Lemma step_backed l s s' : backed s -> Split.step l s = Some s' -> backed s'.
Proof.
  intros Hb Hstep. destruct l as [m|h| |dt].
  - rewrite step_deliver in Hstep. injection Hstep as <-. apply deliver_backed, Hb.
  - apply step_timeout_inv in Hstep
      as (t & Ht & _ & Hto' & _ & Hnh & _ & Hcases).
    destruct Hb as [Hent Hto]. split.
    + intros k e He.
      assert (He0 : recentDeletes s !! k = Some e).
      { destruct Hcases as [(Hrd & _) | (e0 & _ & _ & Hrd & _)]; rewrite Hrd in He;
          [exact He | apply lookup_delete_Some in He as [_ He]; exact He]. }
      destruct (Hent k e He0) as (t' & Ht' & Hk & Hh & Hts & Hrest).
      exists t'. split; [|repeat split; assumption || apply Hrest].
      rewrite Hto'. rewrite lookup_delete_ne; [exact Ht'|].
      intros ->. rewrite Ht in Ht'. injection Ht' as <-.
      destruct Hcases as [(_ & _ & Hlost) | (e0 & _ & _ & Hrd & _)].
      * unfold Split.lost in Hlost. rewrite Hk, He0, Hh, Nat.eqb_refl, Hts in Hlost.
        rewrite strict_equals_refl in Hlost. discriminate.
      * rewrite Hrd, Hk, lookup_delete_eq in He. discriminate.
    + intros h' t' Ht'. rewrite Hto' in Ht'. apply lookup_delete_Some in Ht' as [_ Ht'].
      rewrite Hnh. exact (Hto h' t' Ht').
  - apply step_interval_inv in Hstep as [_ ->]. destruct Hb as [Hent Hto].
    split; cbn; [|exact Hto].
    intros k e He. rewrite sweep_lookup in He.
    destruct (recentDeletes s !! k) as [e0|] eqn:He0; [|discriminate].
    destruct (_ >? _); [discriminate|]. injection He as <-. exact (Hent k e0 He0).
  - cbn in Hstep. destruct (0 <=? dt); [|discriminate]. injection Hstep as <-. exact Hb.
Qed.

Lemma steps_backed ls : forall s s', backed s -> Split.steps ls s = Some s' -> backed s'.
Proof.
  induction ls as [|l ls IH]; intros s s' Hb Hrun.
  - injection Hrun as <-. exact Hb.
  - rewrite steps_cons in Hrun.
    destruct (Split.step l s) as [s1|] eqn:Hstep; [|discriminate].
    exact (IH s1 s' (step_backed l s s1 Hb Hstep) Hrun).
Qed.

(** X7. In any state the consumer reaches from its construction, every
    entry of [recentDeletes] still has the timeout that was armed with
    it: pending, for the entry's key, due 500 ms after the entry's
    timestamp and carrying the payload the entry's old image came from.
    Once it is due, running it emits the DELETE of that payload and
    removes the entry. So an entry never stays behind without a timeout
    that will remove it. *)
Theorem every_pending_delete_awaits_its_timeout (ls : list Split.label) (now : Z)
    (s : consumer) (k : string) (e : pending) :
  Split.steps ls (Split.constructor now) = Some s ->
  recentDeletes s !! k = Some e ->
  exists h t,
    timeouts s !! h = Some t /\
    f_deleteKey t = k /\
    f_due t = timestamp e + 500 /\
    prop (f_payload t) "old" = data e /\
    forall dt, 0 <= dt -> f_due t <= clock s + dt ->
      exists s',
        Split.steps [Split.Elapse dt; Split.Timeout h] s = Some s' /\
        cdc_events (out s') = cdc_events (out s) ++ [Split.delete_event (clock s + dt) t] /\
        counter_incs (out s') = counter_incs (out s) ++ [(f_tableName t, JStr "delete")] /\
        recentDeletes s' = delete k (recentDeletes s) /\
        timeouts s' = delete h (timeouts s).
Proof.
  intros Hrun He.
  destruct (steps_backed ls _ s (backed_constructor now) Hrun) as [Hent _].
  destruct (Hent k e He) as (t & Ht & Hk & Hh & Hts & Hdue & Hdata & Hw).
  exists (armed e), t. split; [exact Ht|]. split; [exact Hk|]. split; [exact Hdue|].
  split; [symmetry; exact Hdata|].
  intros dt Hdt Hlate. rewrite steps_cons, (step_elapse dt s Hdt), steps_cons.
  rewrite (fire_claims (Split.elapsed dt s) (armed e) t e); cbn; try assumption.
  - eexists. split; [reflexivity|]. cbn.
    rewrite cdc_events_app, counter_incs_app, Hk. repeat split.
  - rewrite Hk. exact He.
  - rewrite Hh, Nat.eqb_refl, Hts. apply strict_equals_refl.
Qed.

Lemma every_pending_delete_awaits_its_timeout_witness :
  exists s,
    Split.steps [Split.Deliver Examples.delete_7; Split.Elapse 100;
                 Split.Deliver Cases.insert_7_other_ts] (Split.constructor 0) = Some s /\
    recentDeletes s !! "users_7" = Some (Split.pending_of (Split.constructor 0)
                                           (Examples.delete_payload 100)) /\
    exists h t, timeouts s !! h = Some t /\ f_due t = 500.
Proof.
  destruct (Split.steps [Split.Deliver Examples.delete_7; Split.Elapse 100;
                         Split.Deliver Cases.insert_7_other_ts] (Split.constructor 0))
    as [s|] eqn:Hrun; [|vm_compute in Hrun; discriminate].
  assert (He : recentDeletes s !! "users_7"
               = Some (Split.pending_of (Split.constructor 0) (Examples.delete_payload 100))).
  { vm_compute in Hrun. injection Hrun as <-. vm_compute. reflexivity. }
  exists s. split; [reflexivity|]. split; [exact He|].
  destruct (every_pending_delete_awaits_its_timeout _ 0 s "users_7" _ Hrun He)
    as (h & t & Ht & _ & Hdue & _).
  exists h, t. split; [exact Ht | exact Hdue].
Defined.

(** ** The sweep against the timeouts *)

(** X8. The sweep can only take entries whose timeout is more than
    4500 ms overdue and has not run; and what it takes is lost: in a
    state reached from the construction, when the sweep runs while an
    entry is more than 5000 ms old, the entry goes without an event, its
    timeout is still pending and already due, and when the timeout runs
    later, with no delivery in between, it emits nothing. The DELETE of
    that entry is never reported. *)
Theorem swept_delete_is_never_reported (ls0 : list Split.label) (now : Z)
    (s : consumer) (k : string) (e : pending) :
  Split.steps ls0 (Split.constructor now) = Some s ->
  recentDeletes s !! k = Some e ->
  clock s - timestamp e > 5000 ->
  interval_due s <= clock s ->
  exists h t s1,
    timeouts s !! h = Some t /\ f_deleteKey t = k /\
    f_due t + 4500 < clock s /\
    Split.step Split.Interval s = Some s1 /\
    recentDeletes s1 !! k = None /\
    out s1 = out s /\
    forall ls s2,
      Forall (fun l => Split.quiet h l = true) ls ->
      Split.steps ls s1 = Some s2 ->
      exists s3,
        Split.step (Split.Timeout h) s2 = Some s3 /\
        out s3 = out s2 /\
        recentDeletes s3 = recentDeletes s2.
Proof.
  intros Hrun He Hold Hint.
  destruct (steps_backed ls0 _ s (backed_constructor now) Hrun) as [Hent _].
  destruct (Hent k e He) as (t & Ht & Hk & Hh & Hts & Hdue & Hdata & Hw).
  unfold Split.correlation_window in Hdue.
  exists (armed e), t. eexists.
  split; [exact Ht|]. split; [exact Hk|]. split; [lia|].
  split; [apply (step_interval s Hint)|]. cbn [recentDeletes out].
  split.
  { rewrite sweep_lookup, He. unfold Split.staleness_threshold.
    destruct (Z.gtb_spec (clock s - timestamp e) 5000); [reflexivity | lia]. }
  split; [reflexivity|].
  intros ls s2 Hq Hsteps.
  destruct (quiet_steps (armed e) t ls _ s2 Hq Hsteps) as (Hkeep & Hsh & Hclk).
  cbn in Hkeep, Hclk. specialize (Hkeep Ht).
  assert (Hlost : Split.lost s2 t).
  { apply (lost_shrinks _ s2 t Hsh). unfold Split.lost. cbn [recentDeletes].
    rewrite sweep_lookup, Hk, He. unfold Split.staleness_threshold.
    destruct (Z.gtb_spec (clock s - timestamp e) 5000); [constructor | lia]. }
  rewrite (fire_noop s2 (armed e) t Hkeep ltac:(lia) Hlost).
  eexists. split; [reflexivity|]. split; reflexivity.
Qed.

Lemma swept_delete_is_never_reported_witness :
  exists s,
    Split.steps [Split.Deliver Examples.delete_7; Split.Elapse 30000]
      (Split.constructor 0) = Some s /\
    exists h s3,
      Split.steps [Split.Interval; Split.Elapse 1; Split.Timeout h] s = Some s3 /\
      cdc_events (out s3) = [] /\ recentDeletes s3 = ∅.
Proof.
  destruct (Split.steps [Split.Deliver Examples.delete_7; Split.Elapse 30000]
              (Split.constructor 0)) as [s|] eqn:Hrun; [|vm_compute in Hrun; discriminate].
  exists s. split; [reflexivity|].
  assert (He : recentDeletes s !! "users_7"
               = Some (Split.pending_of (Split.constructor 0) (Examples.delete_payload 100))).
  { vm_compute in Hrun. injection Hrun as <-. vm_compute. reflexivity. }
  assert (Hold : clock s - 0 > 5000).
  { vm_compute in Hrun. injection Hrun as <-. vm_compute. reflexivity. }
  assert (Hint : interval_due s <= clock s).
  { vm_compute in Hrun. injection Hrun as <-. vm_compute. intros H. discriminate H. }
  destruct (swept_delete_is_never_reported _ 0 s "users_7" _ Hrun He Hold Hint)
    as (h & t & s1 & Ht & _ & _ & Hsweep & _ & _ & Hlater).
  destruct (Hlater [Split.Elapse 1]
              (Split.elapsed 1 s1) ltac:(repeat constructor) eq_refl)
    as (s3 & Hfire & Hout & Hrd).
  exists h, s3. rewrite steps_cons, Hsweep, steps_cons, (step_elapse 1 s1 ltac:(lia)).
  cbn [Split.steps]. rewrite Hfire. split; [reflexivity|].
  rewrite Hout, Hrd. cbn [out recentDeletes Split.elapsed].
  apply step_interval_inv in Hsweep as [_ ->].
  vm_compute in Hrun. injection Hrun as <-. vm_compute. split; reflexivity.
Defined.

(** ** An INSERT that does not claim *)



(** ** What the key of [recentDeletes] identifies *)



(** ** When the simple protocol drops a message *)

Lemma is_num_eq v n : is_num v n = true <-> v = JNum n.
Proof.
  unfold is_num. destruct v; cbn; split; try discriminate; try congruence.
  - intros H. apply Z.eqb_eq in H. congruence.
  - intros [= ->]. apply Z.eqb_refl.
Qed.

Lemma simple_operation_insert ty : Split.simple_operation ty = "INSERT" <-> ty = JNum 0.
Proof.
  unfold Split.simple_operation. split.
  - destruct (is_num ty 0) eqn:H0; [intros _; apply is_num_eq, H0|].
    destruct (is_num ty 1); [discriminate|]. destruct (is_num ty 2); discriminate.
  - intros ->. reflexivity.
Qed.

(** X11. A simple-protocol message is dropped, with no event and an
    error counted, exactly when it is an insert (type 0) with a truthy
    row whose [email] is truthy and is neither a string nor an array,
    so that the email test calls [includes] on a value that has none,
    or its table has no string conversion, so that the events counter
    throws. In every other case exactly one event is written. *)
Theorem simple_message_is_dropped_by_the_email_test_or_the_counter (m : message) (p : jsval)
    (s : consumer) :
  payload_of m = Some p ->
  Split.isSimple p = true ->
  let s' := Split.deliver m s in
  let email := prop (prop p "data") "email" in
  let untestable :=
    prop p "type" = JNum 0 /\ truthy (prop p "data") = true /\ truthy email = true /\
    (forall e, email <> JStr e) /\ (forall l, email <> JArr l) in
  let dropped := untestable \/ writable (prop p "table") = false in
  (dropped ->
     out s' = out s ++
       [logger_error "Error processing CDC message:";
        kafkaErrorsTotal_inc;
        cdcProcessingDuration_observe (JStr "error") (JStr "error")]) /\
  (~ dropped ->
     exists op, cdc_events (out s') = cdc_events (out s) ++ [Split.simple_event (clock s) m p op]) /\
  (cdc_events (out s') = cdc_events (out s) <-> dropped).
Proof.
  intros Hp Hs s' email untestable dropped. subst s'.
  assert (Htab : Split.tableName_of m p = prop p "table").
  { unfold Split.isSimple in Hs. apply andb_prop in Hs as [Hs' _].
    apply andb_prop in Hs' as [_ Hs']. unfold Split.tableName_of, js_or. rewrite Hs'.
    reflexivity. }
  rewrite (deliver_simple m s p Hp Hs), Htab.
  assert (Hiff : Split.reclassified (Split.simple_operation (prop p "type"))
                   (Split.simple_data p) = None <-> untestable).
  { subst untestable email. unfold Split.reclassified, Split.simple_data.
    destruct (String.eqb (Split.simple_operation (prop p "type")) "INSERT") eqn:Hop.
    - apply String.eqb_eq in Hop. pose proof (proj1 (simple_operation_insert _) Hop) as Hty.
      rewrite Hop. cbn [String.eqb andb].
      replace (String.eqb "INSERT" "INSERT") with true by reflexivity. cbn [andb].
      destruct (truthy (prop p "data")) eqn:Hd.
      + destruct (truthy (prop (prop p "data") "email")) eqn:He.
        * destruct (prop (prop p "data") "email") eqn:Hem; cbn;
            (split; [intros H; try discriminate H;
                     repeat split; try assumption; try reflexivity; intros ?; discriminate
                    | intros (_ & _ & _ & Hns & Hna); try reflexivity;
                      try (exfalso; eapply Hns; reflexivity);
                      try (exfalso; eapply Hna; reflexivity)]).
        * split; [discriminate | intros (_ & _ & H & _); discriminate H].
      + cbn. split; [discriminate | intros (_ & H & _); discriminate H].
    - split; [discriminate|]. intros (Hty & _).
      apply simple_operation_insert in Hty. rewrite Hty in Hop. discriminate Hop. }
  destruct (Split.reclassified _ _) as [op|] eqn:Hr;
    [destruct (writable (prop p "table")) eqn:Hw|]; cbn [out with_out].
  - assert (Hnot : ~ dropped).
    { intros [H | H]; [apply Hiff in H; discriminate H | discriminate H]. }
    assert (Hev : cdc_events
                    (out s ++
                     [cdcEventsCounter_inc (prop p "table") (JStr (toLowerCase op));
                      logger_info "CDC Event" (Split.simple_event (clock s) m p op)] ++
                     closing (prop p "table") (prop p "type"))
                  = cdc_events (out s) ++ [Split.simple_event (clock s) m p op]).
    { rewrite !cdc_events_app, (proj1 (closing_silent _ _)). reflexivity. }
    split; [intros H; contradiction|].
    split. { intros _. exists op. exact Hev. }
    split; [|intros H; contradiction].
    rewrite Hev. intros H.
    apply (f_equal (@length _)) in H. rewrite length_app in H. cbn in H. lia.
  - assert (Hyes : dropped) by (right; reflexivity).
    split; [intros _; reflexivity|].
    split; [intros H; contradiction|].
    split; [intros _; exact Hyes|]. intros _.
    rewrite cdc_events_app. cbn. apply app_nil_r.
  - assert (Hyes : dropped) by (left; apply Hiff; reflexivity).
    split; [intros _; reflexivity|].
    split; [intros H; contradiction|].
    split; [intros _; exact Hyes|]. intros _.
    rewrite cdc_events_app. cbn. apply app_nil_r.
Qed.

Lemma simple_message_is_dropped_by_the_email_test_or_the_counter_witness :
  cdc_events (out (Split.deliver Cases.simple_numeric_email (Split.constructor 0))) = [] /\
  count is_error (out (Split.deliver Cases.simple_numeric_email (Split.constructor 0)))
    = 1%nat.
Proof.
  destruct (simple_message_is_dropped_by_the_email_test_or_the_counter Cases.simple_numeric_email _
              (Split.constructor 0) eq_refl eq_refl) as (Hdrop & _ & _).
  rewrite Hdrop; [split; reflexivity|].
  left. repeat split; try reflexivity; intros ?; discriminate.
Defined.

(** ** The message key *)

Lemma js_or_truthy a b : truthy b = true -> truthy (js_or a b) = true.
Proof. unfold js_or. destruct (truthy a) eqn:Ha; [intros _; exact Ha | exact id]. Qed.

Lemma js_or_null a : js_or a JNull = JNull \/ truthy (js_or a JNull) = true.
Proof. unfold js_or. destruct (truthy a) eqn:Ha; [right; exact Ha | left; reflexivity]. Qed.

Lemma key_tableName_truthy m : truthy (Split.key_tableName m) = true.
Proof.
  unfold Split.key_tableName, Split.keyInfo.
  destruct (key m) as [b|]; [|reflexivity].
  destruct (0 <? String.length (text b))%nat; [|reflexivity].
  destruct (json b) as [mk|]; [|reflexivity].
  destruct (nullish mk); [reflexivity|]. cbn [fst snd].
  apply js_or_truthy, js_or_truthy. reflexivity.
Qed.

Lemma tableName_of_truthy m p : truthy (Split.tableName_of m p) = true.
Proof. apply js_or_truthy, key_tableName_truthy. Qed.

(** X12. Reading the key never fails the message and has no effect of
    its own, whatever the key is. The table name it leaves is always
    truthy and the row id is [null] or truthy. A key that parses to an
    object gives [tbl] before [table] and [rid] before [rowid]; a key
    that is not JSON, or is the JSON [null], is kept as its text with
    the table [unknown]; an absent or empty key gives [null]. The table
    name of the message is the payload's [table] when that is truthy and
    the key's otherwise. *)
Theorem key_never_fails_the_message (m : message) (s : consumer) :
  exists mk tn rid,
    Split.parseKey m s = (s, Some (mk, tn, rid)) /\
    truthy tn = true /\
    (rid = JNull \/ truthy rid = true) /\
    (forall b k,
       key m = Some b -> text b <> "" -> json b = Some k -> nullish k = false ->
       mk = k /\
       (truthy (prop k "tbl") = true -> tn = prop k "tbl") /\
       (truthy (prop k "tbl") = false -> truthy (prop k "table") = true ->
        tn = prop k "table") /\
       (truthy (prop k "tbl") = false -> truthy (prop k "table") = false ->
        tn = JStr "unknown") /\
       (truthy (prop k "rid") = true -> rid = prop k "rid") /\
       (truthy (prop k "rid") = false -> truthy (prop k "rowid") = true ->
        rid = prop k "rowid")) /\
    (forall b,
       key m = Some b -> text b <> "" -> json b = None \/ json b = Some JNull ->
       mk = JStr (text b) /\ tn = JStr "unknown" /\ rid = JNull) /\
    (key m = None \/ (exists b, key m = Some b /\ text b = "") ->
     mk = JNull /\ tn = JStr "unknown" /\ rid = JNull) /\
    (forall p, truthy (prop p "table") = true -> Split.tableName_of m p = prop p "table") /\
    (forall p, truthy (prop p "table") = false -> Split.tableName_of m p = tn).
Proof.
  rewrite parseKey_pure.
  destruct (Split.keyInfo m) as [[mk tn] rid] eqn:Hinfo.
  exists mk, tn, rid. split; [reflexivity|].
  assert (Htn : tn = Split.key_tableName m) by (unfold Split.key_tableName; rewrite Hinfo; reflexivity).
  split; [rewrite Htn; apply key_tableName_truthy|].
  unfold Split.keyInfo in Hinfo.
  split.
  { destruct (key m) as [b|]; [|injection Hinfo as <- <- <-; left; reflexivity].
    destruct (0 <? String.length (text b))%nat;
      [|injection Hinfo as <- <- <-; left; reflexivity].
    destruct (json b) as [k|]; [|injection Hinfo as <- <- <-; left; reflexivity].
    destruct (nullish k); injection Hinfo as <- <- <-; [left; reflexivity|].
    destruct (truthy (prop k "rid")) eqn:Hr.
    - right. unfold js_or at 1. rewrite Hr. exact Hr.
    - replace (js_or (prop k "rid") (js_or (prop k "rowid") JNull))
        with (js_or (prop k "rowid") JNull) by (unfold js_or at 2; rewrite Hr; reflexivity).
      apply js_or_null. }
  assert (Hlen : forall b, text b <> "" -> (0 <? String.length (text b))%nat = true).
  { intros b Hb. destruct (text b); [contradiction | reflexivity]. }
  split.
  { intros b k Hk Hb Hj Hn. rewrite Hk, (Hlen b Hb), Hj, Hn in Hinfo.
    injection Hinfo as <- <- <-. unfold js_or.
    split; [reflexivity|].
    split; [intros ->; reflexivity|].
    split; [intros -> ->; reflexivity|].
    split; [intros -> ->; reflexivity|].
    split; [intros ->; reflexivity | intros -> ->; reflexivity]. }
  split.
  { intros b Hk Hb Hj. rewrite Hk, (Hlen b Hb) in Hinfo.
    destruct Hj as [Hj | Hj]; rewrite Hj in Hinfo; injection Hinfo as <- <- <-;
      repeat split. }
  split.
  { intros [Hk | (b & Hk & Hb)]; rewrite Hk in Hinfo.
    - injection Hinfo as <- <- <-. repeat split.
    - rewrite Hb in Hinfo. injection Hinfo as <- <- <-. repeat split. }
  split; intros p Hp; unfold Split.tableName_of, js_or; rewrite Hp; [reflexivity|].
  symmetry. exact Htn.
Qed.

Lemma key_never_fails_the_message_witness :
  map (fun ev => (prop ev "table_name", prop ev "key"))
    (cdc_events (out (Split.deliver Cases.keyed (Split.constructor 0))))
    = [(JStr "orders", JObj [("table", JStr "orders"); ("rowid", JNum 3)])] /\
  map (fun ev => (prop ev "table_name", prop ev "key"))
    (cdc_events (out (Split.deliver Cases.text_keyed (Split.constructor 0))))
    = [(JStr "unknown", JStr "orders-3")] /\
  exists mk tn rid,
    Split.parseKey Cases.keyed (Split.constructor 0)
      = (Split.constructor 0, Some (mk, tn, rid)) /\
    tn = JStr "orders" /\ rid = JNum 3.
Proof.
  split; [vm_compute; reflexivity|]. split; [vm_compute; reflexivity|].
  destruct (key_never_fails_the_message Cases.keyed (Split.constructor 0))
    as (mk & tn & rid & Hrun & _ & _ & Hobj & _).
  exists mk, tn, rid. split; [exact Hrun|].
  destruct (Hobj _ _ eq_refl ltac:(discriminate) eq_refl eq_refl)
    as (_ & _ & Htable & _ & _ & Hrowid).
  split; [exact (Htable eq_refl eq_refl) | exact (Hrowid eq_refl eq_refl)].
Defined.

(** ** The shape of the records *)

Lemma reclassified_nonempty ty d op :
  Split.reclassified (Split.simple_operation ty) d = Some op -> op <> "".
Proof.
  unfold Split.reclassified.
  assert (Hne : Split.simple_operation ty <> "").
  { unfold Split.simple_operation.
    destruct (is_num ty 0); [discriminate|]. destruct (is_num ty 1); [discriminate|].
    destruct (is_num ty 2); discriminate. }
  destruct (String.eqb _ "INSERT"); [|intros [= <-]; exact Hne].
  destruct (truthy _); [|intros [= <-]; exact Hne].
  destruct (Split.includes_result _ "updated_") as [u|]; [|discriminate].
  destruct (Split.includes_result _ "mass_update_") as [mu|]; [|discriminate].
  destruct (u || mu); intros [= <-]; [discriminate | exact Hne].
Qed.

Lemma tag_nonempty v tag : js_or v (JStr "unknown") = JStr tag -> tag <> "".
Proof.
  unfold js_or. destruct (truthy v) eqn:Hv.
  - intros ->. destruct tag; [discriminate Hv | discriminate].
  - intros [= <-]. discriminate.
Qed.

Lemma sound_events s evs :
  sound s -> Forall well_formed evs ->
  forall o, cdc_events o = evs -> sound (with_out (fun o0 => o0 ++ o) s).
Proof.
  intros [Hev Hto] Hwf o Ho. split.
  - cbn [out with_out]. destruct s; cbn. rewrite cdc_events_app, Ho.
    apply Forall_app. split; assumption.
  - destruct s; exact Hto.
Qed.

Lemma deliver_sound m s : sound s -> sound (Split.deliver m s).
Proof.
  intros Hs.
  destruct (deliver_delivered m s)
    as [ | | p op Hp Hsim Hr Hw | p tag Hp Hsim Hty Htag | p k Htr
       | p k e Hsp Hrid Hk He Hts | p Hsp Hu Hw | p tag Hp Hn Hsim Hc Hd Hi Htag Hw ].
  - eapply sound_events; [exact Hs | | reflexivity]. constructor.
  - eapply sound_events; [exact Hs | | reflexivity]. constructor.
  - apply (sound_events s [Split.simple_event (clock s) m p op]); [exact Hs | |].
    + repeat constructor; cbn; [apply tableName_of_truthy|].
      exists op. split; [reflexivity | exact (reclassified_nonempty _ _ _ Hr)].
    + rewrite (cdc_events_app [_; _]), (proj1 (closing_silent _ _)). reflexivity.
  - eapply sound_events; [exact Hs | | reflexivity].
    repeat constructor; cbn. exists tag. split; [exact Hty|].
    destruct Htag as [-> | ->]; discriminate.
  - destruct Hs as [Hev Hto]. split; cbn.
    + rewrite cdc_events_app. cbn. rewrite app_nil_r. exact Hev.
    + intros h t Ht. destruct (decide (h = next_handle s)) as [->|Hne].
      * rewrite lookup_insert_eq in Ht. injection Ht as <-. cbn. apply tableName_of_truthy.
      * rewrite lookup_insert_ne in Ht by congruence. exact (Hto h t Ht).
  - destruct Hs as [Hev Hto]. split; cbn; [|exact Hto].
    rewrite cdc_events_app. apply Forall_app. split; [exact Hev|].
    repeat constructor; cbn; [apply tableName_of_truthy|].
    exists "UPDATE". split; [reflexivity | discriminate].
  - eapply sound_events; [exact Hs | | reflexivity].
    repeat constructor; cbn; [apply tableName_of_truthy|].
    exists "INSERT". split; [reflexivity | discriminate].
  - eapply sound_events; [exact Hs | | reflexivity].
    repeat constructor; cbn; [apply tableName_of_truthy|].
    exists tag. split; [reflexivity | exact (tag_nonempty _ _ Htag)].
Qed.

Lemma step_sound l s s' : sound s -> Split.step l s = Some s' -> sound s'.
Proof.
  intros Hs Hstep. destruct l as [m|h| |dt].
  - rewrite step_deliver in Hstep. injection Hstep as <-. apply deliver_sound, Hs.
  - apply step_timeout_inv in Hstep as (t & Ht & _ & Hto' & _ & _ & _ & Hcases).
    destruct Hs as [Hev Hto]. split.
    + destruct Hcases as [(_ & -> & _) | (e & _ & _ & _ & _ & ->)]; [exact Hev|].
      rewrite cdc_events_app. apply Forall_app. split; [exact Hev|].
      repeat constructor; cbn; [exact (Hto h t Ht)|].
      exists "DELETE". split; [reflexivity | discriminate].
    + intros h' t' Ht'. rewrite Hto' in Ht'. apply lookup_delete_Some in Ht' as [_ Ht'].
      exact (Hto h' t' Ht').
  - apply step_interval_inv in Hstep as [_ ->]. exact Hs.
  - cbn in Hstep. destruct (0 <=? dt); [|discriminate]. injection Hstep as <-. exact Hs.
Qed.

(** X13. Every CDC Event record the consumer writes, over any run from
    its construction, by a delivery or by a timeout, has a truthy table
    name and a non-empty string as its operation: the operation of a
    record is never a number, [null] or the empty string, although the
    payload's [type] can be any of these. *)
Theorem every_record_has_a_table_and_an_operation (ls : list Split.label) (now : Z)
    (s : consumer) :
  Split.steps ls (Split.constructor now) = Some s ->
  Forall (fun ev => truthy (prop ev "table_name") = true /\
                    exists op, prop ev "operation_type" = JStr op /\ op <> "")
    (cdc_events (out s)).
Proof.
  intros Hrun.
  assert (H0 : sound (Split.constructor now)).
  { split; [constructor|]. intros h t Ht. cbn in Ht. rewrite lookup_empty in Ht.
    discriminate. }
  revert H0 Hrun. generalize (Split.constructor now).
  induction ls as [|l ls IH]; intros s0 H0 Hrun.
  - injection Hrun as <-. exact (proj1 H0).
  - rewrite steps_cons in Hrun.
    destruct (Split.step l s0) as [s1|] eqn:Hstep; [|discriminate].
    exact (IH s1 (step_sound l s0 s1 H0 Hstep) Hrun).
Qed.

Lemma every_record_has_a_table_and_an_operation_witness :
  exists s,
    Split.steps [Split.Deliver Examples.delete_7; Split.Deliver Examples.empty_schema;
                 Split.Deliver Examples.numeric_tag; Split.Elapse 500; Split.Timeout 0]
      (Split.constructor 0) = Some s /\
    length (cdc_events (out s)) = 2%nat /\
    Forall (fun ev => exists op, prop ev "operation_type" = JStr op /\ op <> "")
      (cdc_events (out s)).
Proof.
  destruct (Split.steps [Split.Deliver Examples.delete_7; Split.Deliver Examples.empty_schema;
                         Split.Deliver Examples.numeric_tag; Split.Elapse 500;
                         Split.Timeout 0] (Split.constructor 0)) as [s|] eqn:Hrun;
    [|vm_compute in Hrun; discriminate].
  exists s. split; [reflexivity|]. split.
  - vm_compute in Hrun. injection Hrun as <-. reflexivity.
  - eapply Forall_impl; [exact (every_record_has_a_table_and_an_operation _ 0 s Hrun)|].
    intros ev [_ H]. exact H.
Defined.

(** ** [src/consumer/index.js]: every way a delivery can go *)

Lemma canal_deliver_unparsable m s :
  payload_of m = None ->
  Canal.deliver m s = with_out (fun o => o ++ Split.error_effects) s.
Proof.
  intros Hp. unfold Canal.deliver, Canal.processCDCMessage, try_catch.
  unfold payload_of in Hp.
  destruct (value m) as [[t [v|]]|]; try discriminate; mrun; out_norm; reflexivity.
Qed.

Lemma canal_deliver_null m s p :
  payload_of m = Some p -> nullish p = true ->
  Canal.deliver m s =
    with_out (fun o => o ++ logger_info "Processing CDC message:" p :: Split.error_effects) s.
Proof.
  intros Hp Hn. unfold Canal.deliver, Canal.processCDCMessage, try_catch.
  unfold payload_of in Hp. destruct (value m) as [[t [v|]]|]; try discriminate.
  injection Hp as ->.
  assert (Hw : writable (prop p "message") = true) by (destruct p; try discriminate; reflexivity).
  munfold. rewrite (log_info_ok _ _ Hw). munfold. rewrite Hn. mrun. out_norm. reflexivity.
Qed.

(** The duration of a payload whose operation is a string is labelled
    with a string. *)
Lemma other_tag_type_writable p tag :
  other_tag p = JStr tag -> writable (js_or (prop p "type") (JStr "unknown")) = true.
Proof.
  unfold other_tag, js_or. destruct (truthy (prop p "type")); [|reflexivity].
  intros ->. reflexivity.
Qed.



(** ** [src/consumer/index.js]: values that cannot be read *)

(** X14. In [index.js] a message whose value is not JSON, is missing,
    or is the JSON [null] ends in the [catch]: no CDC Event record, no
    increment of the events counter, one increment of
    [kafka_errors_total], none of [kafka_messages_consumed_total], and
    the duration labelled [error]. The consumer of [part_001] counts the
    same message as consumed, not as an error, and labels its duration
    [parse_error]. *)
Theorem canal_unreadable_value_is_an_error (m : message) (s : consumer) :
  payload_of m = None \/ payload_of m = Some JNull ->
  let s' := Canal.deliver m s in
  cdc_events (out s') = cdc_events (out s) /\
  counter_incs (out s') = counter_incs (out s) /\
  count is_error (out s') = S (count is_error (out s)) /\
  count is_consumed (out s') = count is_consumed (out s) /\
  (exists pre, out s' = out s ++ pre ++
     [logger_error "Error processing CDC message:"; kafkaErrorsTotal_inc;
      cdcProcessingDuration_observe (JStr "error") (JStr "error")]) /\
  let s1 := Split.deliver m s in
  count is_error (out s1) = count is_error (out s) /\
  count is_consumed (out s1) = S (count is_consumed (out s)) /\
  exists pre, out s1 = out s ++ pre ++
     [kafkaMessagesTotal_inc;
      cdcProcessingDuration_observe (JStr "unknown") (JStr "parse_error")].
Proof.
  intros Hp s'. subst s'.
  assert (Hsplit : Split.deliver m s
                   = with_out (fun o => o ++ Split.parse_failure_effects m) s).
  { destruct Hp as [Hp | Hp]; [exact (deliver_unparsable m s Hp)|].
    exact (deliver_nullish m s JNull Hp eq_refl). }
  assert (Hcanal : exists pre, cdc_events pre = [] /\ counter_incs pre = [] /\
                     count is_error pre = 0%nat /\ count is_consumed pre = 0%nat /\
                     Canal.deliver m s
                     = with_out (fun o => o ++ pre ++ Split.error_effects) s).
  { destruct Hp as [Hp | Hp].
    - exists []. rewrite (canal_deliver_unparsable m s Hp). repeat split.
    - exists [logger_info "Processing CDC message:" JNull].
      rewrite (canal_deliver_null m s JNull Hp eq_refl). repeat split. }
  destruct Hcanal as (pre & Hev & Hci & Herr & Hcons & ->). rewrite Hsplit.
  cbn [out with_out].
  rewrite !cdc_events_app, !counter_incs_app, !count_app, Hev, Hci, Herr, Hcons.
  cbn. rewrite app_nil_r.
  split; [reflexivity|]. split; [apply app_nil_r|]. split; [lia|]. split; [lia|].
  split; [exists pre; reflexivity|].
  split; [lia|]. split; [lia|]. eexists [_]. reflexivity.
Qed.

Lemma canal_unreadable_value_is_an_error_witness :
  count is_error (out (Canal.deliver Examples.malformed (Split.constructor 0))) = 1%nat /\
  count is_consumed (out (Split.deliver Examples.malformed (Split.constructor 0))) = 1%nat /\
  count is_error (out (Canal.deliver Cases.null_value (Split.constructor 0))) = 1%nat.
Proof.
  destruct (canal_unreadable_value_is_an_error Examples.malformed (Split.constructor 0)
              (or_introl eq_refl)) as (_ & _ & He & _ & _ & _ & Hc & _).
  destruct (canal_unreadable_value_is_an_error Cases.null_value (Split.constructor 0)
              (or_intror eq_refl)) as (_ & _ & He' & _).
  split; [exact He|]. split; [exact Hc | exact He'].
Defined.

(** ** [src/consumer/index.js]: other formats *)



(** ** [src/unnamed/part_000]: every way a delivery can go *)

Lemma combined_parsed m s p :
  payload_of m = Some p -> nullish p = false ->
  Combined.processCDCMessage m s =
    try_catch
      (if Split.isSimple p
       then Split.simpleProtocol m (Split.messageKey_of m) (Split.key_tableName m)
              (Split.key_rowId m) p
       else Combined.canalJson m (Split.messageKey_of m) (Split.key_tableName m) p)
      (emit (logger_error "Error processing CDC message:");;
       emit kafkaErrorsTotal_inc;;
       timer (JStr "error") (JStr "error")) s.
Proof.
  intros Hp Hn. unfold Combined.processCDCMessage, try_catch.
  unfold mbind at 1, M_bind at 1.
  rewrite parseKey_pure.
  unfold Split.messageKey_of, Split.key_tableName, Split.key_rowId.
  destruct (Split.keyInfo m) as [[mk tn] rid]. cbn [fst snd].
  unfold mbind at 1, M_bind at 1. rewrite (parseValue_ok _ _ p Hp Hn).
  reflexivity.
Qed.

Lemma combined_deliver_unparsable m s :
  payload_of m = None \/ (exists p, payload_of m = Some p /\ nullish p = true) ->
  Combined.deliver m s = with_out (fun o => o ++ Split.parse_failure_effects m) s.
Proof.
  intros Hcase. unfold Combined.deliver, Combined.processCDCMessage, try_catch.
  unfold mbind at 1, M_bind at 1. rewrite parseKey_pure.
  destruct (Split.keyInfo m) as [[mk tn] rid].
  unfold mbind at 1, M_bind at 1.
  destruct Hcase as [Hp | (p & Hp & Hn)].
  - rewrite (parseValue_fail _ _ Hp). reflexivity.
  - unfold payload_of in Hp. unfold Split.parseValue. munfold.
    destruct (value m) as [[t [v|]]|]; try discriminate. injection Hp as ->.
    rewrite Hn. mrun. out_norm. reflexivity.
Qed.

Lemma combined_deliver_split m s :
  payload_of m = None \/
  (exists p, payload_of m = Some p /\ (nullish p = true \/ Split.isSimple p = true)) ->
  Combined.deliver m s = Split.deliver m s.
Proof.
  intros [Hp | (p & Hp & [Hn | Hs])].
  - rewrite (deliver_unparsable m s Hp). apply combined_deliver_unparsable. left. exact Hp.
  - rewrite (deliver_nullish m s p Hp Hn). apply combined_deliver_unparsable.
    right. exists p. split; assumption.
  - unfold Combined.deliver, Split.deliver, Split.run.
    rewrite (combined_parsed m s p Hp (isSimple_not_nullish p Hs)),
            (processCDCMessage_parsed m s p Hp (isSimple_not_nullish p Hs)), Hs.
    reflexivity.
Qed.

Lemma combined_deliver_other m s p :
  payload_of m = Some p -> nullish p = false -> Split.isSimple p = false ->
  is_array (prop p "data") = false ->
  Combined.deliver m s =
    match other_tag p with
    | JStr tag =>
        if writable (Split.tableName_of m p) then
          with_out (fun o => o ++
            [cdcEventsCounter_inc (Split.tableName_of m p) (JStr (toLowerCase tag));
             logger_info "CDC Event" (combined_other_event (clock s) m p);
             kafkaMessagesTotal_inc;
             cdcProcessingDuration_observe (Split.tableName_of m p)
               (js_or (prop p "type") (JStr "unknown"))]) s
        else with_out (fun o => o ++ Split.error_effects) s
    | _ => with_out (fun o => o ++ Split.error_effects) s
    end.
Proof.
  intros Hp Hn Hs Harr.
  pose proof (other_tag_type_writable p) as Hty.
  unfold Combined.deliver, Combined.processCDCMessage, try_catch.
  unfold mbind at 1, M_bind at 1. rewrite parseKey_pure.
  unfold combined_other_event, Split.tableName_of, Split.messageKey_of, Split.key_tableName.
  destruct (Split.keyInfo m) as [[mk tn] rid] eqn:Hki. cbn [fst snd] in *.
  unfold mbind at 1, M_bind at 1. rewrite (parseValue_ok _ _ p Hp Hn), Hs.
  unfold Combined.canalJson.
  unfold mbind at 1, M_bind at 1. unfold get at 1. rewrite Hn.
  unfold mret at 1, M_ret at 1.
  assert (Hbr : match prop p "data" with
                | JArr rows => Combined.for_of (Combined.canalRow m mk p) tn rows
                | _ => Combined.otherFormat m mk p tn
                end = Combined.otherFormat m mk p tn)
    by (destruct (prop p "data"); try reflexivity; discriminate Harr).
  rewrite Hbr. clear Hbr.
  unfold Combined.otherFormat, other_tag, Split.finish in *.
  munfold. rewrite ?Hn. cbn.
  destruct (js_or (prop p "type") (js_or (prop p "op") (JStr "unknown"))) as [| |b|n|tag|l|l];
    cbn; rewrite ?Hn; cbn; try (mrun; out_norm; reflexivity).
  specialize (Hty tag eq_refl).
  destruct (writable (js_or (prop p "table") tn)) eqn:Hw.
  - mrun. rewrite ?Hn. mrun. out_norm. reflexivity.
  - rewrite (counter_inc_fail _ _ Hw). mrun. out_norm. reflexivity.
Qed.

(** ** A row the loop cannot process *)







(** ** An empty array *)



(** ** [part_000] against [part_001] *)

(** X18. [part_000] and [part_001] treat a message alike as long as it
    is unparsable, [null] or simple protocol. They part on the rest: a
    DELETE that [part_001] tracks and holds back is reported by
    [part_000] at once, as one event of protocol [unknown] that carries
    the whole payload, with nothing stored. *)
Theorem part_000_reports_a_delete_at_once (m : message) (s : consumer) :
  (payload_of m = None \/
   (exists p, payload_of m = Some p /\ (nullish p = true \/ Split.isSimple p = true)) ->
   Combined.deliver m s = Split.deliver m s) /\
  (forall p k,
     Split.tracked_delete m p k ->
     is_array (prop p "data") = false ->
     cdc_events (out (Combined.deliver m s))
       = cdc_events (out s) ++ [combined_other_event (clock s) m p] /\
     prop (combined_other_event (clock s) m p) "operation_type" = JStr "DELETE" /\
     prop (combined_other_event (clock s) m p) "data" = p /\
     prop (combined_other_event (clock s) m p) "protocol" = JStr "unknown" /\
     recentDeletes (Combined.deliver m s) = recentDeletes s /\
     cdc_events (out (Split.deliver m s)) = cdc_events (out s) /\
     recentDeletes (Split.deliver m s) = <[k := Split.pending_of s p]> (recentDeletes s)).
Proof.
  split; [apply combined_deliver_split|].
  intros p k Htr Harr. pose proof Htr as (Hp & Hs & Hty & Hold & Hrid & Hk).
  assert (Hn : nullish p = false) by (apply (prop_nullish p "type"); rewrite Hty; discriminate).
  assert (Htag : other_tag p = JStr "DELETE") by (unfold other_tag, js_or; rewrite Hty; reflexivity).
  rewrite (combined_deliver_other m s p Hp Hn Hs Harr), Htag, (deleteKey_writable _ _ _ Hk).
  rewrite (tracked_delete_delivered m p k s Htr). cbn [out with_out recentDeletes].
  rewrite !cdc_events_app. cbn. rewrite Htag, app_nil_r. repeat split.
Qed.

Lemma part_000_reports_a_delete_at_once_witness :
  map (fun ev => prop ev "operation_type")
    (cdc_events (out (Combined.deliver Examples.delete_7 (Split.constructor 0))))
    = [JStr "DELETE"] /\
  cdc_events (out (Split.deliver Examples.delete_7 (Split.constructor 0))) = [] /\
  Combined.deliver Examples.simple_marked (Split.constructor 0)
    = Split.deliver Examples.simple_marked (Split.constructor 0).
Proof.
  destruct (part_000_reports_a_delete_at_once Examples.delete_7 (Split.constructor 0))
    as [_ Hdel].
  destruct (part_000_reports_a_delete_at_once Examples.simple_marked (Split.constructor 0))
    as [Hsame _].
  assert (Htr : Split.tracked_delete Examples.delete_7 (Examples.delete_payload 100) "users_7")
    by (repeat split; reflexivity).
  destruct (Hdel _ _ Htr eq_refl) as (Hev & _ & _ & _ & _ & Hsplit & _).
  split; [rewrite Hev; reflexivity|]. split; [exact Hsplit|].
  apply Hsame. right. eexists. split; [reflexivity|]. right. reflexivity.
Defined.
(** ** The books of [index.js] and [part_000] *)



Lemma tallied_app o1 o2 : tallied o1 -> tallied o2 -> tallied (o1 ++ o2).
Proof.
  unfold tallied. intros H1 H2. rewrite counter_incs_app, cdc_events_app.
  apply Forall2_app; assumption.
Qed.








(** ** Starting and stopping *)

Ltac lunfold :=
  repeat (progress
    (unfold Lifecycle.stop, Lifecycle.signal, Lifecycle.on_signal,
       Lifecycle.on_unhandledRejection, Lifecycle.try_catch, Lifecycle.await,
       Lifecycle.act, Lifecycle.exit, Lifecycle.set_isRunning,
       Lifecycle.get_dbConnection, Lifecycle.reject, Lifecycle.errors_counted,
       mbind, Lifecycle.L_bind, mret, Lifecycle.L_ret;
     cbn [fst snd Lifecycle.trace Lifecycle.dbConnection Lifecycle.isRunning
          Lifecycle.exited Lifecycle.consumer_disconnect Lifecycle.dbConnection_end]));
  rewrite <- ?app_assoc; cbn [app].

(** X20. [start] never rejects: every failure ends in its [catch],
    which logs, counts one error and exits with code 1. It exits exactly
    when the database connection or one of the three Kafka calls fails,
    and never otherwise. When the database cannot be reached Kafka is
    never contacted. [isRunning] becomes true as soon as the
    subscription succeeds, before [run]. On no path does [start] close
    the database connection it opened or disconnect the consumer. *)
Theorem start_exits_exactly_on_failure (w : Lifecycle.world) :
  let s := Lifecycle.started w in
  (Lifecycle.start w Lifecycle.created).2 = Some tt /\
  (Lifecycle.exited s = Some 1 <-> Lifecycle.all_resolve w = false) /\
  (Lifecycle.exited s = None <-> Lifecycle.all_resolve w = true) /\
  Lifecycle.errors_counted s = (if Lifecycle.all_resolve w then 0 else 1)%nat /\
  (Lifecycle.mysql_createConnection w = Lifecycle.rejects ->
   Lifecycle.trace s =
     [Lifecycle.call "mysql.createConnection";
      Lifecycle.error "Failed to connect to TiDB:";
      Lifecycle.error "Failed to start CDC consumer:";
      Lifecycle.kafkaErrorsTotal_inc;
      Lifecycle.process_exit 1]) /\
  (Lifecycle.dbConnection s = true <->
   Lifecycle.mysql_createConnection w = Lifecycle.resolves) /\
  (Lifecycle.isRunning s = true <->
   Lifecycle.mysql_createConnection w = Lifecycle.resolves /\
   Lifecycle.consumer_connect w = Lifecycle.resolves /\
   Lifecycle.consumer_subscribe w = Lifecycle.resolves) /\
  Lifecycle.called "dbConnection.end" s = false /\
  Lifecycle.called "consumer.disconnect" s = false.
Proof.
  destruct w as [[] [] [] [] d e]; vm_compute;
    repeat split; try reflexivity; try discriminate;
    try (intros (? & ? & ?)); try (intros ?); try discriminate; try reflexivity.
Qed.

Lemma start_exits_exactly_on_failure_witness :
  Lifecycle.exited (Lifecycle.started Lifecycle.calm) = None /\
  Lifecycle.exited (Lifecycle.started Lifecycle.no_kafka) = Some 1 /\
  Lifecycle.dbConnection (Lifecycle.started Lifecycle.no_kafka) = true /\
  Lifecycle.called "dbConnection.end" (Lifecycle.started Lifecycle.no_kafka) = false.
Proof.
  destruct (start_exits_exactly_on_failure Lifecycle.calm) as (_ & _ & Hnone & _).
  destruct (start_exits_exactly_on_failure Lifecycle.no_kafka)
    as (_ & Hexit & _ & _ & _ & Hdb & _ & Hend & _).
  split; [apply Hnone; reflexivity|]. split; [apply Hexit; reflexivity|].
  split; [apply Hdb; reflexivity | exact Hend].
Defined.

(** X21. [stop] has no [catch]: it always clears [isRunning] and always
    asks the consumer to disconnect; it closes the database connection
    only when there is one and the disconnect succeeded. It resolves
    exactly when every call it made succeeded; when the disconnect fails
    the database connection is left open and the final log line is never
    written. [dbConnection] itself is never reset. *)
Theorem stop_gives_up_at_the_first_failure (w : Lifecycle.world) (s : Lifecycle.app) :
  let s' := (Lifecycle.stop w s).1 in
  let ended := Lifecycle.call "dbConnection.end" in
  Lifecycle.isRunning s' = false /\
  Lifecycle.dbConnection s' = Lifecycle.dbConnection s /\
  Lifecycle.exited s' = Lifecycle.exited s /\
  ((Lifecycle.stop w s).2 = Some tt <->
   Lifecycle.consumer_disconnect w = Lifecycle.resolves /\
   (Lifecycle.dbConnection s = false \/ Lifecycle.dbConnection_end w = Lifecycle.resolves)) /\
  (Lifecycle.consumer_disconnect w = Lifecycle.rejects ->
   Lifecycle.trace s' = Lifecycle.trace s ++
     [Lifecycle.info "Stopping CDC Consumer..."; Lifecycle.call "consumer.disconnect"]) /\
  (Lifecycle.consumer_disconnect w = Lifecycle.resolves ->
   Lifecycle.dbConnection s = true ->
   exists rest,
     Lifecycle.trace s' = Lifecycle.trace s ++
       [Lifecycle.info "Stopping CDC Consumer..."; Lifecycle.call "consumer.disconnect";
        ended] ++ rest /\
     (rest = [Lifecycle.info "CDC Consumer stopped"] \/ rest = [])) /\
  (Lifecycle.consumer_disconnect w = Lifecycle.resolves ->
   Lifecycle.dbConnection s = false ->
   Lifecycle.trace s' = Lifecycle.trace s ++
     [Lifecycle.info "Stopping CDC Consumer..."; Lifecycle.call "consumer.disconnect";
      Lifecycle.info "CDC Consumer stopped"]).
Proof.
  destruct w as [a b c d [] []], s as [[] r x tr]; lunfold;
    repeat split; try reflexivity; try discriminate;
    try (intros [? [?|?]]); try (intros ?); try discriminate; try reflexivity;
    try (left; reflexivity); try (right; reflexivity);
    try (eexists; split; [reflexivity|]; (left; reflexivity) || (right; reflexivity)).
Qed.

Lemma stop_gives_up_at_the_first_failure_witness :
  let s := (Lifecycle.stop Lifecycle.no_kafka (Lifecycle.started Lifecycle.calm)).1 in
  (Lifecycle.stop Lifecycle.no_kafka (Lifecycle.started Lifecycle.calm)).2 = None /\
  Lifecycle.isRunning s = false /\
  Lifecycle.called "dbConnection.end" s = false.
Proof.
  destruct (stop_gives_up_at_the_first_failure Lifecycle.no_kafka
              (Lifecycle.started Lifecycle.calm)) as (Hrun & _ & _ & _ & Htrace & _).
  cbn zeta. split; [reflexivity|]. split; [exact Hrun|].
  unfold Lifecycle.called. rewrite (Htrace eq_refl). reflexivity.
Defined.

(** X22. On SIGTERM or SIGINT the process exits with code 0 exactly
    when [stop] resolves. When [stop] rejects, the rejection reaches the
    [unhandledRejection] listener, which logs it and counts one error;
    [process.exit] is never called, so the process stays up with
    [isRunning] false. *)
Theorem signal_exits_only_after_a_clean_stop (name : string) (w : Lifecycle.world)
    (s : Lifecycle.app) :
  let s' := Lifecycle.signal name w s in
  Lifecycle.isRunning s' = false /\
  ((Lifecycle.stop w s).2 = Some tt ->
   Lifecycle.exited s' = Some 0 /\
   Lifecycle.errors_counted s' = Lifecycle.errors_counted s) /\
  ((Lifecycle.stop w s).2 = None ->
   Lifecycle.exited s' = Lifecycle.exited s /\
   Lifecycle.errors_counted s' = S (Lifecycle.errors_counted s) /\
   exists pre, Lifecycle.trace s' = Lifecycle.trace s ++ pre ++
     [Lifecycle.error "Unhandled Rejection at:"; Lifecycle.kafkaErrorsTotal_inc]).
Proof.
  assert (Hcount : forall tr more,
            length (List.filter (fun x => match x with
                                          | Lifecycle.kafkaErrorsTotal_inc => true
                                          | _ => false end) (tr ++ more))
            = (length (List.filter (fun x => match x with
                                          | Lifecycle.kafkaErrorsTotal_inc => true
                                          | _ => false end) tr)
               + length (List.filter (fun x => match x with
                                          | Lifecycle.kafkaErrorsTotal_inc => true
                                          | _ => false end) more))%nat).
  { intros tr more. rewrite List.filter_app, length_app. reflexivity. }
  destruct w as [a b c d [] []], s as [[] r x tr];
    lunfold; rewrite ?Hcount; cbn [List.filter length];
    repeat split; try reflexivity; try discriminate;
    try (intros ?); try discriminate; repeat split; try reflexivity; try lia;
    try (eexists [_; _; _]; reflexivity); try (eexists [_; _; _; _]; reflexivity).
Qed.

Lemma signal_exits_only_after_a_clean_stop_witness :
  Lifecycle.exited (Lifecycle.signal "SIGTERM" Lifecycle.calm
                      (Lifecycle.started Lifecycle.calm)) = Some 0 /\
  Lifecycle.exited (Lifecycle.signal "SIGTERM" Lifecycle.no_kafka
                      (Lifecycle.started Lifecycle.calm)) = None /\
  Lifecycle.errors_counted (Lifecycle.signal "SIGTERM" Lifecycle.no_kafka
                              (Lifecycle.started Lifecycle.calm)) = 1%nat.
Proof.
  destruct (signal_exits_only_after_a_clean_stop "SIGTERM" Lifecycle.calm
              (Lifecycle.started Lifecycle.calm)) as (_ & Hclean & _).
  destruct (signal_exits_only_after_a_clean_stop "SIGTERM" Lifecycle.no_kafka
              (Lifecycle.started Lifecycle.calm)) as (_ & _ & Hfail).
  destruct (Hclean eq_refl) as [H0 _].
  destruct (Hfail eq_refl) as (Hx & Hn & _).
  split; [exact H0|]. split; [exact Hx | exact Hn].
Defined.
